(** * train.py: the YOLOv7 training driver, as a shallow embedding

    The driver orchestrates an external deep-learning framework: tensors,
    the network, the loss, automatic differentiation, the optimizer kernels,
    the collective reducer and the pseudo-random generators are all supplied
    by collaborators.  They are the fields of the class [Framework]; what is
    embedded from the source is the control flow of [train.py] around them:
    set-up and its rejections, the construction of the per-step function,
    loss scaling, gradient accumulation, EMA updates and logging.

    Effects are explicit.  Everything the driver does to the outside (a call
    of the optimizer, of [ema.update], of [loss_scaler.adjust], a [print])
    is appended to a trace kept in the [World]; an exception ends the run and
    keeps the trace built so far.  Python floats are read as exact
    rationals ([Q]); integer-valued floats such as [accumulate] are [Z].

    Not embedded: the YAML dumps of the run settings, the ModelArts
    synchronisation, the rescaling of the hyper-parameters [box], [cls],
    [obj] and [weight_decay], wall-clock timing and the learning rates shown
    in the per-step log line. *)

From Stdlib Require Import ZArith QArith Qround Qminmax String List Bool Lia Lqa.
From stdpp Require Import gmap strings.
Import ListNotations.
Open Scope Z_scope.

(** ** Python helpers *)

(** [s.endswith(suffix)] *)
Definition endswith (s suffix : string) : bool :=
  let n := String.length s in
  let k := String.length suffix in
  if (k <=? n)%nat
  then String.eqb (String.substring (n - k) k s) suffix
  else false.

(** [sub in s] on strings *)
Definition str_contains (sub s : string) : bool :=
  match String.index 0 sub s with
  | Some _ => true
  | None => false
  end.

(** [round(x)] and [numpy.round]: to the nearest integer, ties to even. *)
Definition round_half_even (q : Q) : Z :=
  let fl := Qfloor q in
  match ((q - inject_Z fl) ?= (1 # 2))%Q with
  | Lt => fl
  | Gt => fl + 1
  | Eq => if Z.even fl then fl else fl + 1
  end.

(** [numpy.interp(x, [x0, x1], [y0, y1])] *)
Definition np_interp (x x0 x1 y0 y1 : Q) : Q :=
  if Qle_bool x x0 then y0
  else if Qle_bool x1 x then y1
  else ((y1 - y0) / (x1 - x0) * (x - x0) + y0)%Q.

(** [max(xs)] of a list of integers ([0] stands for the error on []). *)
Definition list_max_Z (xs : list Z) : Z :=
  match xs with
  | [] => 0
  | x :: rest => fold_left Z.max rest x
  end.

(** ** Exceptions and the trace monad *)

Inductive exn : Type :=
| NotImplementedError
| AssertionError (msg : string)
| IndexError.

Inductive outcome (W A : Type) : Type :=
| Return (a : A) (w : W)
| Raise (e : exn) (w : W).
Arguments Return {W A} a w.
Arguments Raise {W A} e w.

Definition M (W A : Type) : Type := W -> outcome W A.

Definition ret {W A} (a : A) : M W A := fun w => Return a w.

Definition bind {W A B} (m : M W A) (k : A -> M W B) : M W B :=
  fun w => match m w with
           | Return a w' => k a w'
           | Raise e w' => Raise e w'
           end.

Definition raise {W A} (e : exn) : M W A := fun w => Raise e w.

(** [assert cond, msg] *)
Definition assert {W} (cond : bool) (msg : string) : M W unit :=
  if cond then ret tt else raise (AssertionError msg).

Declare Scope train_scope.
Delimit Scope train_scope with train.
Notation "x <- c1 ;; c2" := (bind c1 (fun x => c2))
  (at level 100, c1 at next level, right associativity) : train_scope.
Notation "c1 ;;; c2" := (bind c1 (fun _ => c2))
  (at level 100, right associativity) : train_scope.
Open Scope train_scope.

(** ** Configuration *)

(** The parsed command line ([opt]), with the fields [train.py] reads. *)
Record Opt : Type := {
  opt_cfg : string;
  opt_weights : string;
  opt_ema : bool;
  opt_ema_weight : string;
  opt_single_cls : bool;
  opt_sync_bn : bool;
  opt_freeze : list Z;
  opt_optimizer : string;
  opt_ms_strategy : string;
  opt_ms_amp_level : string;
  opt_ms_loss_scaler : string;
  opt_ms_loss_scaler_value : Q;
  opt_ms_grad_sens : Q;
  opt_ms_optim_loss_scale : Q;
  opt_overflow_still_update : bool;
  opt_multi_scale : bool;
  opt_is_distributed : bool;
  opt_device_target : string;
  opt_evolve : bool;
  opt_epochs : Z;
  opt_batch_size : Z;
  opt_total_batch_size : Z;
  opt_rank_size : Z;
  opt_rank : Z
}.

(** The dataset descriptor ([data_dict]). *)
Record DataDict : Type := {
  data_nc : Z;
  data_names : list string
}.

(** What the repository's helpers outside [train.py] hand back during
    set-up: [create_dataloader], [check_img_size], the model's stride and
    detection-layer count, [get_lr_yolov7] and the largest label class. *)
Record Externals : Type := {
  ext_gs : Z;
  ext_imgsz : Z;
  ext_per_epoch_size : Z;
  ext_mlc : Z;
  ext_momentum_pg : list Q;
  ext_warmup_steps : Z
}.

(** The auto-parallel context set by [__main__]. *)
Record ParallelContext : Type := {
  gradients_mean : bool;
  device_num : Z
}.

(** ** The loss scaler ([mindspore.amp]) *)

Inductive LossScaler : Type :=
| DynamicLossScaler (scale_value scale_factor : Q) (scale_window counter : Z)
| StaticLossScaler (scale_value : Q).

Definition scale_value_of (ls : LossScaler) : Q :=
  match ls with
  | DynamicLossScaler v _ _ _ => v
  | StaticLossScaler v => v
  end.

(** The floor of the dynamic scale. *)
Definition scale_floor : Q := 1.

(** Modelled from the spec: [LossScaler.adjust] belongs to the framework and
    is not under src/.  Section 4.1: on every finite step a hit-counter
    increments; after [scale_window] consecutive finite steps the scale is
    multiplied by [scale_factor]; on a single non-finite step the scale is
    divided by [scale_factor] at once, not below the floor, and the counter
    resets.  A static scaler does not adapt. *)
Definition adjust (ls : LossScaler) (grads_finite : bool) : LossScaler :=
  match ls with
  | StaticLossScaler v => StaticLossScaler v
  | DynamicLossScaler v f win c =>
      if grads_finite then
        if c + 1 =? win
        then DynamicLossScaler (v * f)%Q f win 0
        else DynamicLossScaler v f win (c + 1)
      else DynamicLossScaler (Qmax scale_floor (v / f))%Q f win 0
  end.

(** The optimizers [train] can build. *)
Inductive OptimizerKind : Type := SGD | Momentum | Adam.

Record Optimizer : Type := {
  optim_kind : OptimizerKind;
  optim_loss_scale : Q;
  optim_momentum : option Q
}.

(** [rank_size=8]: the default of the parameter [rank_size] of both
    [create_train_static_shape_cell] and
    [create_train_static_shape_fn_gradoperation]. *)
Definition default_rank_size : Z := 8.

(** [nbs = 64], the nominal batch size. *)
Definition nbs : Z := 64.

(** ** The framework *)

(** The EMA tracker of [network.common]: its shadow network and its update
    counter are the two attributes [train.py] touches. *)
Record EMA (Cell Tensor : Type) : Type := {
  ema_model : Cell;
  updates : Tensor
}.
Arguments ema_model {Cell Tensor} e.
Arguments updates {Cell Tensor} e.
Arguments Build_EMA {Cell Tensor} ema_model updates.

(** The collaborators of the driver. *)
Class Framework : Type := {
  Tensor : Type;
  Cell : Type;
  PyRng : Type;
  NpRng : Type;
  MsRng : Type;

  (** Tensor arithmetic: [t / c], [t * n], [t1 + t2],
      [ops.fill(t.dtype, t.shape, v)], [ops.interpolate(x, sizes=...)],
      [imgs.shape[2:]] and [Tensor(array, dtype)]. *)
  tensor_div : Tensor -> Q -> Tensor;
  tensor_mul : Tensor -> Z -> Tensor;
  tensor_add : Tensor -> Tensor -> Tensor;
  ops_fill : Tensor -> Q -> Tensor;
  ops_interpolate : Tensor -> list Z -> Tensor;
  shape_hw : Tensor -> list Z;
  as_dtype : string -> Tensor -> Tensor;

  (** The network: [Model(cfg, ch=3, nc=nc, ..., sync_bn=sync_bn)], its
      forward pass, and freezing of the named layers. *)
  Model : string -> Z -> bool -> Cell;
  model_forward : Cell -> Tensor -> Tensor;
  freeze_layers : list Z -> Cell -> Cell;

  (** The two loss classes, built on the model; each returns
      [(loss, loss_items)]. *)
  ComputeLossOTA : Cell -> Tensor -> Tensor -> Tensor -> Tensor * Tensor;
  ComputeLoss : Cell -> Tensor -> Tensor -> Tensor * Tensor;

  (** [ops.GradOperation(get_by_list=True, sens_param=True)(fn, params)]:
      the gradients of [fn] at the current parameters, seeded with [sens]. *)
  GradOperation : (Cell -> Tensor * Tensor) -> Cell -> Tensor * Tensor -> list Tensor;

  (** [optimizer(grads)]: one parameter update. *)
  optimizer_apply : Optimizer -> Cell -> list Tensor -> Cell;

  (** [nn.DistributedGradReducer(parameters, mean, degree)], called. *)
  DistributedGradReducer : bool -> Z -> list Tensor -> list Tensor;

  (** [utils.all_finite.all_finite]. *)
  all_finite : list Tensor -> bool;

  (** [nn.TrainOneStepWithLossScaleCell(network, optimizer, scale_sense)],
      called on a batch, with the optimizer and the parameters as they are
      at the call: [(loss, overflow, loss_scale)] and the parameters it
      leaves behind. *)
  TrainOneStepWithLossScaleCell :
    (Cell -> Tensor -> Tensor -> option (list Z) -> Tensor) -> Q ->
    Optimizer -> Cell -> Tensor -> Tensor -> option (list Z) ->
    (Tensor * bool * Tensor) * Cell;

  (** Checkpoint files. *)
  load_checkpoint : string -> gmap string Tensor;
  load_param_into_net : Cell -> gmap string Tensor -> Cell;

  (** [EMA(model)], [ema.update()], [ema.clone_from_model()]. *)
  EMA_init : Cell -> EMA Cell Tensor;
  EMA_update : EMA Cell Tensor -> Cell -> EMA Cell Tensor;
  EMA_clone_from_model : EMA Cell Tensor -> Cell -> EMA Cell Tensor;

  (** The three pseudo-random generators and [random.randrange]. *)
  np_random_seed : Z -> NpRng;
  random_seed : Z -> PyRng;
  ms_set_seed : Z -> MsRng;
  randrange : PyRng -> Q -> Q -> Z * PyRng
}.

(** ** The driver over the framework *)

Section Train.

Context `{F : Framework}.

(** *** Trace *)

(** The lines [train.py] prints; the text is in the comments. *)
Inductive message : Type :=
| MsgPretrainLoad (weights : string)
    (* Pretrain model load from "{weights}" success. *)
| MsgUpdatesMiss (ema_weight : string)
    (* "updates" miss in "{opt.ema_weight}" *)
| MsgEmaPretrainLoad (ema_weight : string)
    (* Ema pretrain model load from "{opt.ema_weight}" success. *)
| MsgEmaWeightNotExist
    (* ema_weight not exist, default pretrain weight is currently used. *)
| MsgOptimLossScale (v : Q)
    (* optimizer loss scale is {opt.ms_optim_loss_scale} *)
| MsgCellOverflowDrop (cur_epoch cur_step : Z) (loss_scale : Tensor)
    (* Epoch: .., Step: .., this step grad overflow, drop. Cur loss scale is .. *)
| MsgOverflowAdjust (scale : Q)
    (* overflow, loss scale adjust to .. *)
| MsgAccumulateSuccess (cur_epoch cur_step : Z)
    (* -Epoch: .., Step: .., optimizer an accumulate step success. *)
| MsgOverflowDropScale (cur_epoch cur_step : Z) (scale : Q)
    (* Epoch: .., Step: .., this step grad overflow, drop. Loss scale adjust to .. *)
| MsgOverflowDrop (cur_epoch cur_step : Z)
    (* Epoch: .., Step: .., this step grad overflow, drop. *)
| MsgOverflowStillUpdate
    (* overflow, still update. *)
| MsgOverflowDropStep
    (* overflow, drop the step. *)
| MsgFpBp (cur_epoch cur_step : Z) (size : list Z)
    (* Epoch ../.., Step ../.., size .., fp/bp time cost: .. ms *)
| MsgStepLoss (cur_epoch cur_step : Z) (size : list Z) (loss : Tensor)
    (* Epoch ../.., Step ../.., size .., loss: .., step time: .. ms *)
| MsgStepLossItems (cur_epoch cur_step : Z) (size : list Z) (loss loss_item : Tensor)
    (* Epoch ../.., Step ../.., size .., loss: .., lbox: .., lobj: .., lcls: .., .. *)
| MsgEpochTime (cur_epoch : Z)
    (* Epoch ../.., epoch time: .. min. *).

(** What the driver does to the outside, in order: a printed line, a call
    of the step function (with the sizes it is given), of the optimizer (with
    the gradients it is given), of [ema.update], of [loss_scaler.adjust], and
    the checkpoint files written at an epoch boundary. *)
Inductive event : Type :=
| Stdout (m : message)
| TrainStepCall (sizes : option (list Z))
| OptimizerCall (grads : list Tensor)
| EmaUpdate
| ScalerAdjust (grads_finite : bool)
| SaveCheckpoint (cur_epoch : Z)
| SaveEmaCheckpoint (cur_epoch : Z) (ema_updates : Tensor).

Record World : Type := {
  trace : list event;
  np_rng : NpRng;
  py_rng : PyRng;
  ms_rng : MsRng
}.

Definition emit (e : event) : M World unit :=
  fun w => Return tt {| trace := trace w ++ [e];
                        np_rng := np_rng w; py_rng := py_rng w; ms_rng := ms_rng w |}.

Definition print (m : message) : M World unit := emit (Stdout m).

(** *** set_seed *)

Definition default_seed : Z := 2.

Definition set_seed (seed : Z) : M World unit :=
  fun w => Return tt {| trace := trace w;
                        np_rng := np_random_seed seed;
                        py_rng := random_seed seed;
                        ms_rng := ms_set_seed seed |}.

(** [random.randrange(a, b)] on the process-wide generator. *)
Definition py_randrange (a b : Q) : M World Z :=
  fun w => let '(v, g) := randrange (py_rng w) a b in
           Return v {| trace := trace w; np_rng := np_rng w;
                       py_rng := g; ms_rng := ms_rng w |}.

(** *** The loss scaler's [unscale] and the optimizer call *)

Definition unscale (ls : LossScaler) (grads : list Tensor) : list Tensor :=
  map (fun g => tensor_div g (scale_value_of ls)) grads.

Definition call_optimizer (optimizer : Optimizer) (model : Cell)
    (grads : list Tensor) : M World Cell :=
  emit (OptimizerCall grads) ;;;
  ret (optimizer_apply optimizer model grads).

(** [use_ota = 'loss_ota' not in hyp or hyp['loss_ota'] == 1] *)
Definition use_ota (hyp : gmap string Q) : bool :=
  match hyp !! "loss_ota"%string with
  | None => true
  | Some v => Qeq_bool v 1
  end.

(** *** create_train_static_shape_cell *)

(** [Warpper.construct]; [rank_size] is the enclosing function's
    parameter, not [self.rank_size]. *)
Definition Warpper_construct (hyp : gmap string Q) (rank_size : Z)
    (model : Cell) (x label : Tensor) (sizes : option (list Z)) : Tensor :=
  let x := tensor_div x 255 in
  let x := match sizes with
           | Some sz => ops_interpolate x sz
           | None => x
           end in
  let pred := model_forward model x in
  let '(loss, loss_items) :=
    if use_ota hyp then ComputeLossOTA model pred label x
    else ComputeLoss model pred label in
  tensor_mul loss rank_size.

(** The train network: a function of the objects it shares with [train]
    (the optimizer, the network) and of the batch. *)
Definition CellStep : Type :=
  Optimizer -> Cell -> Tensor -> Tensor -> option (list Z) ->
  (Tensor * bool * Tensor) * Cell.

Definition create_train_static_shape_cell (opt : Opt) (hyp : gmap string Q)
    (rank_size : Z) : M World CellStep :=
  assert (Qeq_bool (opt_ms_grad_sens opt) (opt_ms_loss_scaler_value opt))
         "ms_grad_sens not equal ms_loss_scaler_value." ;;;
  ret (TrainOneStepWithLossScaleCell (Warpper_construct hyp rank_size)
         (opt_ms_grad_sens opt)).

(** *** create_train_static_shape_fn_gradoperation *)

Definition forward_func (hyp : gmap string Q) (rank_size : Z)
    (model : Cell) (x label : Tensor) (sizes : option (list Z)) : Tensor * Tensor :=
  let x := tensor_div x 255 in
  let x := match sizes with
           | Some sz => ops_interpolate x sz
           | None => x
           end in
  let pred := model_forward model x in
  let '(loss, loss_items) :=
    if use_ota hyp then ComputeLossOTA model pred label x
    else ComputeLoss model pred label in
  (tensor_mul loss rank_size, loss_items).

(** What [train_step] returns. *)
Record StepResult : Type := {
  res_loss : Tensor;
  res_loss_items : Tensor;
  res_grads : list Tensor;
  res_grads_finite : bool
}.

(** The scaler object the closure holds: the caller's, or, when the caller
    passed [None], a [StaticLossScaler(sens)] of its own. *)
Definition closure_scaler (loss_scaler : option LossScaler) (sens : Q) : LossScaler :=
  match loss_scaler with
  | Some ls => ls
  | None => StaticLossScaler sens
  end.

(** The gradients [train_step] works with: differentiate, reduce, unscale. *)
Definition step_grads (hyp : gmap string Q) (rank_size : Z)
    (grad_reducer : list Tensor -> list Tensor) (sens : Q)
    (loss_scaler : option LossScaler)
    (model : Cell) (x label : Tensor) (sizes : option (list Z)) : list Tensor :=
  let '(loss, loss_items) := forward_func hyp rank_size model x label sizes in
  let sens1 := ops_fill loss sens in
  let sens2 := ops_fill loss_items sens in
  let grads := GradOperation (fun m => forward_func hyp rank_size m x label sizes)
                             model (sens1, sens2) in
  let grads := grad_reducer grads in
  unscale (closure_scaler loss_scaler sens) grads.

(** [train_step], the closure returned by
    [create_train_static_shape_fn_gradoperation].  The scaler, the optimizer
    and the network are objects shared with [train], which mutates them
    between calls, so their current state is an argument of the closure
    rather than of its builder. *)
Definition FnStep : Type :=
  option LossScaler -> Optimizer -> Cell ->
  Tensor -> Tensor -> option (list Z) -> bool ->
  M World (StepResult * Cell).

Definition create_train_static_shape_fn_gradoperation (hyp : gmap string Q)
    (grad_reducer : list Tensor -> list Tensor)
    (rank_size : Z) (overflow_still_update : bool) (sens : Q) : FnStep :=
  fun loss_scaler optimizer model x label sizes optimizer_update =>
    let '(loss, loss_items) := forward_func hyp rank_size model x label sizes in
    let grads := step_grads hyp rank_size grad_reducer sens loss_scaler
                            model x label sizes in
    let grads_finite := all_finite grads in
    model' <- (if optimizer_update then
                 if grads_finite then call_optimizer optimizer model grads
                 else if overflow_still_update then
                        model' <- call_optimizer optimizer model grads ;;
                        print MsgOverflowStillUpdate ;;;
                        ret model'
                      else
                        print MsgOverflowDropStep ;;;
                        ret model
               else ret model) ;;
    ret ({| res_loss := loss; res_loss_items := loss_items;
            res_grads := grads; res_grads_finite := grads_finite |}, model').

(** *** The state of the training loop *)

(** The objects and local variables of [train] that the loop mutates. *)
Record Loop : Type := {
  model : Cell;
  optimizer : Optimizer;
  ema : option (EMA Cell Tensor);
  loss_scaler : option LossScaler;
  accumulate : Z;
  accumulate_grads : option (list Tensor);
  accumulate_cur_step : Z
}.

(** [if ema: ema.update()] *)
Definition ema_update (ema : option (EMA Cell Tensor)) (model : Cell)
    : M World (option (EMA Cell Tensor)) :=
  match ema with
  | Some e => emit EmaUpdate ;;; ret (Some (EMA_update e model))
  | None => ret None
  end.

(** [loss_scaler.adjust(grads_finite)] *)
Definition call_adjust (ls : LossScaler) (grads_finite : bool) : M World LossScaler :=
  emit (ScalerAdjust grads_finite) ;;; ret (adjust ls grads_finite).

(** [opt.optimizer in ("sgd", "momentum")] *)
Definition sgd_or_momentum (opt : Opt) : bool :=
  String.eqb (opt_optimizer opt) "sgd" || String.eqb (opt_optimizer opt) "momentum".

(** [nbs / total_batch_size]; the batch size is positive. *)
Definition nbs_ratio (opt : Opt) : Q :=
  (inject_Z nbs / inject_Z (opt_total_batch_size opt))%Q.

(** [max(1, np.interp(i, xi, [1, nbs / total_batch_size]).round())] *)
Definition warmup_accumulate (opt : Opt) (ext : Externals) (i : Z) : Z :=
  Z.max 1 (round_half_even
             (np_interp (inject_Z i) 0 (inject_Z (ext_warmup_steps ext))
                        1 (nbs_ratio opt))).

(** The warm-up block at the head of the loop body. *)
Definition warmup (opt : Opt) (ext : Externals) (i : Z) (s : Loop) : M World Loop :=
  if i <? ext_warmup_steps ext then
    let acc := warmup_accumulate opt ext i in
    optm <- (if sgd_or_momentum opt then
               match nth_error (ext_momentum_pg ext) (Z.to_nat i) with
               | Some m => ret {| optim_kind := optim_kind (optimizer s);
                                  optim_loss_scale := optim_loss_scale (optimizer s);
                                  optim_momentum := Some m |}
               | None => raise IndexError
               end
             else ret (optimizer s)) ;;
    ret {| model := model s; optimizer := optm; ema := ema s;
           loss_scaler := loss_scaler s; accumulate := acc;
           accumulate_grads := accumulate_grads s;
           accumulate_cur_step := accumulate_cur_step s |}
  else ret s.

(** The multi-scale block: the new shape [ns], or [None]. *)
Definition multi_scale (opt : Opt) (ext : Externals) (imgs : Tensor)
    : M World (option (list Z)) :=
  if opt_multi_scale opt then
    let imgsz := inject_Z (ext_imgsz ext) in
    let gs := ext_gs ext in
    r <- py_randrange (imgsz * (1 # 2))%Q (imgsz * (3 # 2) + inject_Z gs)%Q ;;
    let sz := r / gs * gs in
    let sf := (inject_Z sz / inject_Z (list_max_Z (shape_hw imgs)))%Q in
    if negb (Qeq_bool sf 1) then
      ret (Some (map (fun x => Qceiling (inject_Z x * sf / inject_Z gs) * gs)
                     (shape_hw imgs)))
    else ret None
  else ret None.

(** The branch for [opt.ms_strategy == "StaticCell"]. *)
Definition static_cell_branch (cell : CellStep) (cur_epoch cur_step : Z)
    (imgs labels : Tensor) (ns : option (list Z)) (s : Loop)
    : M World (Loop * (Tensor * option Tensor)) :=
  assert (accumulate s =? 1) "Grad Accumulate must be 1 when train with StaticCell." ;;;
  emit (TrainStepCall ns) ;;;
  let '((loss, overflow, loss_scale), model') :=
    cell (optimizer s) (model s) imgs labels ns in
  ema' <- (if overflow
           then print (MsgCellOverflowDrop cur_epoch cur_step loss_scale) ;;;
                ret (ema s)
           else ema_update (ema s) model') ;;
  ret ({| model := model'; optimizer := optimizer s; ema := ema';
          loss_scaler := loss_scaler s; accumulate := accumulate s;
          accumulate_grads := accumulate_grads s;
          accumulate_cur_step := accumulate_cur_step s |}, (loss, None)).

(** The branch for [accumulate == 1] ("Train with OOP"). *)
Definition immediate_branch (train_step : FnStep)
    (imgs labels : Tensor) (ns : option (list Z)) (s : Loop)
    : M World (Loop * (Tensor * option Tensor)) :=
  emit (TrainStepCall ns) ;;;
  r <- train_step (loss_scaler s) (optimizer s) (model s) imgs labels ns true ;;
  let '(res, model') := r in
  ema' <- ema_update (ema s) model' ;;
  ls' <- match loss_scaler s with
         | Some ls =>
             ls' <- call_adjust ls (res_grads_finite res) ;;
             (if negb (res_grads_finite res)
              then print (MsgOverflowAdjust (scale_value_of ls'))
              else ret tt) ;;;
             ret (Some ls')
         | None => ret None
         end ;;
  ret ({| model := model'; optimizer := optimizer s; ema := ema';
          loss_scaler := ls'; accumulate := accumulate s;
          accumulate_grads := accumulate_grads s;
          accumulate_cur_step := accumulate_cur_step s |},
       (res_loss res, Some (res_loss_items res))).

(** [accumulate_grads[gi] += grads[gi]] for every [gi], or [list(grads)]
    when the buffer is [None] or empty. *)
Definition add_grads (accumulate_grads : option (list Tensor)) (grads : list Tensor)
    : M World (list Tensor) :=
  match accumulate_grads with
  | Some (a :: acc) =>
      assert (length (a :: acc) =? length grads)%nat "" ;;;
      ret (zip_with tensor_add (a :: acc) grads)
  | _ => ret grads
  end.

(** The branch for [accumulate != 1]. *)
Definition accumulate_branch (train_step : FnStep) (cur_epoch cur_step : Z)
    (imgs labels : Tensor) (ns : option (list Z)) (s : Loop)
    : M World (Loop * (Tensor * option Tensor)) :=
  emit (TrainStepCall ns) ;;;
  r <- train_step (loss_scaler s) (optimizer s) (model s) imgs labels ns false ;;
  let '(res, model') := r in
  ls' <- match loss_scaler s with
         | Some ls => ls' <- call_adjust ls (res_grads_finite res) ;; ret (Some ls')
         | None => ret None
         end ;;
  s' <- (if res_grads_finite res then
           let cur := accumulate_cur_step s + 1 in
           acc <- add_grads (accumulate_grads s) (res_grads res) ;;
           if cur mod accumulate s =? 0 then
             model'' <- call_optimizer (optimizer s) model' acc ;;
             ema' <- ema_update (ema s) model'' ;;
             print (MsgAccumulateSuccess cur_epoch cur_step) ;;;
             ret {| model := model''; optimizer := optimizer s; ema := ema';
                    loss_scaler := ls'; accumulate := accumulate s;
                    accumulate_grads := None; accumulate_cur_step := 0 |}
           else
             ret {| model := model'; optimizer := optimizer s; ema := ema s;
                    loss_scaler := ls'; accumulate := accumulate s;
                    accumulate_grads := Some acc; accumulate_cur_step := cur |}
         else
           match ls' with
           | Some ls =>
               print (MsgOverflowDropScale cur_epoch cur_step (scale_value_of ls))
           | None => print (MsgOverflowDrop cur_epoch cur_step)
           end ;;;
           ret {| model := model'; optimizer := optimizer s; ema := ema s;
                  loss_scaler := ls'; accumulate := accumulate s;
                  accumulate_grads := accumulate_grads s;
                  accumulate_cur_step := accumulate_cur_step s |}) ;;
  ret (s', (res_loss res, Some (res_loss_items res))).

(** The checkpoint block at an epoch boundary. *)
Definition save_checkpoints (opt : Opt) (ext : Externals) (i cur_epoch : Z) (s : Loop)
    : M World unit :=
  if (opt_rank opt mod 8 =? 0) && ((i + 1) mod ext_per_epoch_size ext =? 0) then
    emit (SaveCheckpoint cur_epoch) ;;;
    match ema s with
    | Some e => emit (SaveEmaCheckpoint cur_epoch (updates e))
    | None => ret tt
    end
  else ret tt.

(** The rest of the loop body, after the step: the two log lines, the
    epoch line and the checkpoints. *)
Definition log_step (opt : Opt) (ext : Externals) (i : Z) (imgs : Tensor)
    (ns : option (list Z)) (r : Loop * (Tensor * option Tensor)) : M World Loop :=
  let cur_epoch := i / ext_per_epoch_size ext + 1 in
  let cur_step := i mod ext_per_epoch_size ext + 1 in
  let '(s', (loss, loss_item)) := r in
  let p_train_size := match ns with
                      | Some (n :: l) => n :: l
                      | _ => shape_hw imgs
                      end in
  print (MsgFpBp cur_epoch cur_step p_train_size) ;;;
  match loss_item with
  | None => print (MsgStepLoss cur_epoch cur_step p_train_size loss)
  | Some li => print (MsgStepLossItems cur_epoch cur_step p_train_size loss li)
  end ;;;
  (if (i + 1) mod ext_per_epoch_size ext =? 0
   then print (MsgEpochTime cur_epoch) else ret tt) ;;;
  save_checkpoints opt ext i cur_epoch s' ;;;
  ret s'.

(** [ms.float32 if opt.ms_amp_level == "O0" else ms.float16] *)
Definition input_dtype (opt : Opt) : string :=
  if String.eqb (opt_ms_amp_level opt) "O0" then "float32" else "float16".

(** One iteration of [for i, data in enumerate(data_loader)].  [train_step]
    is the cell exactly when [opt.ms_strategy == "StaticCell"]. *)
Definition loop_body (opt : Opt) (ext : Externals) (train_step : CellStep + FnStep)
    (i : Z) (data : Tensor * Tensor) (s : Loop) : M World Loop :=
  s <- warmup opt ext i s ;;
  let cur_epoch := i / ext_per_epoch_size ext + 1 in
  let cur_step := i mod ext_per_epoch_size ext + 1 in
  let imgs := as_dtype (input_dtype opt) (fst data) in
  let labels := as_dtype (input_dtype opt) (snd data) in
  ns <- multi_scale opt ext imgs ;;
  r <- match train_step with
       | inl cell => static_cell_branch cell cur_epoch cur_step imgs labels ns s
       | inr fn =>
           if accumulate s =? 1
           then immediate_branch fn imgs labels ns s
           else accumulate_branch fn cur_epoch cur_step imgs labels ns s
       end ;;
  log_step opt ext i imgs ns r.

(** [for i, data in enumerate(data_loader)], from index [i]. *)
Fixpoint train_loop (opt : Opt) (ext : Externals) (train_step : CellStep + FnStep)
    (i : Z) (data_loader : list (Tensor * Tensor)) (s : Loop) : M World Loop :=
  match data_loader with
  | [] => ret s
  | data :: rest =>
      s' <- loop_body opt ext train_step i data s ;;
      train_loop opt ext train_step (i + 1) rest s'
  end.

(** *** Set-up *)

(** The block that loads the pretrained weights and the EMA checkpoint. *)
Definition load_pretrained (opt : Opt) (model : Cell) (ema : option (EMA Cell Tensor))
    : M World (Cell * option (EMA Cell Tensor)) :=
  let pretrained := endswith (opt_weights opt) ".ckpt" in
  if pretrained then
    let param_dict := load_checkpoint (opt_weights opt) in
    let model := load_param_into_net model param_dict in
    print (MsgPretrainLoad (opt_weights opt)) ;;;
    match ema with
    | Some e =>
        if endswith (opt_ema_weight opt) ".ckpt" then
          let param_dict_ema := load_checkpoint (opt_ema_weight opt) in
          let e := {| ema_model := load_param_into_net (ema_model e) param_dict_ema;
                      updates := updates e |} in
          e <- match param_dict_ema !! "updates"%string with
               | Some u => ret {| ema_model := ema_model e; updates := u |}
               | None => print (MsgUpdatesMiss (opt_ema_weight opt)) ;;; ret e
               end ;;
          print (MsgEmaPretrainLoad (opt_ema_weight opt)) ;;;
          ret (model, Some e)
        else
          print MsgEmaWeightNotExist ;;;
          ret (model, Some (EMA_clone_from_model e model))
    | None => ret (model, None)
    end
  else ret (model, ema).

(** [freeze if len(freeze) > 1 else range(freeze[0])] *)
Definition freeze_list (freeze : list Z) : M World (list Z) :=
  match freeze with
  | [] => raise IndexError
  | [n] => ret (map Z.of_nat (seq 0 (Z.to_nat n)))
  | _ => ret freeze
  end.

(** The optimizer chain [if opt.optimizer == "sgd": ... else: raise]. *)
Definition build_optimizer (opt : Opt) : M World Optimizer :=
  let mk k := {| optim_kind := k; optim_loss_scale := opt_ms_optim_loss_scale opt;
                 optim_momentum := None |} in
  if String.eqb (opt_optimizer opt) "sgd" then ret (mk SGD)
  else if String.eqb (opt_optimizer opt) "momentum" then ret (mk Momentum)
  else if String.eqb (opt_optimizer opt) "adam" then ret (mk Adam)
  else if String.eqb (opt_optimizer opt) "thor" then raise NotImplementedError
  else raise NotImplementedError.

(** The chain that picks the loss scaler. *)
Definition build_loss_scaler (opt : Opt) : M World (option LossScaler) :=
  if String.eqb (opt_ms_loss_scaler opt) "dynamic"
  then ret (Some (DynamicLossScaler (inject_Z (2 ^ 12)) 2 1000 0))
  else if String.eqb (opt_ms_loss_scaler opt) "static"
  then ret (Some (StaticLossScaler (opt_ms_loss_scaler_value opt)))
  else if String.eqb (opt_ms_loss_scaler opt) "none" then ret None
  else raise NotImplementedError.

(** [grad_reducer]: the distributed reducer, or [ops.functional.identity]. *)
Definition make_grad_reducer (pc : ParallelContext) (opt : Opt)
    : list Tensor -> list Tensor :=
  if opt_is_distributed opt
  then DistributedGradReducer (gradients_mean pc) (device_num pc)
  else (fun grads => grads).

(** The [train_step] that [train] builds under the StaticShape strategy. *)
Definition static_shape_step (pc : ParallelContext) (hyp : gmap string Q) (opt : Opt)
    : FnStep :=
  create_train_static_shape_fn_gradoperation hyp (make_grad_reducer pc opt)
    default_rank_size (opt_overflow_still_update opt) (opt_ms_grad_sens opt).

(** "Build train process function": the step function and [train]'s own
    [loss_scaler] (unbound, here [None], under StaticCell).  Neither call
    passes [rank_size], so both builders run with their default. *)
Definition build_train_step (pc : ParallelContext) (hyp : gmap string Q) (opt : Opt)
    : M World ((CellStep + FnStep) * option LossScaler) :=
  if String.eqb (opt_ms_strategy opt) "StaticCell" then
    cell <- create_train_static_shape_cell opt hyp default_rank_size ;;
    ret (inl cell, None)
  else
    loss_scaler <- build_loss_scaler opt ;;
    if String.eqb (opt_ms_strategy opt) "StaticShape" then
      ret (inr (static_shape_step pc hyp opt), loss_scaler)
    else raise NotImplementedError.

(** The part of [train(hyp, opt)] before the loop, after [set_seed()]: the
    step function and the loop's initial state.  [rank_size] is the
    module-level variable set by [__main__]. *)
Definition setup (rank_size : Z) (pc : ParallelContext) (hyp : gmap string Q)
    (opt : Opt) (data_dict : DataDict) (ext : Externals)
    : M World ((CellStep + FnStep) * Loop) :=
  let nc := if opt_single_cls opt then 1 else data_nc data_dict in
  let names := if opt_single_cls opt && negb (length (data_names data_dict) =? 1)%nat
               then ["item"%string] else data_names data_dict in
  assert (Z.of_nat (length names) =? nc) "names found for nc dataset" ;;;
  let sync_bn := opt_sync_bn opt && String.eqb (opt_device_target opt) "Ascend"
                 && (rank_size >? 1) in
  let model := Model (opt_cfg opt) nc sync_bn in
  let ema := if opt_ema opt then Some (EMA_init model) else None in
  r <- load_pretrained opt model ema ;;
  let '(model, ema) := r in
  freeze <- freeze_list (opt_freeze opt) ;;
  let model := freeze_layers freeze model in
  assert (ext_mlc ext <? nc) "Label class exceeds nc" ;;;
  let accumulate := Z.max (round_half_even (nbs_ratio opt)) 1 in
  (if str_contains "yolov7" (opt_cfg opt) then
     if negb (String.eqb (opt_optimizer opt) "thor") then
       if sgd_or_momentum opt
       then assert (Z.of_nat (length (ext_momentum_pg ext)) =? ext_warmup_steps ext) ""
       else ret tt
     else ret tt
   else raise NotImplementedError) ;;;
  print (MsgOptimLossScale (opt_ms_optim_loss_scale opt)) ;;;
  optimizer <- build_optimizer opt ;;
  r <- build_train_step pc hyp opt ;;
  let '(train_step, loss_scaler) := r in
  ret (train_step,
       {| model := model; optimizer := optimizer; ema := ema;
          loss_scaler := loss_scaler; accumulate := accumulate;
          accumulate_grads := None; accumulate_cur_step := 0 |}).

(** [train(hyp, opt)]; [data_loader] is what the iterator yields. *)
Definition train (rank_size : Z) (pc : ParallelContext) (hyp : gmap string Q)
    (opt : Opt) (data_dict : DataDict) (ext : Externals)
    (data_loader : list (Tensor * Tensor)) : M World Z :=
  set_seed default_seed ;;;
  r <- setup rank_size pc hyp opt data_dict ext ;;
  let '(train_step, s0) := r in
  _ <- train_loop opt ext train_step 0 data_loader s0 ;;
  ret 0.

(** [opt] after the "Distribute Train" block of [__main__]. *)
Definition with_distribution (opt : Opt) (batch_size total_batch_size rank_size rank : Z)
    : Opt :=
  {| opt_cfg := opt_cfg opt; opt_weights := opt_weights opt; opt_ema := opt_ema opt;
     opt_ema_weight := opt_ema_weight opt; opt_single_cls := opt_single_cls opt;
     opt_sync_bn := opt_sync_bn opt; opt_freeze := opt_freeze opt;
     opt_optimizer := opt_optimizer opt; opt_ms_strategy := opt_ms_strategy opt;
     opt_ms_amp_level := opt_ms_amp_level opt;
     opt_ms_loss_scaler := opt_ms_loss_scaler opt;
     opt_ms_loss_scaler_value := opt_ms_loss_scaler_value opt;
     opt_ms_grad_sens := opt_ms_grad_sens opt;
     opt_ms_optim_loss_scale := opt_ms_optim_loss_scale opt;
     opt_overflow_still_update := opt_overflow_still_update opt;
     opt_multi_scale := opt_multi_scale opt;
     opt_is_distributed := opt_is_distributed opt;
     opt_device_target := opt_device_target opt; opt_evolve := opt_evolve opt;
     opt_epochs := opt_epochs opt; opt_batch_size := batch_size;
     opt_total_batch_size := total_batch_size; opt_rank_size := rank_size;
     opt_rank := rank |}.

(** The [__main__] block.  [get_rank] and [get_group_size] are what the
    communication layer reports after [init()]. *)
Definition main (get_rank get_group_size : Z) (hyp : gmap string Q) (opt : Opt)
    (data_dict : DataDict) (ext : Externals) (data_loader : list (Tensor * Tensor))
    : M World Z :=
  assert (negb (String.eqb (opt_cfg opt) "") || negb (String.eqb (opt_weights opt) ""))
         "either --cfg or --weights must be specified" ;;;
  (if String.eqb (opt_device_target opt) "Ascend" then ret tt
   else raise NotImplementedError) ;;;
  let '(rank, rank_size) :=
    if opt_is_distributed opt then (get_rank, get_group_size) else (0, 1) in
  let pc := {| gradients_mean := true; device_num := rank_size |} in
  batch_size <- (if rank_size >? 1 then
                   assert (opt_batch_size opt mod rank_size =? 0)
                          "--batch-size must be multiple of device count" ;;;
                   ret (opt_batch_size opt / rank_size)
                 else ret (opt_batch_size opt)) ;;
  let opt := with_distribution opt batch_size (opt_batch_size opt) rank_size rank in
  if negb (opt_evolve opt) then train rank_size pc hyp opt data_dict ext data_loader
  else raise NotImplementedError.

End Train.

(** ** Reading the trace *)

Section Traces.

Context `{F : Framework}.

Definition is_optimizer_call (e : event) : bool :=
  match e with OptimizerCall _ => true | _ => false end.

Definition is_ema_update (e : event) : bool :=
  match e with EmaUpdate => true | _ => false end.

Definition is_scaler_adjust (e : event) : bool :=
  match e with ScalerAdjust _ => true | _ => false end.

Definition is_train_step_call (e : event) : bool :=
  match e with TrainStepCall _ => true | _ => false end.

(** The printed lines that show a loss-scale value. *)
Definition logs_loss_scale (e : event) : bool :=
  match e with
  | Stdout (MsgCellOverflowDrop _ _ _) => true
  | Stdout (MsgOverflowAdjust _) => true
  | Stdout (MsgOverflowDropScale _ _ _) => true
  | _ => false
  end.

Fixpoint count_events (p : event -> bool) (t : list event) : nat :=
  match t with
  | [] => 0
  | e :: t' => (if p e then 1 else 0) + count_events p t'
  end.

(** The image sizes of the successive calls of the step function. *)
Fixpoint sizes_of (t : list event) : list (option (list Z)) :=
  match t with
  | [] => []
  | TrainStepCall ns :: t' => ns :: sizes_of t'
  | _ :: t' => sizes_of t'
  end.

(** Every optimizer call of [t] is directly followed by an EMA update. *)
Fixpoint optimizer_then_ema (t : list event) : bool :=
  match t with
  | [] => true
  | OptimizerCall _ :: t' =>
      match t' with
      | EmaUpdate :: _ => optimizer_then_ema t'
      | _ => false
      end
  | _ :: t' => optimizer_then_ema t'
  end.

Definition final_world {A} (o : outcome World A) : World :=
  match o with
  | Return _ w => w
  | Raise _ w => w
  end.

Definition raised {A} (o : outcome World A) : bool :=
  match o with
  | Return _ _ => false
  | Raise _ _ => true
  end.

(** The world after further events. *)
Definition add_events (w : World) (t : list event) : World :=
  {| trace := trace w ++ t; np_rng := np_rng w; py_rng := py_rng w; ms_rng := ms_rng w |}.

(** The lines and checkpoint writes that close an iteration. *)
Definition is_bookkeeping (e : event) : bool :=
  match e with
  | Stdout (MsgFpBp _ _ _) => true
  | Stdout (MsgStepLoss _ _ _ _) => true
  | Stdout (MsgStepLossItems _ _ _ _ _) => true
  | Stdout (MsgEpochTime _) => true
  | SaveCheckpoint _ => true
  | SaveEmaCheckpoint _ _ => true
  | _ => false
  end.

(** A computation that never calls the step function. *)
Definition quiet {A} (m : M World A) : Prop :=
  forall w, exists evs,
    trace (final_world (m w)) = trace w ++ evs /\
    count_events is_train_step_call evs = 0%nat.

(** A computation that always ends in an exception. *)
Definition fails {A} (m : M World A) : Prop :=
  forall w, raised (m w) = true.

(** The world, with other generator states. *)
Definition with_rngs (w : World) (g_np : NpRng) (g_py : PyRng) (g_ms : MsRng) : World :=
  {| trace := trace w; np_rng := g_np; py_rng := g_py; ms_rng := g_ms |}.

(** [n] further calls of [adjust] with the same flag. *)
Fixpoint adjust_n (n : nat) (flag : bool) (ls : LossScaler) : LossScaler :=
  match n with
  | O => ls
  | S n' => adjust_n n' flag (adjust ls flag)
  end.

(** The gradients [train_step] computes for a batch of the loader. *)
Definition batch_grads (pc : ParallelContext) (hyp : gmap string Q) (opt : Opt)
    (ls : option LossScaler) (m : Cell) (data : Tensor * Tensor)
    (ns : option (list Z)) : list Tensor :=
  step_grads hyp default_rank_size (make_grad_reducer pc opt) (opt_ms_grad_sens opt)
             ls m (as_dtype (input_dtype opt) (fst data))
             (as_dtype (input_dtype opt) (snd data)) ns.

(** What [train_step] hands back on a batch. *)
Definition step_result (pc : ParallelContext) (hyp : gmap string Q) (opt : Opt)
    (ls : option LossScaler) (m : Cell) (x label : Tensor) (ns : option (list Z))
    : StepResult :=
  let grads := step_grads hyp default_rank_size (make_grad_reducer pc opt)
                          (opt_ms_grad_sens opt) ls m x label ns in
  {| res_loss := fst (forward_func hyp default_rank_size m x label ns);
     res_loss_items := snd (forward_func hyp default_rank_size m x label ns);
     res_grads := grads;
     res_grads_finite := all_finite grads |}.

(** The events of the sub-steps of an iteration. *)
Definition adjust_events (ls : option LossScaler) (grads_finite : bool) : list event :=
  match ls with
  | Some _ => [ScalerAdjust grads_finite]
  | None => []
  end.

Definition ema_events (ema : option (EMA Cell Tensor)) : list event :=
  match ema with
  | Some _ => [EmaUpdate]
  | None => []
  end.

Definition update_events (still_update : bool) (grads : list Tensor) : list event :=
  if all_finite grads then [OptimizerCall grads]
  else if still_update then [OptimizerCall grads; Stdout MsgOverflowStillUpdate]
  else [Stdout MsgOverflowDropStep].

Definition overflow_adjust_events (ls : option LossScaler) (grads_finite : bool)
    : list event :=
  match ls with
  | Some l => if grads_finite then [] else [Stdout (MsgOverflowAdjust (scale_value_of l))]
  | None => []
  end.

Definition drop_event (ls : option LossScaler) (cur_epoch cur_step : Z) : event :=
  match ls with
  | Some l => Stdout (MsgOverflowDropScale cur_epoch cur_step (scale_value_of l))
  | None => Stdout (MsgOverflowDrop cur_epoch cur_step)
  end.

(** The loop state with some of its variables replaced. *)
Definition with_step (s : Loop) (m : Cell) (e : option (EMA Cell Tensor))
    (ls : option LossScaler) (acc : option (list Tensor)) (cur : Z) : Loop :=
  {| model := m; optimizer := optimizer s; ema := e; loss_scaler := ls;
     accumulate := accumulate s; accumulate_grads := acc; accumulate_cur_step := cur |}.

(** The gradient buffer holds [n] tensors, if it holds any. *)
Definition buffer_ok (n : nat) (acc : option (list Tensor)) : Prop :=
  match acc with
  | Some l => length l = n
  | None => True
  end.

(** The number of batches of a loader that a predicate marks. *)
Fixpoint count_batches (fin : Tensor * Tensor -> bool) (l : list (Tensor * Tensor)) : Z :=
  match l with
  | [] => 0
  | d :: l' => (if fin d then 1 else 0) + count_batches fin l'
  end.

(** *** Further readings of the trace and of the loop state *)

(** The writes of a model checkpoint, and of an EMA checkpoint. *)
Definition is_save_checkpoint (e : event) : bool :=
  match e with SaveCheckpoint _ => true | _ => false end.

Definition is_save_ema_checkpoint (e : event) : bool :=
  match e with SaveEmaCheckpoint _ _ => true | _ => false end.

(** What an iteration does between its call of the step function and the
    lines that close it: calls of the optimizer, of [ema.update] and of
    [loss_scaler.adjust], and the lines about overflow and accumulation. *)
Definition is_step_event (e : event) : bool :=
  match e with
  | OptimizerCall _ => true
  | EmaUpdate => true
  | ScalerAdjust _ => true
  | Stdout (MsgCellOverflowDrop _ _ _) => true
  | Stdout (MsgOverflowAdjust _) => true
  | Stdout (MsgAccumulateSuccess _ _) => true
  | Stdout (MsgOverflowDropScale _ _ _) => true
  | Stdout (MsgOverflowDrop _ _) => true
  | Stdout MsgOverflowStillUpdate => true
  | Stdout MsgOverflowDropStep => true
  | _ => false
  end.

(** The checkpoint files written after iteration [i]. *)
Definition save_events (opt : Opt) (ext : Externals) (i : Z) (s : Loop) : list event :=
  if (opt_rank opt mod 8 =? 0) && ((i + 1) mod ext_per_epoch_size ext =? 0) then
    SaveCheckpoint (i / ext_per_epoch_size ext + 1) ::
    match ema s with
    | Some e => [SaveEmaCheckpoint (i / ext_per_epoch_size ext + 1) (updates e)]
    | None => []
    end
  else [].

(** The events that close iteration [i]: the two log lines, the epoch line
    and the checkpoints. *)
Definition log_events (opt : Opt) (ext : Externals) (i : Z) (imgs : Tensor)
    (ns : option (list Z)) (s : Loop) (x : Tensor * option Tensor) : list event :=
  let cur_epoch := i / ext_per_epoch_size ext + 1 in
  let cur_step := i mod ext_per_epoch_size ext + 1 in
  let size := match ns with
              | Some (n :: l) => n :: l
              | _ => shape_hw imgs
              end in
  Stdout (MsgFpBp cur_epoch cur_step size) ::
  Stdout (match snd x with
          | None => MsgStepLoss cur_epoch cur_step size (fst x)
          | Some li => MsgStepLossItems cur_epoch cur_step size (fst x) li
          end) ::
  (if (i + 1) mod ext_per_epoch_size ext =? 0 then [Stdout (MsgEpochTime cur_epoch)]
   else []) ++
  save_events opt ext i s.

(** The step functions that [train] builds: the framework's cell, or the
    closure of [create_train_static_shape_fn_gradoperation]. *)
Definition driver_step (pc : ParallelContext) (hyp : gmap string Q) (opt : Opt)
    (train_step : CellStep + FnStep) : Prop :=
  match train_step with
  | inl _ => True
  | inr fn => fn = static_shape_step pc hyp opt
  end.

(** The overflow flag that the cell returns. *)
Definition overflow_of (r : (Tensor * bool * Tensor) * Cell) : bool :=
  snd (fst (fst r)).

(** The number of indices [j] with [i <= j < i + n] that end an epoch. *)
Fixpoint epoch_ends (per_epoch_size i : Z) (n : nat) : Z :=
  match n with
  | O => 0
  | S n' => (if (i + 1) mod per_epoch_size =? 0 then 1 else 0) +
            epoch_ends per_epoch_size (i + 1) n'
  end.

(** The sizes handed to the step function for a batch: none, or, with
    multi-scale training, one multiple of the grid size per image side. *)
Definition grid_sizes (opt : Opt) (ext : Externals) (data : Tensor * Tensor)
    (ns : option (list Z)) : Prop :=
  match ns with
  | None => True
  | Some l =>
      opt_multi_scale opt = true /\
      length l = length (shape_hw (as_dtype (input_dtype opt) (fst data))) /\
      Forall (Z.divide (ext_gs ext)) l
  end.

(** The Python generator after the draw of one iteration's multi-scale
    block. *)
Definition next_py_rng (ext : Externals) (g : PyRng) : PyRng :=
  snd (randrange g (inject_Z (ext_imgsz ext) * (1 # 2))%Q
                 (inject_Z (ext_imgsz ext) * (3 # 2) + inject_Z (ext_gs ext))%Q).

(** The accumulation window is well formed under target [A]: the counter
    is below the target, and the gradient buffer is empty exactly when the
    counter is zero. *)
Definition window_ok (A : Z) (s : Loop) : Prop :=
  0 <= accumulate_cur_step s < A /\
  (accumulate_cur_step s = 0 <-> accumulate_grads s = None).

(** A computation whose only effect is to print lines. *)
Definition prints_only {A} (m : M World A) : Prop :=
  forall w, exists msgs, final_world (m w) = add_events w (map Stdout msgs).

(** The number of classes and the class names that [train] works with. *)
Definition number_of_classes (opt : Opt) (data_dict : DataDict) : Z :=
  if opt_single_cls opt then 1 else data_nc data_dict.

Definition class_names (opt : Opt) (data_dict : DataDict) : list string :=
  if opt_single_cls opt && negb (length (data_names data_dict) =? 1)%nat
  then ["item"%string] else data_names data_dict.

(** What the loop needs of its inputs to run as [loop_body] says: a
    non-negative start index, a positive epoch size, one momentum per
    warm-up step for sgd and momentum (as set-up asserts), and, under
    multi-scale training, a grid size and image sides that are not zero. *)
Definition loop_defined (opt : Opt) (ext : Externals) (i : Z)
    (data_loader : list (Tensor * Tensor)) : Prop :=
  0 <= i /\
  0 < ext_per_epoch_size ext /\
  (sgd_or_momentum opt = true ->
   Z.of_nat (length (ext_momentum_pg ext)) = ext_warmup_steps ext) /\
  (opt_multi_scale opt = true ->
   ext_gs ext <> 0 /\
   Forall (fun d => list_max_Z (shape_hw (as_dtype (input_dtype opt) (fst d))) <> 0)
          data_loader).

(** The checks that set-up makes on the configuration. *)
Definition configuration_ok (opt : Opt) (data_dict : DataDict) (ext : Externals) : Prop :=
  Z.of_nat (length (class_names opt data_dict)) = number_of_classes opt data_dict /\
  opt_freeze opt <> [] /\
  ext_mlc ext < number_of_classes opt data_dict /\
  str_contains "yolov7" (opt_cfg opt) = true /\
  (opt_optimizer opt = "sgd"%string \/ opt_optimizer opt = "momentum"%string \/
   opt_optimizer opt = "adam"%string) /\
  (opt_optimizer opt = "sgd"%string \/ opt_optimizer opt = "momentum"%string ->
   Z.of_nat (length (ext_momentum_pg ext)) = ext_warmup_steps ext) /\
  (opt_ms_strategy opt = "StaticCell"%string /\
   Qeq_bool (opt_ms_grad_sens opt) (opt_ms_loss_scaler_value opt) = true
   \/
   opt_ms_strategy opt = "StaticShape"%string /\
   (opt_ms_loss_scaler opt = "dynamic"%string \/
    opt_ms_loss_scaler opt = "static"%string \/
    opt_ms_loss_scaler opt = "none"%string)).

(** [opt] with another [ema_weight]. *)
Definition set_ema_weight (opt : Opt) (ema_weight : string) : Opt :=
  {| opt_cfg := opt_cfg opt; opt_weights := opt_weights opt; opt_ema := opt_ema opt;
     opt_ema_weight := ema_weight; opt_single_cls := opt_single_cls opt;
     opt_sync_bn := opt_sync_bn opt; opt_freeze := opt_freeze opt;
     opt_optimizer := opt_optimizer opt; opt_ms_strategy := opt_ms_strategy opt;
     opt_ms_amp_level := opt_ms_amp_level opt;
     opt_ms_loss_scaler := opt_ms_loss_scaler opt;
     opt_ms_loss_scaler_value := opt_ms_loss_scaler_value opt;
     opt_ms_grad_sens := opt_ms_grad_sens opt;
     opt_ms_optim_loss_scale := opt_ms_optim_loss_scale opt;
     opt_overflow_still_update := opt_overflow_still_update opt;
     opt_multi_scale := opt_multi_scale opt;
     opt_is_distributed := opt_is_distributed opt;
     opt_device_target := opt_device_target opt; opt_evolve := opt_evolve opt;
     opt_epochs := opt_epochs opt; opt_batch_size := opt_batch_size opt;
     opt_total_batch_size := opt_total_batch_size opt;
     opt_rank_size := opt_rank_size opt; opt_rank := opt_rank opt |}.

(** The rank and the number of devices that [__main__] works with. *)
Definition main_rank (get_rank : Z) (opt : Opt) : Z :=
  if opt_is_distributed opt then get_rank else 0.

Definition main_rank_size (get_group_size : Z) (opt : Opt) : Z :=
  if opt_is_distributed opt then get_group_size else 1.

(** The checks of [__main__] before it calls [train]. *)
Definition main_ok (get_group_size : Z) (opt : Opt) : Prop :=
  (opt_cfg opt <> ""%string \/ opt_weights opt <> ""%string) /\
  opt_device_target opt = "Ascend"%string /\
  (1 < main_rank_size get_group_size opt ->
   opt_batch_size opt mod main_rank_size get_group_size opt = 0) /\
  opt_evolve opt = false.

(** The momentum that the warm-up block gives the optimizer in iteration
    [i], when it gives one. *)
Definition warmup_momentum (opt : Opt) (ext : Externals) (i : Z) (o : Optimizer)
    : option Q :=
  if (i <? ext_warmup_steps ext) && sgd_or_momentum opt
  then nth_error (ext_momentum_pg ext) (Z.to_nat i)
  else optim_momentum o.

(** An event that is not a call of the optimizer on gradients that are not
    all finite. *)
Definition finite_update (e : event) : bool :=
  match e with
  | OptimizerCall grads => all_finite grads
  | _ => true
  end.

(** The epoch numbers of the model checkpoints, and of the EMA checkpoints,
    that a trace records, in order. *)
Fixpoint saved_epochs (t : list event) : list Z :=
  match t with
  | [] => []
  | SaveCheckpoint cur_epoch :: t' => cur_epoch :: saved_epochs t'
  | _ :: t' => saved_epochs t'
  end.

Fixpoint saved_ema_epochs (t : list event) : list Z :=
  match t with
  | [] => []
  | SaveEmaCheckpoint cur_epoch _ :: t' => cur_epoch :: saved_ema_epochs t'
  | _ :: t' => saved_ema_epochs t'
  end.

End Traces.

(** ** A one-parameter instance of the framework

    A tensor is one rational, or [None] for a non-finite value; the network
    has a single weight; the loss of a batch is its (normalised) image
    value and its gradient is the loss times the seed. *)

Definition toy_lift2 (f : Q -> Q -> Q) (a b : option Q) : option Q :=
  match a, b with
  | Some x, Some y => Some (f x y)
  | _, _ => None
  end.

Definition toy_div (t : option Q) (c : Q) : option Q :=
  option_map (fun q => (q / c)%Q) t.

Definition toy_is_finite (t : option Q) : bool :=
  match t with Some _ => true | None => false end.

Definition toy_optimizer_apply (o : Optimizer) (m : Q) (grads : list (option Q)) : Q :=
  match grads with
  | [Some g] => (m - g)%Q
  | _ => m
  end.

Definition toy_cell (network : Q -> option Q -> option Q -> option (list Z) -> option Q)
    (scale : Q) (o : Optimizer) (m : Q) (x label : option Q) (sizes : option (list Z))
    : (option Q * bool * option Q) * Q :=
  let loss := network m x label sizes in
  ((loss, negb (toy_is_finite loss), Some scale),
   if toy_is_finite loss then toy_optimizer_apply o m [loss] else m).

Definition toy_checkpoint (name : string) : gmap string (option Q) :=
  if String.eqb name "ema.ckpt" then {[ "w"%string := Some 5%Q ]}
  else if String.eqb name "ema_full.ckpt"
  then {[ "w"%string := Some 5%Q; "updates"%string := Some 7%Q ]}
  else {[ "w"%string := Some 3%Q ]}.

Definition toy_load_param_into_net (m : Q) (d : gmap string (option Q)) : Q :=
  match d !! "w"%string with
  | Some (Some q) => q
  | _ => m
  end.

Definition toy_randrange (g : Z) (a b : Q) : Z * Z :=
  let g' := (g * 7 + 3) mod 1000 in
  (Qfloor a + g' mod (Qceiling b - Qfloor a), g').

#[local] Instance toy : Framework := {|
  Tensor := option Q;
  Cell := Q;
  PyRng := Z;
  NpRng := Z;
  MsRng := Z;
  tensor_div := toy_div;
  tensor_mul := fun t n => option_map (fun q => (q * inject_Z n)%Q) t;
  tensor_add := toy_lift2 Qplus;
  ops_fill := fun _ v => Some v;
  ops_interpolate := fun x _ => x;
  shape_hw := fun _ => [640; 640];
  as_dtype := fun _ t => t;
  Model := fun _ _ _ => 0%Q;
  model_forward := fun _ x => x;
  freeze_layers := fun _ m => m;
  ComputeLossOTA := fun _ pred label _ => (pred, label);
  ComputeLoss := fun _ pred label => (pred, label);
  GradOperation := fun f m sens => [toy_lift2 Qmult (fst (f m)) (fst sens)];
  optimizer_apply := toy_optimizer_apply;
  DistributedGradReducer := fun _ _ grads => grads;
  all_finite := forallb toy_is_finite;
  TrainOneStepWithLossScaleCell := toy_cell;
  load_checkpoint := toy_checkpoint;
  load_param_into_net := toy_load_param_into_net;
  EMA_init := fun m => {| ema_model := m; updates := Some 0%Q |};
  EMA_update := fun e m =>
    {| ema_model := ((ema_model e + m) / 2)%Q;
       updates := option_map (fun u => (u + 1)%Q) (updates e) |};
  EMA_clone_from_model := fun _ m => {| ema_model := m; updates := Some 0%Q |};
  np_random_seed := fun s => s;
  random_seed := fun s => s;
  ms_set_seed := fun s => s;
  randrange := toy_randrange
|}.

(** A batch whose gradients are finite, and one whose gradients are not. *)
Definition good_batch : @Tensor toy * @Tensor toy := (Some 255%Q, Some 0%Q).
Definition bad_batch : @Tensor toy * @Tensor toy := (None, Some 0%Q).

(** A command line: YOLOv7 with SGD on one Ascend device, the fields that
    matter below left open. *)
Definition toy_opt (strategy scaler optimizer weights ema_weight : string)
    (use_ema still_update multi : bool) (total_batch_size : Z) : Opt :=
  {| opt_cfg := "cfg/yolov7.yaml"; opt_weights := weights; opt_ema := use_ema;
     opt_ema_weight := ema_weight; opt_single_cls := false; opt_sync_bn := false;
     opt_freeze := [0]; opt_optimizer := optimizer; opt_ms_strategy := strategy;
     opt_ms_amp_level := "O0"; opt_ms_loss_scaler := scaler;
     opt_ms_loss_scaler_value := 1; opt_ms_grad_sens := 1;
     opt_ms_optim_loss_scale := 1; opt_overflow_still_update := still_update;
     opt_multi_scale := multi; opt_is_distributed := false;
     opt_device_target := "Ascend"; opt_evolve := false; opt_epochs := 1;
     opt_batch_size := total_batch_size; opt_total_batch_size := total_batch_size;
     opt_rank_size := 1; opt_rank := 0 |}.

Definition toy_data_dict : DataDict := {| data_nc := 1; data_names := ["item"%string] |}.

(** Set-up results without warm-up, and with three warm-up steps. *)
Definition toy_ext : Externals :=
  {| ext_gs := 32; ext_imgsz := 640; ext_per_epoch_size := 4; ext_mlc := 0;
     ext_momentum_pg := []; ext_warmup_steps := 0 |}.

Definition toy_ext_warmup : Externals :=
  {| ext_gs := 32; ext_imgsz := 640; ext_per_epoch_size := 4; ext_mlc := 0;
     ext_momentum_pg := [(8 # 10)%Q; (85 # 100)%Q; (9 # 10)%Q]; ext_warmup_steps := 3 |}.

Definition toy_pc : ParallelContext := {| gradients_mean := true; device_num := 1 |}.

Definition toy_world : @World toy :=
  {| trace := []; np_rng := 0; py_rng := 0; ms_rng := 0 |}.

(** A loop state of the one-parameter framework: SGD, a zero weight, an
    empty accumulation window. *)
Definition toy_loop (k : Z) (ls : option LossScaler) (use_ema : bool) : @Loop toy :=
  {| model := 0%Q;
     optimizer := {| optim_kind := SGD; optim_loss_scale := 1; optim_momentum := None |};
     ema := if use_ema then Some {| ema_model := 0%Q; updates := Some 0%Q |} else None;
     loss_scaler := ls; accumulate := k;
     accumulate_grads := None; accumulate_cur_step := 0 |}.

(** The batches with finite gradients, on the one-parameter framework. *)
Definition toy_fin (d : @Tensor toy * @Tensor toy) : bool := toy_is_finite (fst d).

(** [train] on the one-parameter framework, started as [__main__] starts it
    on a single device. *)
Definition toy_train (opt : Opt) (ext : Externals)
    (data_loader : list (@Tensor toy * @Tensor toy)) : outcome (@World toy) Z :=
  main 0 1 ∅ opt toy_data_dict ext data_loader toy_world.

(** ** Facts *)

Section Facts.

Context `{F : Framework}.

(** *** Traces *)

Lemma count_events_app (p : event -> bool) (t1 t2 : list event) :
  count_events p (t1 ++ t2) = (count_events p t1 + count_events p t2)%nat.
Proof.
  induction t1 as [|e t1 IH]; cbn [count_events app]; [reflexivity|].
  rewrite IH. lia.
Qed.

Lemma add_events_nil (w : World) : add_events w [] = w.
Proof. destruct w; unfold add_events; cbn. rewrite app_nil_r. reflexivity. Qed.

Lemma add_events_app (w : World) (t1 t2 : list event) :
  add_events (add_events w t1) t2 = add_events w (t1 ++ t2).
Proof. unfold add_events; cbn. rewrite app_assoc. reflexivity. Qed.

Lemma trace_add_events (w : World) (t : list event) :
  trace (add_events w t) = trace w ++ t.
Proof. reflexivity. Qed.

Lemma emit_eq (e : event) (w : World) : emit e w = Return tt (add_events w [e]).
Proof. reflexivity. Qed.

Lemma print_eq (m : message) (w : World) :
  print m w = Return tt (add_events w [Stdout m]).
Proof. reflexivity. Qed.

Lemma bind_return {A B} (m : M World A) (k : A -> M World B) (w w1 : World) (a : A) :
  m w = Return a w1 -> bind m k w = k a w1.
Proof. intros H. unfold bind. rewrite H. reflexivity. Qed.

Lemma bookkeeping_counts (t : list event) :
  forallb is_bookkeeping t = true ->
  count_events is_optimizer_call t = 0%nat /\
  count_events is_ema_update t = 0%nat /\
  count_events is_scaler_adjust t = 0%nat /\
  count_events is_train_step_call t = 0%nat /\
  count_events logs_loss_scale t = 0%nat.
Proof.
  induction t as [|e t IH]; cbn [forallb count_events]; [tauto|].
  intros H. apply andb_true_iff in H as [He Ht].
  destruct (IH Ht) as (H1 & H2 & H3 & H4 & H5).
  rewrite H1, H2, H3, H4, H5.
  destruct e as [m| | | | | |]; try discriminate He; try (cbn; tauto).
  destruct m; try discriminate He; cbn; tauto.
Qed.

Lemma optimizer_then_ema_app (t1 t2 : list event) :
  optimizer_then_ema t1 = true -> optimizer_then_ema t2 = true ->
  optimizer_then_ema (t1 ++ t2) = true.
Proof.
  induction t1 as [|e t1 IH]; cbn [app]; [tauto|].
  intros H1 H2. destruct e; cbn [optimizer_then_ema] in *; try (apply IH; assumption).
  destruct t1 as [|e' t1']; [discriminate|].
  destruct e'; try discriminate. cbn [app]. apply IH; assumption.
Qed.

Lemma bookkeeping_then_ema (t : list event) :
  forallb is_bookkeeping t = true -> optimizer_then_ema t = true.
Proof.
  induction t as [|e t IH]; cbn [forallb optimizer_then_ema]; [reflexivity|].
  intros H. apply andb_true_iff in H as [He Ht].
  destruct e; try discriminate He; apply IH; assumption.
Qed.

(** *** The blocks of the loop body *)

Lemma multi_scale_returns (opt : Opt) (ext : Externals) (imgs : Tensor) (w : World) :
  exists ns w1, multi_scale opt ext imgs w = Return ns w1 /\ trace w1 = trace w.
Proof.
  unfold multi_scale. destruct (opt_multi_scale opt).
  - unfold bind, py_randrange.
    destruct (randrange (py_rng w) _ _) as [v g].
    match goal with |- context [if ?c then _ else _] => destruct c end;
      eexists; eexists; split; reflexivity.
  - eexists; eexists; split; reflexivity.
Qed.

Lemma log_step_returns (opt : Opt) (ext : Externals) (i : Z) (imgs : Tensor)
    (ns : option (list Z)) (s' : Loop) (x : Tensor * option Tensor) (w : World) :
  exists evs, log_step opt ext i imgs ns (s', x) w = Return s' (add_events w evs) /\
              forallb is_bookkeeping evs = true.
Proof.
  unfold log_step, save_checkpoints. destruct x as [loss [li|]];
    unfold bind; rewrite !print_eq;
    destruct ((i + 1) mod ext_per_epoch_size ext =? 0);
    destruct (opt_rank opt mod 8 =? 0); cbn [andb];
    try destruct (ema s');
    unfold ret, bind; rewrite ?print_eq, ?emit_eq, ?add_events_app;
    eexists; split; try reflexivity; reflexivity.
Qed.


(** Run the monadic code of a goal as far as it is determined. *)
Ltac run :=
  repeat (unfold bind, ret, raise, print, call_optimizer, ema_update, call_adjust;
          rewrite ?emit_eq, ?add_events_app, ?add_events_nil;
          cbn beta iota).

(** *** The step function *)

Lemma train_step_no_update (pc : ParallelContext) (hyp : gmap string Q) (opt : Opt)
    (ls : option LossScaler) (o : Optimizer) (m : Cell) (x l : Tensor)
    (ns : option (list Z)) (w : World) :
  static_shape_step pc hyp opt ls o m x l ns false w =
  Return (step_result pc hyp opt ls m x l ns, m) w.
Proof.
  unfold static_shape_step, create_train_static_shape_fn_gradoperation, step_result.
  destruct (forward_func hyp default_rank_size m x l ns) as [loss items].
  reflexivity.
Qed.

Lemma train_step_update (pc : ParallelContext) (hyp : gmap string Q) (opt : Opt)
    (ls : option LossScaler) (o : Optimizer) (m : Cell) (x l : Tensor)
    (ns : option (list Z)) (w : World) :
  let res := step_result pc hyp opt ls m x l ns in
  static_shape_step pc hyp opt ls o m x l ns true w =
  Return (res,
          if res_grads_finite res || opt_overflow_still_update opt
          then optimizer_apply o m (res_grads res) else m)
         (add_events w (update_events (opt_overflow_still_update opt) (res_grads res))).
Proof.
  unfold static_shape_step, create_train_static_shape_fn_gradoperation, step_result,
    update_events.
  destruct (forward_func hyp default_rank_size m x l ns) as [loss items].
  cbn [res_grads res_grads_finite fst snd].
  destruct (all_finite _); cbn [orb].
  - reflexivity.
  - destruct (opt_overflow_still_update opt); run; reflexivity.
Qed.


(** *** The two branches of the StaticShape strategy *)

Lemma immediate_branch_eq (pc : ParallelContext) (hyp : gmap string Q) (opt : Opt)
    (x l : Tensor) (ns : option (list Z)) (s : Loop) (w : World) :
  let res := step_result pc hyp opt (loss_scaler s) (model s) x l ns in
  let g := res_grads_finite res in
  let m' := if g || opt_overflow_still_update opt
            then optimizer_apply (optimizer s) (model s) (res_grads res)
            else model s in
  let ls' := option_map (fun ls => adjust ls g) (loss_scaler s) in
  immediate_branch (static_shape_step pc hyp opt) x l ns s w =
  Return (with_step s m' (option_map (fun e => EMA_update e m') (ema s)) ls'
                    (accumulate_grads s) (accumulate_cur_step s),
          (res_loss res, Some (res_loss_items res)))
         (add_events w
            (TrainStepCall ns ::
             update_events (opt_overflow_still_update opt) (res_grads res) ++
             ema_events (ema s) ++ adjust_events (loss_scaler s) g ++
             overflow_adjust_events ls' g)).
Proof.
  intros res g m' ls'. unfold immediate_branch.
  unfold bind at 1. rewrite emit_eq. cbn beta iota.
  unfold bind at 1. rewrite train_step_update. cbn beta iota.
  fold res. fold g. fold m'. rewrite add_events_app.
  subst ls'. unfold with_step, ema_events, adjust_events, overflow_adjust_events.
  destruct (ema s) as [e|]; destruct (loss_scaler s) as [ls|];
    cbn [option_map]; destruct g; cbn [negb]; run;
    rewrite <- ?app_assoc; cbn [app]; rewrite ?app_nil_r; reflexivity.
Qed.

Lemma add_grads_cases (acc : option (list Tensor)) (grads : list Tensor) (w : World) :
  add_grads acc grads w =
  match acc with
  | Some (a :: rest) =>
      if (length (a :: rest) =? length grads)%nat
      then Return (zip_with tensor_add (a :: rest) grads) w
      else Raise (AssertionError "") w
  | _ => Return grads w
  end.
Proof.
  unfold add_grads. destruct acc as [[|a rest]|]; try reflexivity.
  unfold bind, assert. destruct (length (a :: rest) =? length grads)%nat; reflexivity.
Qed.

Lemma accumulate_branch_eq (pc : ParallelContext) (hyp : gmap string Q) (opt : Opt)
    (cur_epoch cur_step : Z) (x l : Tensor) (ns : option (list Z)) (s : Loop)
    (w : World) :
  let res := step_result pc hyp opt (loss_scaler s) (model s) x l ns in
  let g := res_grads_finite res in
  let ls' := option_map (fun ls => adjust ls g) (loss_scaler s) in
  let w1 := add_events w (TrainStepCall ns :: adjust_events (loss_scaler s) g) in
  accumulate_branch (static_shape_step pc hyp opt) cur_epoch cur_step x l ns s w =
  if g then
    match add_grads (accumulate_grads s) (res_grads res) w1 with
    | Raise e w2 => Raise e w2
    | Return acc w2 =>
        if (accumulate_cur_step s + 1) mod accumulate s =? 0 then
          let m' := optimizer_apply (optimizer s) (model s) acc in
          Return (with_step s m' (option_map (fun e => EMA_update e m') (ema s))
                            ls' None 0,
                  (res_loss res, Some (res_loss_items res)))
                 (add_events w2 (OptimizerCall acc :: ema_events (ema s) ++
                                 [Stdout (MsgAccumulateSuccess cur_epoch cur_step)]))
        else
          Return (with_step s (model s) (ema s) ls' (Some acc)
                            (accumulate_cur_step s + 1),
                  (res_loss res, Some (res_loss_items res))) w2
    end
  else
    Return (with_step s (model s) (ema s) ls' (accumulate_grads s)
                      (accumulate_cur_step s),
            (res_loss res, Some (res_loss_items res)))
           (add_events w1 [drop_event ls' cur_epoch cur_step]).
Proof.
  intros res g ls' w1. unfold accumulate_branch.
  unfold bind at 1. rewrite emit_eq. cbn beta iota.
  unfold bind at 1. rewrite train_step_no_update. cbn beta iota.
  fold res. fold g.
  assert (Hls : forall (A : Type) (k : option LossScaler -> M World A),
             bind (match loss_scaler s with
                   | Some ls => ls' <- call_adjust ls g ;; ret (Some ls')
                   | None => ret None
                   end) k (add_events w [TrainStepCall ns]) = k ls' w1).
  { intros A k. subst ls' w1. unfold adjust_events.
    destruct (loss_scaler s) as [ls|]; run; reflexivity. }
  rewrite Hls. clear Hls.
  destruct g.
  - unfold bind at 1. unfold bind at 1. rewrite add_grads_cases.
    destruct (accumulate_grads s) as [[|a rest]|]; cbn beta iota.
    + destruct ((accumulate_cur_step s + 1) mod accumulate s =? 0);
        [destruct (ema s) as [e|]|]; run; reflexivity.
    + destruct (length (a :: rest) =? length (res_grads res))%nat; cbn beta iota;
        [|reflexivity].
      destruct ((accumulate_cur_step s + 1) mod accumulate s =? 0);
        [destruct (ema s) as [e|]|]; run; reflexivity.
    + destruct ((accumulate_cur_step s + 1) mod accumulate s =? 0);
        [destruct (ema s) as [e|]|]; run; reflexivity.
  - unfold drop_event. destruct ls' as [l'|]; run; reflexivity.
Qed.


(** *** Tactics for the events of an iteration *)

(** Push a count through the events of an iteration. *)
Ltac count_norm :=
  repeat first
    [ rewrite count_events_app
    | progress cbn [count_events app is_optimizer_call is_ema_update
                    is_scaler_adjust is_train_step_call logs_loss_scale
                    adjust_events ema_events drop_event option_map] ].

(** Settle the log and checkpoint tail of an iteration, in the goal. *)
Ltac close_log_step :=
  match goal with
  | |- context [log_step ?opt ?ext ?i ?imgs ?ns (?s2, ?x) ?w2] =>
      let bk := fresh "bk" in
      let Hlog := fresh "Hlog" in
      let Hbk := fresh "Hbk" in
      destruct (log_step_returns opt ext i imgs ns s2 x w2) as (bk & Hlog & Hbk);
      rewrite Hlog, ?add_events_app
  end.

(** The same in a hypothesis. *)
Ltac close_log_step_in H :=
  match type of H with
  | context [log_step ?opt ?ext ?i ?imgs ?ns (?s2, ?x) ?w2] =>
      let bk := fresh "bk" in
      let Hlog := fresh "Hlog" in
      let Hbk := fresh "Hbk" in
      destruct (log_step_returns opt ext i imgs ns s2 x w2) as (bk & Hlog & Hbk);
      rewrite Hlog, ?add_events_app in H
  end.

(** Find an event in a list of events. *)
Ltac find_in :=
  first [ left; reflexivity
        | right; find_in
        | apply in_or_app; left; find_in
        | apply in_or_app; right; find_in ].

(** *** The warm-up block *)

Lemma warmup_cases (opt : Opt) (ext : Externals) (i : Z) (s : Loop) (w : World) :
  warmup opt ext i s w = Raise IndexError w \/
  exists s1, warmup opt ext i s w = Return s1 w /\
             model s1 = model s /\ ema s1 = ema s /\
             loss_scaler s1 = loss_scaler s /\
             accumulate_grads s1 = accumulate_grads s /\
             accumulate_cur_step s1 = accumulate_cur_step s /\
             accumulate s1 = if i <? ext_warmup_steps ext
                             then warmup_accumulate opt ext i else accumulate s.
Proof.
  unfold warmup. destruct (i <? ext_warmup_steps ext).
  - destruct (sgd_or_momentum opt).
    + destruct (nth_error (ext_momentum_pg ext) (Z.to_nat i)) as [m|].
      * right. eexists. split; [reflexivity|]. cbn. tauto.
      * left. reflexivity.
    + right. eexists. split; [reflexivity|]. cbn. tauto.
  - right. exists s. split; [reflexivity|]. tauto.
Qed.

(** What the warm-up block leaves as it is. *)
Lemma warmup_keeps (opt : Opt) (ext : Externals) (i : Z) (s s1 : Loop) (w : World) :
  warmup opt ext i s w = Return s1 w ->
  model s1 = model s /\ ema s1 = ema s /\ loss_scaler s1 = loss_scaler s /\
  accumulate_grads s1 = accumulate_grads s /\
  accumulate_cur_step s1 = accumulate_cur_step s /\
  accumulate s1 = if i <? ext_warmup_steps ext
                  then warmup_accumulate opt ext i else accumulate s.
Proof.
  intros H. destruct (warmup_cases opt ext i s w) as [Hr|(s1' & Hw & Hk)];
    [congruence|].
  assert (s1' = s1) by congruence. subst s1'. exact Hk.
Qed.

(** With one momentum per warm-up step, as set-up asserts for sgd and
    momentum, the warm-up block returns. *)
Lemma warmup_returns (opt : Opt) (ext : Externals) (i : Z) (s : Loop) (w : World) :
  0 <= i ->
  (sgd_or_momentum opt = true ->
   Z.of_nat (length (ext_momentum_pg ext)) = ext_warmup_steps ext) ->
  exists s1, warmup opt ext i s w = Return s1 w.
Proof.
  intros Hi Hmom. unfold warmup.
  destruct (Z.ltb_spec i (ext_warmup_steps ext)) as [Hlt|_]; [|eexists; reflexivity].
  destruct (sgd_or_momentum opt); [|eexists; reflexivity].
  destruct (nth_error (ext_momentum_pg ext) (Z.to_nat i)) as [m|] eqn:E;
    [eexists; reflexivity|].
  apply nth_error_None in E. specialize (Hmom eq_refl). lia.
Qed.

(** *** The loop body under the StaticShape strategy *)

Lemma loop_body_fn_eq (opt : Opt) (ext : Externals) (fn : FnStep) (i : Z)
    (data : Tensor * Tensor) (s : Loop) (w : World) :
  let imgs := as_dtype (input_dtype opt) (fst data) in
  let labels := as_dtype (input_dtype opt) (snd data) in
  let ep := i / ext_per_epoch_size ext + 1 in
  let st := i mod ext_per_epoch_size ext + 1 in
  loop_body opt ext (inr fn) i data s w =
  match warmup opt ext i s w with
  | Raise e w0 => Raise e w0
  | Return s1 w0 =>
      match multi_scale opt ext imgs w0 with
      | Raise e w1 => Raise e w1
      | Return ns w1 =>
          bind (if accumulate s1 =? 1
                then immediate_branch fn imgs labels ns s1
                else accumulate_branch fn ep st imgs labels ns s1)
               (log_step opt ext i imgs ns) w1
      end
  end.
Proof. reflexivity. Qed.

Lemma loop_body_after_warmup (opt : Opt) (ext : Externals) (fn : FnStep) (i : Z)
    (data : Tensor * Tensor) (s s1 : Loop) (w : World) :
  warmup opt ext i s w = Return s1 w ->
  exists ns w1,
    trace w1 = trace w /\
    loop_body opt ext (inr fn) i data s w =
    bind (if accumulate s1 =? 1
          then immediate_branch fn (as_dtype (input_dtype opt) (fst data))
                 (as_dtype (input_dtype opt) (snd data)) ns s1
          else accumulate_branch fn (i / ext_per_epoch_size ext + 1)
                 (i mod ext_per_epoch_size ext + 1)
                 (as_dtype (input_dtype opt) (fst data))
                 (as_dtype (input_dtype opt) (snd data)) ns s1)
         (log_step opt ext i (as_dtype (input_dtype opt) (fst data)) ns) w1.
Proof.
  intros Hw. rewrite loop_body_fn_eq, Hw.
  destruct (multi_scale_returns opt ext (as_dtype (input_dtype opt) (fst data)) w)
    as (ns & w1 & Hms & Htr).
  exists ns, w1. rewrite Hms. split; [exact Htr|reflexivity].
Qed.

(** An iteration of the immediate-update path; [s1] is the loop state that
    the warm-up block leaves. *)
Lemma immediate_iteration (pc : ParallelContext) (hyp : gmap string Q) (opt : Opt)
    (ext : Externals) (i : Z) (data : Tensor * Tensor) (s s1 : Loop) (w : World) :
  warmup opt ext i s w = Return s1 w ->
  accumulate s1 = 1 ->
  exists ns bk w1,
    trace w1 = trace w /\ forallb is_bookkeeping bk = true /\
    let grads := batch_grads pc hyp opt (loss_scaler s) (model s) data ns in
    let g := all_finite grads in
    let m' := if g || opt_overflow_still_update opt
              then optimizer_apply (optimizer s1) (model s) grads else model s in
    let ls' := option_map (fun ls => adjust ls g) (loss_scaler s) in
    loop_body opt ext (inr (static_shape_step pc hyp opt)) i data s w =
    Return (with_step s1 m' (option_map (fun e => EMA_update e m') (ema s)) ls'
                      (accumulate_grads s) (accumulate_cur_step s))
           (add_events w1
              (TrainStepCall ns ::
               update_events (opt_overflow_still_update opt) grads ++
               ema_events (ema s) ++ adjust_events (loss_scaler s) g ++
               overflow_adjust_events ls' g ++ bk)).
Proof.
  intros Hw Hacc.
  destruct (warmup_keeps opt ext i s s1 w Hw) as (Hm & He & Hl & Hb & Hc & _).
  destruct (loop_body_after_warmup opt ext (static_shape_step pc hyp opt) i data
              s s1 w Hw) as (ns & w1 & Htr & Hrun).
  rewrite Hacc in Hrun. cbn [Z.eqb Pos.eqb] in Hrun.
  unfold bind in Hrun. rewrite immediate_branch_eq in Hrun.
  close_log_step_in Hrun.
  exists ns, bk, w1. split; [exact Htr|]. split; [exact Hbk|].
  cbn zeta. rewrite Hrun. unfold batch_grads, step_result.
  cbn [res_grads res_grads_finite app]. rewrite Hm, He, Hl, Hb, Hc.
  rewrite <- !app_assoc. reflexivity.
Qed.

(** An iteration of the accumulation path on a micro-batch with non-finite
    gradients. *)
Lemma dropped_iteration (pc : ParallelContext) (hyp : gmap string Q) (opt : Opt)
    (ext : Externals) (i : Z) (data : Tensor * Tensor) (s s1 : Loop) (w : World) :
  warmup opt ext i s w = Return s1 w ->
  accumulate s1 <> 1 ->
  (forall ns, all_finite (batch_grads pc hyp opt (loss_scaler s) (model s) data ns)
              = false) ->
  exists ns bk w1,
    trace w1 = trace w /\ forallb is_bookkeeping bk = true /\
    let ls' := option_map (fun ls => adjust ls false) (loss_scaler s) in
    loop_body opt ext (inr (static_shape_step pc hyp opt)) i data s w =
    Return (with_step s1 (model s) (ema s) ls' (accumulate_grads s)
                      (accumulate_cur_step s))
           (add_events w1
              (TrainStepCall ns :: adjust_events (loss_scaler s) false ++
               drop_event ls' (i / ext_per_epoch_size ext + 1)
                          (i mod ext_per_epoch_size ext + 1) :: bk)).
Proof.
  intros Hw Hacc Hnf.
  destruct (warmup_keeps opt ext i s s1 w Hw) as (Hm & He & Hl & Hb & Hc & _).
  destruct (loop_body_after_warmup opt ext (static_shape_step pc hyp opt) i data
              s s1 w Hw) as (ns & w1 & Htr & Hrun).
  destruct (Z.eqb_spec (accumulate s1) 1) as [|_]; [contradiction|].
  unfold bind in Hrun. rewrite accumulate_branch_eq in Hrun.
  unfold step_result in Hrun.
  cbn [res_grads res_grads_finite res_loss res_loss_items] in Hrun.
  rewrite Hm, He, Hl, Hb, Hc in Hrun.
  fold (batch_grads pc hyp opt (loss_scaler s) (model s) data ns) in Hrun.
  rewrite Hnf in Hrun.
  close_log_step_in Hrun.
  exists ns, bk, w1. split; [exact Htr|]. split; [exact Hbk|].
  cbn zeta. rewrite Hrun. cbn [app]. rewrite <- ?app_assoc. reflexivity.
Qed.

(** An iteration of the accumulation path when the finiteness of a
    micro-batch's gradients is a property [fin] of the micro-batch and every
    gradient list has [n] tensors. *)
Lemma accumulate_iteration (pc : ParallelContext) (hyp : gmap string Q) (opt : Opt)
    (ext : Externals) (fin : Tensor * Tensor -> bool) (n : nat) (i : Z)
    (data : Tensor * Tensor) (s s1 : Loop) (w : World) :
  (forall d ls m ns, all_finite (batch_grads pc hyp opt ls m d ns) = fin d) ->
  (forall d ls m ns, length (batch_grads pc hyp opt ls m d ns) = n) ->
  warmup opt ext i s w = Return s1 w ->
  accumulate s1 <> 1 ->
  buffer_ok n (accumulate_grads s) ->
  let fire := fin data && ((accumulate_cur_step s + 1) mod accumulate s1 =? 0) in
  let ep := i / ext_per_epoch_size ext + 1 in
  let st := i mod ext_per_epoch_size ext + 1 in
  exists s' w' evs,
    loop_body opt ext (inr (static_shape_step pc hyp opt)) i data s w = Return s' w' /\
    trace w' = trace w ++ evs /\
    accumulate s' = accumulate s1 /\
    (ema s' = None <-> ema s = None) /\
    buffer_ok n (accumulate_grads s') /\
    accumulate_cur_step s' =
      (if fire then 0
       else if fin data then accumulate_cur_step s + 1 else accumulate_cur_step s) /\
    count_events is_optimizer_call evs = (if fire then 1 else 0)%nat /\
    count_events is_ema_update evs =
      (if fire then match ema s with Some _ => 1 | None => 0 end else 0)%nat /\
    (ema s <> None -> optimizer_then_ema evs = true) /\
    (fin data = false ->
       accumulate_grads s' = accumulate_grads s /\ model s' = model s /\
       match loss_scaler s with
       | Some ls =>
           In (Stdout (MsgOverflowDropScale ep st (scale_value_of (adjust ls false)))) evs
       | None =>
           In (Stdout (MsgOverflowDrop ep st)) evs /\
           count_events logs_loss_scale evs = 0%nat
       end).
Proof.
  intros Hfin Hlen Hw Hacc Hbuf fire ep st.
  destruct (warmup_keeps opt ext i s s1 w Hw) as (Hm & He & Hl & Hb & Hc & _).
  destruct (loop_body_after_warmup opt ext (static_shape_step pc hyp opt) i data
              s s1 w Hw) as (ns & w1 & Htr & Hrun).
  rewrite Hrun. clear Hrun.
  destruct (Z.eqb_spec (accumulate s1) 1) as [H1|_]; [contradiction|].
  unfold bind. rewrite accumulate_branch_eq.
  unfold step_result. cbn [res_grads res_grads_finite res_loss res_loss_items].
  rewrite Hm, He, Hl, Hb, Hc.
  fold (batch_grads pc hyp opt (loss_scaler s) (model s) data ns).
  rewrite Hfin. subst fire.
  set (grads := batch_grads pc hyp opt (loss_scaler s) (model s) data ns).
  assert (Hg : length grads = n) by apply Hlen.
  destruct (fin data); cbn [andb].
  - (* finite gradients *)
    assert (Hadd : exists acc, forall w0,
              add_grads (accumulate_grads s) grads w0 = Return acc w0 /\
              length acc = n).
    { destruct (accumulate_grads s) as [[|a rest]|] eqn:Eb.
      - exists grads. intros w0. rewrite add_grads_cases. split; [reflexivity|exact Hg].
      - exists (zip_with tensor_add (a :: rest) grads). intros w0.
        rewrite add_grads_cases. cbn [buffer_ok] in Hbuf.
        replace (length (a :: rest) =? length grads)%nat with true
          by (symmetry; apply Nat.eqb_eq; congruence).
        split; [reflexivity|]. rewrite length_zip_with. lia.
      - exists grads. intros w0. rewrite add_grads_cases. split; [reflexivity|exact Hg]. }
    destruct Hadd as (acc & Hadd).
    destruct (Hadd (add_events w1 (TrainStepCall ns :: adjust_events (loss_scaler s) true)))
      as [Hadd' Hacclen].
    rewrite Hadd'. clear Hadd Hadd'.
    destruct ((accumulate_cur_step s + 1) mod accumulate s1 =? 0).
    + close_log_step.
      destruct (bookkeeping_counts bk Hbk) as (Hz1 & Hz2 & _).
      eexists _, _, _. split; [reflexivity|].
      rewrite trace_add_events, Htr. split; [reflexivity|].
      cbn [with_step accumulate ema accumulate_grads accumulate_cur_step buffer_ok model].
      split; [reflexivity|].
      split; [destruct (ema s); cbn; split; intros; congruence|].
      split; [exact I|].
      split; [reflexivity|].
      split; [destruct (loss_scaler s), (ema s); count_norm; rewrite Hz1; reflexivity|].
      split; [destruct (loss_scaler s), (ema s); count_norm; rewrite Hz2; reflexivity|].
      split; [|discriminate].
      intros Hne. destruct (ema s) as [e|]; [|congruence].
      destruct (loss_scaler s); cbn [adjust_events ema_events app optimizer_then_ema];
        apply bookkeeping_then_ema; exact Hbk.
    + close_log_step.
      destruct (bookkeeping_counts bk Hbk) as (Hz1 & Hz2 & _).
      eexists _, _, _. split; [reflexivity|].
      rewrite trace_add_events, Htr. split; [reflexivity|].
      cbn [with_step accumulate ema accumulate_grads accumulate_cur_step buffer_ok model].
      split; [reflexivity|].
      split; [tauto|].
      split; [exact Hacclen|].
      split; [reflexivity|].
      split; [destruct (loss_scaler s); count_norm; rewrite Hz1; reflexivity|].
      split; [destruct (loss_scaler s); count_norm; rewrite Hz2; reflexivity|].
      split; [|discriminate].
      intros _.
      destruct (loss_scaler s); cbn [adjust_events app optimizer_then_ema];
        apply bookkeeping_then_ema; exact Hbk.
  - (* non-finite gradients *)
    close_log_step.
    destruct (bookkeeping_counts bk Hbk) as (Hz1 & Hz2 & _ & _ & Hz5).
    eexists _, _, _. split; [reflexivity|].
    rewrite trace_add_events, Htr. split; [reflexivity|].
    cbn [with_step accumulate ema accumulate_grads accumulate_cur_step buffer_ok model].
    split; [reflexivity|].
    split; [tauto|].
    split; [exact Hbuf|].
    split; [reflexivity|].
    split; [destruct (loss_scaler s); count_norm; rewrite Hz1; reflexivity|].
    split; [destruct (loss_scaler s); count_norm; rewrite Hz2; reflexivity|].
    split.
    { intros _.
      destruct (loss_scaler s);
        cbn [adjust_events drop_event option_map app optimizer_then_ema];
        apply bookkeeping_then_ema; exact Hbk. }
    intros _. split; [reflexivity|]. split; [reflexivity|].
    destruct (loss_scaler s) as [ls|];
      cbn [option_map drop_event adjust_events app In].
    + tauto.
    + split; [tauto|]. count_norm. rewrite Hz5. reflexivity.
Qed.

(** *** The accumulation window *)

(** C7.  After an iteration of the accumulation path (target other than 1)
    during which the optimizer was called, the gradient buffer is empty
    ([None]) and the accumulation counter is zero. *)
Theorem accumulation_update_resets_window (pc : ParallelContext) (hyp : gmap string Q)
    (opt : Opt) (ext : Externals) (i : Z) (data : Tensor * Tensor)
    (s s' : Loop) (w w' : World) :
  loop_body opt ext (inr (static_shape_step pc hyp opt)) i data s w = Return s' w' ->
  accumulate s' <> 1 ->
  (count_events is_optimizer_call (trace w) <
   count_events is_optimizer_call (trace w'))%nat ->
  accumulate_grads s' = None /\ accumulate_cur_step s' = 0.
Proof.
  intros Hrun Hacc Hcount.
  destruct (warmup_cases opt ext i s w) as [Hw|(s1 & Hw & _)].
  { rewrite loop_body_fn_eq, Hw in Hrun. discriminate. }
  destruct (loop_body_after_warmup opt ext (static_shape_step pc hyp opt) i data
              s s1 w Hw) as (ns & w1 & Htr & Heq).
  rewrite Heq in Hrun. clear Heq. unfold bind in Hrun.
  destruct (Z.eqb_spec (accumulate s1) 1) as [H1|H1].
  - exfalso. rewrite immediate_branch_eq in Hrun. close_log_step_in Hrun.
    injection Hrun as Hs _. subst s'. apply Hacc. exact H1.
  - revert Hrun. rewrite accumulate_branch_eq, add_grads_cases.
    destruct (res_grads_finite _).
    + destruct (accumulate_grads s1) as [[|a rest]|]; cbn beta iota;
        [| destruct (length (a :: rest) =? length _)%nat; cbn beta iota;
           [|discriminate] |];
        (destruct ((accumulate_cur_step s1 + 1) mod accumulate s1 =? 0);
         cbn beta iota zeta; intros Hrun; close_log_step_in Hrun;
         injection Hrun as Hs Hw'; subst s' w';
         [split; reflexivity|];
         exfalso; revert Hcount; rewrite trace_add_events, Htr;
         destruct (bookkeeping_counts bk Hbk) as (Hz & _);
         destruct (loss_scaler s1); count_norm; rewrite Hz; lia).
    + cbn beta iota. intros Hrun. exfalso. close_log_step_in Hrun.
      injection Hrun as Hs Hw'.
      subst s' w'.
      revert Hcount. rewrite trace_add_events, Htr.
      destruct (bookkeeping_counts bk Hbk) as (Hz & _).
      destruct (loss_scaler s1); count_norm; rewrite Hz; lia.
Qed.

(** *** The accumulation path over a whole loader *)

Lemma count_batches_nonneg (fin : Tensor * Tensor -> bool) (l : list (Tensor * Tensor)) :
  0 <= count_batches fin l.
Proof.
  induction l as [|d l IH]; cbn [count_batches]; [lia|].
  destruct (fin d); lia.
Qed.

Lemma accumulate_loop (pc : ParallelContext) (hyp : gmap string Q) (opt : Opt)
    (ext : Externals) (fin : Tensor * Tensor -> bool) (n : nat) (k : Z) :
  1 < k ->
  (forall d ls m ns, all_finite (batch_grads pc hyp opt ls m d ns) = fin d) ->
  (forall d ls m ns, length (batch_grads pc hyp opt ls m d ns) = n) ->
  (sgd_or_momentum opt = true ->
   Z.of_nat (length (ext_momentum_pg ext)) = ext_warmup_steps ext) ->
  forall (data_loader : list (Tensor * Tensor)) (i : Z) (s : Loop) (w : World),
  0 <= i ->
  accumulate s = k ->
  (forall j, i <= j < ext_warmup_steps ext -> warmup_accumulate opt ext j = k) ->
  0 <= accumulate_cur_step s < k ->
  buffer_ok n (accumulate_grads s) ->
  exists s' w' evs,
    train_loop opt ext (inr (static_shape_step pc hyp opt)) i data_loader s w =
      Return s' w' /\
    trace w' = trace w ++ evs /\
    Z.of_nat (count_events is_optimizer_call evs) =
      (accumulate_cur_step s + count_batches fin data_loader) / k /\
    accumulate_cur_step s' =
      (accumulate_cur_step s + count_batches fin data_loader) mod k /\
    count_events is_ema_update evs =
      match ema s with
      | Some _ => count_events is_optimizer_call evs
      | None => 0%nat
      end /\
    (ema s <> None -> optimizer_then_ema evs = true).
Proof.
  intros Hk Hfin Hlen Hmom data_loader.
  induction data_loader as [|d rest IH]; intros i s w Hi Hacc Htarget Hcur Hbuf.
  - exists s, w, []. cbn [train_loop count_batches count_events].
    rewrite app_nil_r, Z.add_0_r, Z.div_small, Z.mod_small by lia.
    repeat split; try reflexivity. destruct (ema s); reflexivity.
  - cbn [train_loop count_batches].
    destruct (warmup_returns opt ext i s w Hi Hmom) as (s0 & Hw).
    assert (Hacc0 : accumulate s0 = k).
    { destruct (warmup_keeps opt ext i s s0 w Hw) as (_ & _ & _ & _ & _ & Ha).
      rewrite Ha. destruct (Z.ltb_spec i (ext_warmup_steps ext));
        [apply Htarget; lia|exact Hacc]. }
    destruct (accumulate_iteration pc hyp opt ext fin n i d s s0 w Hfin Hlen Hw)
      as (s1 & w1 & evs1 & Hrun & Htr & Hacc1 & Hema & Hbuf1 & Hcur1 & Hopt1 & Hema1
          & Hthen1 & _); [lia|exact Hbuf|].
    rewrite (bind_return _ _ _ _ _ Hrun).
    pose proof (count_batches_nonneg fin rest) as Hnn.
    set (N := count_batches fin rest) in *.
    rewrite Hacc0 in Hcur1, Hopt1, Hema1.
    assert (Hcur1' : 0 <= accumulate_cur_step s1 < k).
    { rewrite Hcur1. destruct (fin d); cbn [andb]; [|lia].
      destruct (Z.eqb_spec ((accumulate_cur_step s + 1) mod k) 0) as [E|E]; [lia|].
      assert (accumulate_cur_step s + 1 <> k)
        by (intros E'; apply E; rewrite E'; apply Z.mod_same; lia).
      lia. }
    destruct (IH (i + 1) s1 w1) as (s' & w' & evs & Hrun' & Htr' & Hopt & Hcur' & Hema'
                                    & Hthen');
      [lia|congruence|intros j Hj; apply Htarget; lia|exact Hcur1'|exact Hbuf1|].
    exists s', w', (evs1 ++ evs).
    split; [exact Hrun'|].
    split; [rewrite Htr', Htr, app_assoc; reflexivity|].
    assert (Harith :
      Z.of_nat (count_events is_optimizer_call evs1) +
        (accumulate_cur_step s1 + N) / k =
      (accumulate_cur_step s + ((if fin d then 1 else 0) + N)) / k /\
      (accumulate_cur_step s1 + N) mod k =
      (accumulate_cur_step s + ((if fin d then 1 else 0) + N)) mod k).
    { rewrite Hopt1, Hcur1. destruct (fin d); cbn [andb].
      - destruct (Z.eqb_spec ((accumulate_cur_step s + 1) mod k) 0) as [E|E].
        + assert (Ek : accumulate_cur_step s + 1 = k).
          { destruct (Z.eq_dec (accumulate_cur_step s + 1) k) as [|Hne]; [assumption|].
            rewrite Z.mod_small in E by lia. lia. }
          replace (accumulate_cur_step s + (1 + N)) with (N + 1 * k) by lia.
          rewrite Z.div_add, Z.mod_add, !Z.add_0_l by lia. split; [lia|reflexivity].
        + replace (accumulate_cur_step s + (1 + N))
            with (accumulate_cur_step s + 1 + N) by lia.
          split; [apply Z.add_0_l|reflexivity].
      - rewrite Z.add_0_l. split; [apply Z.add_0_l|reflexivity]. }
    destruct Harith as [Hdiv Hmod].
    split; [rewrite count_events_app, Nat2Z.inj_add, Hopt; exact Hdiv|].
    split; [rewrite Hcur'; exact Hmod|].
    split.
    + rewrite !count_events_app, Hema', Hema1, Hopt1.
      destruct (ema s) as [e|] eqn:Ee.
      * destruct (ema s1) as [e1|] eqn:Ee1; [reflexivity|].
        exfalso. destruct Hema as [Hema _]. specialize (Hema eq_refl). discriminate.
      * destruct (ema s1) as [e1|] eqn:Ee1.
        -- exfalso. destruct Hema as [_ Hema]. specialize (Hema eq_refl). discriminate.
        -- destruct (fin d && _); reflexivity.
    + intros He. apply optimizer_then_ema_app; [apply Hthen1; exact He|].
      apply Hthen'. intros Hn. apply He. apply Hema. exact Hn.
Qed.

(** C2 (amended).  With a fixed accumulation target [k > 1] and from an
    empty window, the optimizer is called once per [k] finite micro-batches
    of the loader, whatever non-finite micro-batches lie between them, and
    each call is directly followed by one EMA update when EMA is enabled.
    A non-finite micro-batch leaves the gradient buffer and the counter as
    they are and calls no optimizer; the loss-scale value (after its
    adjustment) is printed when a loss scaler is configured, and with no
    loss scaler the drop is printed without any scale value. *)
Theorem accumulation_one_update_per_k (pc : ParallelContext) (hyp : gmap string Q)
    (opt : Opt) (ext : Externals) (fin : Tensor * Tensor -> bool) (n : nat) (k : Z) :
  1 < k ->
  (forall d ls m ns, all_finite (batch_grads pc hyp opt ls m d ns) = fin d) ->
  (forall d ls m ns, length (batch_grads pc hyp opt ls m d ns) = n) ->
  (forall (data_loader : list (Tensor * Tensor)) (i : Z) (s : Loop) (w : World),
     0 <= i ->
     (sgd_or_momentum opt = true ->
      Z.of_nat (length (ext_momentum_pg ext)) = ext_warmup_steps ext) ->
     accumulate s = k ->
     (forall j, i <= j < ext_warmup_steps ext -> warmup_accumulate opt ext j = k) ->
     accumulate_grads s = None -> accumulate_cur_step s = 0 ->
     exists s' w' evs,
       train_loop opt ext (inr (static_shape_step pc hyp opt)) i data_loader s w =
         Return s' w' /\
       trace w' = trace w ++ evs /\
       Z.of_nat (count_events is_optimizer_call evs) = count_batches fin data_loader / k /\
       accumulate_cur_step s' = count_batches fin data_loader mod k /\
       (ema s <> None ->
        count_events is_ema_update evs = count_events is_optimizer_call evs /\
        optimizer_then_ema evs = true)) /\
  (forall (data : Tensor * Tensor) (i : Z) (s s1 : Loop) (w : World),
     warmup opt ext i s w = Return s1 w ->
     accumulate s1 = k -> buffer_ok n (accumulate_grads s) -> fin data = false ->
     exists s' w' evs,
       loop_body opt ext (inr (static_shape_step pc hyp opt)) i data s w =
         Return s' w' /\
       trace w' = trace w ++ evs /\
       accumulate_grads s' = accumulate_grads s /\
       accumulate_cur_step s' = accumulate_cur_step s /\
       count_events is_optimizer_call evs = 0%nat /\
       match loss_scaler s with
       | Some ls =>
           In (Stdout (MsgOverflowDropScale (i / ext_per_epoch_size ext + 1)
                         (i mod ext_per_epoch_size ext + 1)
                         (scale_value_of (adjust ls false)))) evs
       | None =>
           In (Stdout (MsgOverflowDrop (i / ext_per_epoch_size ext + 1)
                         (i mod ext_per_epoch_size ext + 1))) evs /\
           count_events logs_loss_scale evs = 0%nat
       end).
Proof.
  intros Hk Hfin Hlen. split.
  - intros data_loader i s w Hi Hmom Hacc Htarget Hbuf Hcur.
    destruct (accumulate_loop pc hyp opt ext fin n k Hk Hfin Hlen Hmom data_loader i s w)
      as (s' & w' & evs & Hrun & Htr & Hopt & Hcur' & Hema & Hthen);
      [exact Hi|exact Hacc|exact Htarget|lia|rewrite Hbuf; exact I|].
    rewrite Hcur, Z.add_0_l in Hopt, Hcur'.
    exists s', w', evs. repeat (split; [assumption|]).
    intros He. split; [|apply Hthen; exact He].
    rewrite Hema. destruct (ema s); [reflexivity|congruence].
  - intros data i s s1 w Hw Hacc Hbuf Hnf.
    destruct (accumulate_iteration pc hyp opt ext fin n i data s s1 w Hfin Hlen Hw)
      as (s' & w' & evs & Hrun & Htr & _ & _ & _ & Hcur & Hopt & _ & _ & Hdrop);
      [lia|exact Hbuf|].
    rewrite Hnf in Hcur, Hopt. cbn [andb] in Hcur, Hopt.
    destruct (Hdrop Hnf) as (Hb & _ & Hlog).
    exists s', w', evs. repeat (split; [assumption|]). exact Hlog.
Qed.

(** *** The still-update flag *)

(** C4 (amended).  On a micro-batch with non-finite gradients, with [s1]
    the loop state that the warm-up block leaves: in the immediate-update
    path (target 1) the optimizer is still called once, and "overflow, still
    update." is printed, when the flag is set, and it is not called, with
    "overflow, drop the step." printed, when the flag is unset; in the
    accumulation path the flag is not consulted and the micro-batch is
    dropped either way. *)
Theorem overflow_still_update_immediate_only (pc : ParallelContext)
    (hyp : gmap string Q) (opt : Opt) (ext : Externals) (i : Z)
    (data : Tensor * Tensor) (s s1 : Loop) (w : World) :
  warmup opt ext i s w = Return s1 w ->
  (forall ns, all_finite (batch_grads pc hyp opt (loss_scaler s) (model s) data ns)
              = false) ->
  exists s' w' evs,
    loop_body opt ext (inr (static_shape_step pc hyp opt)) i data s w = Return s' w' /\
    trace w' = trace w ++ evs /\
    if accumulate s1 =? 1 then
      if opt_overflow_still_update opt then
        count_events is_optimizer_call evs = 1%nat /\
        In (Stdout MsgOverflowStillUpdate) evs /\
        exists ns, In (OptimizerCall
                         (batch_grads pc hyp opt (loss_scaler s) (model s) data ns)) evs
      else
        count_events is_optimizer_call evs = 0%nat /\
        In (Stdout MsgOverflowDropStep) evs /\
        model s' = model s
    else
      count_events is_optimizer_call evs = 0%nat /\
      model s' = model s /\
      accumulate_grads s' = accumulate_grads s /\
      accumulate_cur_step s' = accumulate_cur_step s.
Proof.
  intros Hw Hnf.
  destruct (Z.eqb_spec (accumulate s1) 1) as [Hacc|Hacc].
  - destruct (immediate_iteration pc hyp opt ext i data s s1 w Hw Hacc)
      as (ns & bk & w1 & Htr & Hbk & Hrun).
    cbn zeta in Hrun. rewrite Hnf in Hrun. cbn [orb] in Hrun.
    destruct (bookkeeping_counts bk Hbk) as (Hz & _).
    eexists _, _, _. split; [exact Hrun|].
    rewrite trace_add_events, Htr. split; [reflexivity|].
    unfold update_events. rewrite Hnf.
    destruct (opt_overflow_still_update opt).
    + split; [destruct (loss_scaler s), (ema s); count_norm; rewrite Hz; reflexivity|].
      split; [cbn [app In]; tauto|].
      exists ns. cbn [app In]. tauto.
    + split; [destruct (loss_scaler s), (ema s); count_norm; rewrite Hz; reflexivity|].
      split; [cbn [app In]; tauto|reflexivity].
  - destruct (dropped_iteration pc hyp opt ext i data s s1 w Hw Hacc Hnf)
      as (ns & bk & w1 & Htr & Hbk & Hrun).
    cbn zeta in Hrun.
    destruct (bookkeeping_counts bk Hbk) as (Hz & _).
    eexists _, _, _. split; [exact Hrun|].
    rewrite trace_add_events, Htr. split; [reflexivity|].
    split; [destruct (loss_scaler s); count_norm; rewrite Hz; reflexivity|].
    repeat split.
Qed.
(** *** The order of reduction, unscaling and the finiteness check *)

(** C5.  In [train_step] the gradients go through the gradient reducer
    first, are then divided by the scaler's current scale value, and the
    finiteness flag is [all_finite] of those unscaled gradients; they are
    also the gradients returned and the only ones handed to the optimizer. *)
Theorem finiteness_checked_on_unscaled_gradients (pc : ParallelContext)
    (hyp : gmap string Q) (opt : Opt) (ls : option LossScaler) (o : Optimizer)
    (m : Cell) (x l : Tensor) (ns : option (list Z)) (optimizer_update : bool)
    (w : World) :
  let sens := opt_ms_grad_sens opt in
  let fwd := forward_func hyp default_rank_size m x l ns in
  let raw := GradOperation (fun m' => forward_func hyp default_rank_size m' x l ns) m
               (ops_fill (fst fwd) sens, ops_fill (snd fwd) sens) in
  let reduced := if opt_is_distributed opt
                 then DistributedGradReducer (gradients_mean pc) (device_num pc) raw
                 else raw in
  let unscaled := map (fun g => tensor_div g (scale_value_of (closure_scaler ls sens)))
                      reduced in
  exists res m' evs,
    static_shape_step pc hyp opt ls o m x l ns optimizer_update w =
      Return (res, m') (add_events w evs) /\
    res_grads res = unscaled /\
    res_grads_finite res = all_finite unscaled /\
    forall grads, In (OptimizerCall grads) evs -> grads = unscaled.
Proof.
  intros sens fwd raw reduced unscaled.
  assert (Hg : step_grads hyp default_rank_size (make_grad_reducer pc opt) sens ls
                 m x l ns = unscaled).
  { subst unscaled reduced raw fwd. unfold step_grads, make_grad_reducer, unscale.
    destruct (forward_func hyp default_rank_size m x l ns) as [loss items].
    cbn [fst snd]. destruct (opt_is_distributed opt); reflexivity. }
  destruct optimizer_update.
  - rewrite train_step_update. eexists _, _, _. split; [reflexivity|].
    unfold step_result. cbn [res_grads res_grads_finite]. fold sens. rewrite Hg.
    split; [reflexivity|]. split; [reflexivity|].
    intros grads Hin. unfold update_events in Hin.
    destruct (all_finite unscaled); [|destruct (opt_overflow_still_update opt)];
      cbn [In] in Hin; intuition congruence.
  - rewrite train_step_no_update. exists (step_result pc hyp opt ls m x l ns), m, [].
    rewrite add_events_nil. split; [reflexivity|].
    unfold step_result. cbn [res_grads res_grads_finite]. fold sens. rewrite Hg.
    split; [reflexivity|]. split; [reflexivity|]. intros grads [].
Qed.

(** *** The dynamic loss scale *)

Lemma adjust_n_counts (n : nat) :
  forall (v : Q) (c : Z),
  0 <= c -> c + Z.of_nat n < 1000 ->
  adjust_n n true (DynamicLossScaler v 2 1000 c) =
  DynamicLossScaler v 2 1000 (c + Z.of_nat n).
Proof.
  induction n as [|n IH]; intros v c Hc Hlt.
  - cbn [adjust_n]. rewrite Z.add_0_r. reflexivity.
  - cbn [adjust_n adjust].
    destruct (Z.eqb_spec (c + 1) 1000) as [E|_]; [lia|].
    rewrite IH by lia. f_equal. lia.
Qed.

Lemma adjust_n_doubles (n : nat) :
  forall (v : Q) (c : Z),
  0 <= c -> c + Z.of_nat n = 999 ->
  adjust_n (S n) true (DynamicLossScaler v 2 1000 c) =
  DynamicLossScaler (v * 2)%Q 2 1000 0.
Proof.
  induction n as [|n IH]; intros v c Hc Heq.
  - cbn [adjust_n adjust].
    destruct (Z.eqb_spec (c + 1) 1000) as [_|E]; [reflexivity|lia].
  - change (adjust_n (S (S n)) true (DynamicLossScaler v 2 1000 c))
      with (adjust_n (S n) true (adjust (DynamicLossScaler v 2 1000 c) true)).
    cbn [adjust].
    destruct (Z.eqb_spec (c + 1) 1000) as [E|_]; [lia|].
    apply IH; lia.
Qed.

Lemma scale_stays_above_floor (flags : list bool) :
  forall (v : Q) (c : Z),
  (scale_floor <= v)%Q ->
  (scale_floor <=
   scale_value_of (fold_left adjust flags (DynamicLossScaler v 2 1000 c)))%Q.
Proof.
  induction flags as [|b flags IH]; intros v c Hv; cbn [fold_left].
  - exact Hv.
  - cbn [adjust]. destruct b.
    + destruct (c + 1 =? 1000); apply IH; [|exact Hv].
      unfold scale_floor in *. lra.
    + apply IH. apply Q.le_max_l.
Qed.


(** Every iteration of the StaticShape strategy that gets past warm-up calls
    [adjust] exactly once, with the finiteness flag of its gradients. *)
Lemma adjust_once_per_iteration (pc : ParallelContext) (hyp : gmap string Q)
    (opt : Opt) (ext : Externals) (i : Z) (data : Tensor * Tensor)
    (s s1 : Loop) (w : World) (ls : LossScaler) :
  warmup opt ext i s w = Return s1 w ->
  loss_scaler s = Some ls ->
  exists ns evs,
    let g := all_finite (batch_grads pc hyp opt (Some ls) (model s) data ns) in
    let o := loop_body opt ext (inr (static_shape_step pc hyp opt)) i data s w in
    trace (final_world o) = trace w ++ evs /\
    count_events is_scaler_adjust evs = 1%nat /\
    In (ScalerAdjust g) evs /\
    forall s' w', o = Return s' w' -> loss_scaler s' = Some (adjust ls g).
Proof.
  intros Hw Hls.
  destruct (warmup_cases opt ext i s w) as [Hr|(s1' & Hw' & Hm & _ & Hl & _)];
    [congruence|].
  assert (s1' = s1) by congruence. subst s1'. clear Hw'.
  rewrite Hls in Hl.
  destruct (loop_body_after_warmup opt ext (static_shape_step pc hyp opt) i data
              s s1 w Hw) as (ns & w1 & Htr & Hrun).
  exists ns. cbn zeta. rewrite Hrun. clear Hrun. unfold bind.
  destruct (accumulate s1 =? 1).
  - rewrite immediate_branch_eq.
    unfold step_result. cbn [res_grads res_grads_finite res_loss res_loss_items].
    rewrite Hl, Hm.
    fold (batch_grads pc hyp opt (Some ls) (model s) data ns).
    set (grads := batch_grads pc hyp opt (Some ls) (model s) data ns).
    close_log_step. cbn [final_world].
    destruct (bookkeeping_counts bk Hbk) as (_ & _ & Hz & _).
    eexists. rewrite trace_add_events, Htr. split; [reflexivity|].
    split.
    { unfold update_events, overflow_adjust_events.
      destruct (all_finite grads), (opt_overflow_still_update opt), (ema s1);
        count_norm; rewrite Hz; reflexivity. }
    split.
    { cbn [adjust_events]. find_in. }
    intros s' w' Hret. injection Hret as Hs _. subst s'. reflexivity.
  - rewrite accumulate_branch_eq.
    unfold step_result. cbn [res_grads res_grads_finite res_loss res_loss_items].
    rewrite Hl, Hm.
    fold (batch_grads pc hyp opt (Some ls) (model s) data ns).
    set (grads := batch_grads pc hyp opt (Some ls) (model s) data ns).
    cbn [adjust_events option_map].
    destruct (all_finite grads).
    + rewrite add_grads_cases.
      destruct (accumulate_grads s1) as [[|a rest]|]; cbn beta iota;
        [| destruct (length (a :: rest) =? length grads)%nat; cbn beta iota;
           [| cbn [final_world]; exists [TrainStepCall ns; ScalerAdjust true];
              rewrite trace_add_events, Htr; split; [reflexivity|];
              split; [reflexivity|]; split; [cbn [In]; tauto|discriminate] ] |];
        (destruct ((accumulate_cur_step s1 + 1) mod accumulate s1 =? 0);
         close_log_step; cbn [final_world];
         destruct (bookkeeping_counts bk Hbk) as (_ & _ & Hz & _);
         eexists; rewrite trace_add_events, Htr; (split; [reflexivity|]);
         (split; [destruct (ema s1); count_norm; rewrite Hz; reflexivity|]);
         (split; [cbn [app In]; tauto|]);
         intros s' w' Hret; injection Hret as Hs _; subst s'; reflexivity).
    + close_log_step. cbn [final_world].
      destruct (bookkeeping_counts bk Hbk) as (_ & _ & Hz & _).
      eexists. rewrite trace_add_events, Htr. split; [reflexivity|].
      split; [count_norm; rewrite Hz; reflexivity|].
      split; [cbn [app In]; tauto|].
      intros s' w' Hret. injection Hret as Hs _. subst s'. reflexivity.
Qed.


(** C6.  In dynamic mode the scale starts at [2 ^ 12]; every iteration of
    the StaticShape strategy that gets past warm-up calls [adjust] exactly
    once, with the finiteness flag of its gradients; from a hit-counter of
    zero the scale is unchanged by fewer than 1000 consecutive finite steps
    and doubled by the 1000th; a non-finite step halves it at once, not
    below the floor, and resets the hit-counter; and the scale never drops
    below the floor. *)
Theorem dynamic_loss_scale_adapts :
  (forall (opt : Opt) (w : World),
     opt_ms_loss_scaler opt = "dynamic"%string ->
     build_loss_scaler opt w =
     Return (Some (DynamicLossScaler (inject_Z (2 ^ 12)) 2 1000 0)) w) /\
  (forall (pc : ParallelContext) (hyp : gmap string Q) (opt : Opt) (ext : Externals)
          (i : Z) (data : Tensor * Tensor) (s s1 : Loop) (w : World) (ls : LossScaler),
     warmup opt ext i s w = Return s1 w ->
     loss_scaler s = Some ls ->
     exists ns evs,
       let g := all_finite (batch_grads pc hyp opt (Some ls) (model s) data ns) in
       let o := loop_body opt ext (inr (static_shape_step pc hyp opt)) i data s w in
       trace (final_world o) = trace w ++ evs /\
       count_events is_scaler_adjust evs = 1%nat /\
       In (ScalerAdjust g) evs /\
       forall s' w', o = Return s' w' -> loss_scaler s' = Some (adjust ls g)) /\
  (forall (v : Q) (n : nat),
     (n < 1000)%nat ->
     adjust_n n true (DynamicLossScaler v 2 1000 0) =
     DynamicLossScaler v 2 1000 (Z.of_nat n)) /\
  (forall v : Q,
     adjust_n 1000 true (DynamicLossScaler v 2 1000 0) =
     DynamicLossScaler (v * 2)%Q 2 1000 0) /\
  (forall (v : Q) (c : Z),
     adjust (DynamicLossScaler v 2 1000 c) false =
     DynamicLossScaler (Qmax scale_floor (v / 2))%Q 2 1000 0) /\
  (forall flags : list bool,
     (scale_floor <=
      scale_value_of
        (fold_left adjust flags (DynamicLossScaler (inject_Z (2 ^ 12)) 2 1000 0)))%Q).
Proof.
  split; [|split; [|split; [|split; [|split]]]].
  - intros opt w H. unfold build_loss_scaler. rewrite H. reflexivity.
  - intros. eapply adjust_once_per_iteration; eassumption.
  - intros v n Hn. rewrite adjust_n_counts by lia. reflexivity.
  - intros v. apply (adjust_n_doubles 999); [lia|reflexivity].
  - reflexivity.
  - intros flags. apply scale_stays_above_floor.
    unfold scale_floor, Qle. cbn. lia.
Qed.

(** *** Set-up and its rejections *)

Lemma quiet_ret {A} (a : A) : quiet (ret a).
Proof. intros w. exists []. cbn. rewrite app_nil_r. split; reflexivity. Qed.

Lemma quiet_raise {A} (e : exn) : quiet (@raise World A e).
Proof. intros w. exists []. cbn. rewrite app_nil_r. split; reflexivity. Qed.

Lemma quiet_assert (c : bool) (msg : string) : quiet (assert c msg).
Proof. destruct c; [apply quiet_ret|apply quiet_raise]. Qed.

Lemma quiet_print (m : message) : quiet (print m).
Proof. intros w. exists [Stdout m]. split; reflexivity. Qed.

Lemma quiet_bind {A B} (m : M World A) (k : A -> M World B) :
  quiet m -> (forall a, quiet (k a)) -> quiet (bind m k).
Proof.
  intros Hm Hk w. unfold bind. destruct (Hm w) as (evs & Htr & Hc).
  destruct (m w) as [a w1|e w1]; cbn [final_world] in Htr.
  - destruct (Hk a w1) as (evs' & Htr' & Hc').
    exists (evs ++ evs'). rewrite Htr', Htr, app_assoc, count_events_app, Hc, Hc'.
    split; reflexivity.
  - exists evs. split; assumption.
Qed.

Lemma fails_raise {A} (e : exn) : fails (@raise World A e).
Proof. intros w. reflexivity. Qed.

Lemma fails_bind_l {A B} (m : M World A) (k : A -> M World B) :
  fails m -> fails (bind m k).
Proof.
  intros Hm w. unfold bind. specialize (Hm w).
  destruct (m w); [discriminate|reflexivity].
Qed.

Lemma fails_bind_r {A B} (m : M World A) (k : A -> M World B) :
  (forall a, fails (k a)) -> fails (bind m k).
Proof.
  intros Hk w. unfold bind. destruct (m w) as [a w1|e w1]; [apply Hk|reflexivity].
Qed.

Create HintDb quiet_db.
#[local] Hint Resolve quiet_ret quiet_raise quiet_assert quiet_print : quiet_db.

Lemma quiet_load_pretrained (opt : Opt) (m : Cell) (e : option (EMA Cell Tensor)) :
  quiet (load_pretrained opt m e).
Proof.
  unfold load_pretrained.
  destruct (endswith (opt_weights opt) ".ckpt"); [|apply quiet_ret].
  apply quiet_bind; [apply quiet_print|intros _].
  destruct e as [e|]; [|apply quiet_ret].
  destruct (endswith (opt_ema_weight opt) ".ckpt").
  - apply quiet_bind.
    + destruct (load_checkpoint (opt_ema_weight opt) !! "updates"%string);
        [apply quiet_ret|].
      apply quiet_bind; [apply quiet_print|intros _; apply quiet_ret].
    + intros e'. apply quiet_bind; [apply quiet_print|intros _; apply quiet_ret].
  - apply quiet_bind; [apply quiet_print|intros _; apply quiet_ret].
Qed.

Lemma quiet_build_optimizer (opt : Opt) : quiet (build_optimizer opt).
Proof.
  unfold build_optimizer.
  repeat match goal with
         | |- context [if ?c then _ else _] => destruct c
         end; auto with quiet_db.
Qed.

Lemma quiet_build_train_step (pc : ParallelContext) (hyp : gmap string Q) (opt : Opt) :
  quiet (build_train_step pc hyp opt).
Proof.
  unfold build_train_step, create_train_static_shape_cell, build_loss_scaler.
  destruct (String.eqb (opt_ms_strategy opt) "StaticCell").
  - apply quiet_bind; [|intros; apply quiet_ret].
    apply quiet_bind; [apply quiet_assert|intros; apply quiet_ret].
  - apply quiet_bind.
    + repeat match goal with
             | |- context [if ?c then _ else _] => destruct c
             end; auto with quiet_db.
    + intros ls. destruct (String.eqb (opt_ms_strategy opt) "StaticShape");
        auto with quiet_db.
Qed.

Lemma quiet_setup (rank_size : Z) (pc : ParallelContext) (hyp : gmap string Q)
    (opt : Opt) (data_dict : DataDict) (ext : Externals) :
  quiet (setup rank_size pc hyp opt data_dict ext).
Proof.
  unfold setup.
  apply quiet_bind; [apply quiet_assert|intros _].
  apply quiet_bind; [apply quiet_load_pretrained|intros [m e]].
  apply quiet_bind.
  { unfold freeze_list. destruct (opt_freeze opt) as [|n [|n' l]]; auto with quiet_db. }
  intros fr.
  apply quiet_bind; [apply quiet_assert|intros _].
  apply quiet_bind.
  { repeat match goal with
           | |- context [if ?c then _ else _] => destruct c
           end; auto with quiet_db. }
  intros _.
  apply quiet_bind; [apply quiet_print|intros _].
  apply quiet_bind; [apply quiet_build_optimizer|intros o].
  apply quiet_bind; [apply quiet_build_train_step|intros [ts ls]].
  apply quiet_ret.
Qed.

Lemma setup_rejects_optimizer (rank_size : Z) (pc : ParallelContext)
    (hyp : gmap string Q) (opt : Opt) (data_dict : DataDict) (ext : Externals) :
  opt_optimizer opt <> "sgd"%string ->
  opt_optimizer opt <> "momentum"%string ->
  opt_optimizer opt <> "adam"%string ->
  fails (setup rank_size pc hyp opt data_dict ext).
Proof.
  intros H1 H2 H3. unfold setup.
  apply fails_bind_r; intros _.
  apply fails_bind_r; intros [m e].
  apply fails_bind_r; intros fr.
  apply fails_bind_r; intros _.
  apply fails_bind_r; intros _.
  apply fails_bind_r; intros _.
  apply fails_bind_l. unfold build_optimizer.
  apply String.eqb_neq in H1, H2, H3. rewrite H1, H2, H3.
  destruct (String.eqb (opt_optimizer opt) "thor"); apply fails_raise.
Qed.

Lemma setup_rejects_strategy (rank_size : Z) (pc : ParallelContext)
    (hyp : gmap string Q) (opt : Opt) (data_dict : DataDict) (ext : Externals) :
  opt_ms_strategy opt <> "StaticCell"%string ->
  opt_ms_strategy opt <> "StaticShape"%string ->
  fails (setup rank_size pc hyp opt data_dict ext).
Proof.
  intros H1 H2. unfold setup.
  apply fails_bind_r; intros _.
  apply fails_bind_r; intros [m e].
  apply fails_bind_r; intros fr.
  apply fails_bind_r; intros _.
  apply fails_bind_r; intros _.
  apply fails_bind_r; intros _.
  apply fails_bind_r; intros o.
  apply fails_bind_l. unfold build_train_step.
  apply String.eqb_neq in H1, H2. rewrite H1, H2.
  apply fails_bind_r; intros ls. apply fails_raise.
Qed.

Lemma train_stops_at_setup (rank_size : Z) (pc : ParallelContext)
    (hyp : gmap string Q) (opt : Opt) (data_dict : DataDict) (ext : Externals)
    (data_loader : list (Tensor * Tensor)) (w : World) :
  fails (setup rank_size pc hyp opt data_dict ext) ->
  exists e w',
    train rank_size pc hyp opt data_dict ext data_loader w = Raise e w' /\
    count_events is_train_step_call (trace w') =
    count_events is_train_step_call (trace w).
Proof.
  intros Hf. unfold train, bind at 1. cbn [set_seed].
  set (w0 := {| trace := trace w; np_rng := np_random_seed default_seed;
                py_rng := random_seed default_seed;
                ms_rng := ms_set_seed default_seed |}).
  specialize (Hf w0).
  destruct (quiet_setup rank_size pc hyp opt data_dict ext w0) as (evs & Htr & Hc).
  unfold bind.
  destruct (setup rank_size pc hyp opt data_dict ext w0) as [r w1|e w1];
    [discriminate|].
  exists e, w1. split; [reflexivity|].
  cbn [final_world] in Htr. rewrite Htr, count_events_app, Hc. cbn [trace w0]. lia.
Qed.

(** The first warm-up iteration runs with accumulation target 1. *)
Lemma warmup_starts_at_one (opt : Opt) (ext : Externals) :
  0 < ext_warmup_steps ext -> warmup_accumulate opt ext 0 = 1.
Proof. intros _. reflexivity. Qed.

(** C8 (amended).  An optimizer other than sgd, momentum and adam, or a
    strategy other than StaticCell and StaticShape, makes [train] raise
    during set-up, before any call of the step function.  An accumulation
    target other than 1 under the StaticCell strategy is rejected inside
    the loop: the iteration in which the target is not 1 raises the
    assertion error before its own call of the step function; a run with
    warm-up starts at target 1, so its first iteration is not rejected. *)
Theorem unsupported_configurations_rejected :
  (forall (rank_size : Z) (pc : ParallelContext) (hyp : gmap string Q) (opt : Opt)
          (data_dict : DataDict) (ext : Externals)
          (data_loader : list (Tensor * Tensor)) (w : World),
     opt_optimizer opt <> "sgd"%string ->
     opt_optimizer opt <> "momentum"%string ->
     opt_optimizer opt <> "adam"%string ->
     exists e w',
       train rank_size pc hyp opt data_dict ext data_loader w = Raise e w' /\
       count_events is_train_step_call (trace w') =
       count_events is_train_step_call (trace w)) /\
  (forall (rank_size : Z) (pc : ParallelContext) (hyp : gmap string Q) (opt : Opt)
          (data_dict : DataDict) (ext : Externals)
          (data_loader : list (Tensor * Tensor)) (w : World),
     opt_ms_strategy opt <> "StaticCell"%string ->
     opt_ms_strategy opt <> "StaticShape"%string ->
     exists e w',
       train rank_size pc hyp opt data_dict ext data_loader w = Raise e w' /\
       count_events is_train_step_call (trace w') =
       count_events is_train_step_call (trace w)) /\
  (forall (opt : Opt) (ext : Externals) (cell : CellStep) (i : Z)
          (data : Tensor * Tensor) (s s1 : Loop) (w : World),
     warmup opt ext i s w = Return s1 w ->
     accumulate s1 <> 1 ->
     exists w',
       loop_body opt ext (inl cell) i data s w =
       Raise (AssertionError "Grad Accumulate must be 1 when train with StaticCell.") w' /\
       trace w' = trace w) /\
  (forall (opt : Opt) (ext : Externals) (s : Loop) (w : World),
     0 < ext_warmup_steps ext ->
     forall s1, warmup opt ext 0 s w = Return s1 w -> accumulate s1 = 1).
Proof.
  split; [|split; [|split]].
  - intros. apply train_stops_at_setup. apply setup_rejects_optimizer; assumption.
  - intros. apply train_stops_at_setup. apply setup_rejects_strategy; assumption.
  - intros opt ext cell i data s s1 w Hw Hacc.
    unfold loop_body. unfold bind at 1. rewrite Hw.
    destruct (multi_scale_returns opt ext (as_dtype (input_dtype opt) (fst data)) w)
      as (ns & w1 & Hms & Htr).
    unfold bind at 1. rewrite Hms. unfold bind at 1.
    unfold static_cell_branch. unfold bind at 1.
    destruct (Z.eqb_spec (accumulate s1) 1) as [|_]; [contradiction|].
    cbn. exists w1. split; [reflexivity|exact Htr].
  - intros opt ext s w HW s1 Hw.
    destruct (warmup_keeps opt ext 0 s s1 w Hw) as (_ & _ & _ & _ & _ & Ha).
    rewrite Ha. destruct (Z.ltb_spec 0 (ext_warmup_steps ext)); [|lia].
    apply warmup_starts_at_one. exact HW.
Qed.

(** *** The EMA checkpoint *)

(** C9.  With pretrained weights and an EMA checkpoint that holds no
    "updates" entry, the load returns normally: the shadow network is the
    one loaded from the checkpoint, the update counter is the one the
    tracker had, and the only additional output is the line that reports
    the missing entry, between the two lines that report the loads. *)
Theorem ema_checkpoint_without_updates (opt : Opt) (m : Cell) (e : EMA Cell Tensor)
    (w : World) :
  endswith (opt_weights opt) ".ckpt" = true ->
  endswith (opt_ema_weight opt) ".ckpt" = true ->
  load_checkpoint (opt_ema_weight opt) !! "updates"%string = None ->
  load_pretrained opt m (Some e) w =
  Return (load_param_into_net m (load_checkpoint (opt_weights opt)),
          Some {| ema_model := load_param_into_net (ema_model e)
                                 (load_checkpoint (opt_ema_weight opt));
                  updates := updates e |})
         (add_events w [Stdout (MsgPretrainLoad (opt_weights opt));
                        Stdout (MsgUpdatesMiss (opt_ema_weight opt));
                        Stdout (MsgEmaPretrainLoad (opt_ema_weight opt))]).
Proof.
  intros Hw He Hu. unfold load_pretrained. rewrite Hw, He, Hu.
  run. reflexivity.
Qed.

(** *** Seeding *)

(** C10.  [train] seeds the three generators with the constant 2, whatever
    the command line; its whole outcome, and so the image sizes of the
    successive steps, does not depend on the state the generators were in
    when it was called. *)
Theorem seeding_fixed_and_reproducible :
  (forall w : World,
     exists w', set_seed default_seed w = Return tt w' /\
                np_rng w' = np_random_seed 2 /\
                py_rng w' = random_seed 2 /\
                ms_rng w' = ms_set_seed 2 /\
                trace w' = trace w) /\
  (forall (rank_size : Z) (pc : ParallelContext) (hyp : gmap string Q) (opt : Opt)
          (data_dict : DataDict) (ext : Externals)
          (data_loader : list (Tensor * Tensor)) (w : World)
          (g_np : NpRng) (g_py : PyRng) (g_ms : MsRng),
     train rank_size pc hyp opt data_dict ext data_loader (with_rngs w g_np g_py g_ms) =
     train rank_size pc hyp opt data_dict ext data_loader w /\
     sizes_of (trace (final_world
        (train rank_size pc hyp opt data_dict ext data_loader
               (with_rngs w g_np g_py g_ms)))) =
     sizes_of (trace (final_world
        (train rank_size pc hyp opt data_dict ext data_loader w)))).
Proof.
  split.
  - intros w. eexists. split; [reflexivity|]. cbn. repeat split.
  - intros. assert (H : train rank_size pc hyp opt data_dict ext data_loader
                          (with_rngs w g_np g_py g_ms) =
                        train rank_size pc hyp opt data_dict ext data_loader w)
      by reflexivity.
    split; [exact H|]. rewrite H. reflexivity.
Qed.


(** *** The immediate-update path and the EMA tracker *)

(** With finite gradients the immediate-update path calls the optimizer once
    and, with EMA enabled, the EMA update once. *)
Lemma immediate_finite_iteration (pc : ParallelContext) (hyp : gmap string Q)
    (opt : Opt) (ext : Externals) (i : Z) (data : Tensor * Tensor)
    (s s1 : Loop) (w : World) :
  warmup opt ext i s w = Return s1 w ->
  accumulate s1 = 1 ->
  (forall ns, all_finite (batch_grads pc hyp opt (loss_scaler s) (model s) data ns)
              = true) ->
  exists s' w' evs,
    loop_body opt ext (inr (static_shape_step pc hyp opt)) i data s w = Return s' w' /\
    trace w' = trace w ++ evs /\
    count_events is_optimizer_call evs = 1%nat /\
    count_events is_ema_update evs = match ema s with Some _ => 1 | None => 0 end%nat.
Proof.
  intros Hw Hacc Hf.
  destruct (immediate_iteration pc hyp opt ext i data s s1 w Hw Hacc)
    as (ns & bk & w1 & Htr & Hbk & Hrun).
  cbn zeta in Hrun. rewrite Hf in Hrun. cbn [orb] in Hrun.
  destruct (bookkeeping_counts bk Hbk) as (Hz1 & Hz2 & _).
  eexists _, _, _. split; [exact Hrun|].
  rewrite trace_add_events, Htr. split; [reflexivity|].
  unfold update_events. rewrite Hf.
  split; destruct (loss_scaler s), (ema s); count_norm; rewrite ?Hz1, ?Hz2; reflexivity.
Qed.

(** With non-finite gradients and the still-update flag unset, the
    immediate-update path drops the optimizer update and nevertheless runs
    the EMA update. *)
Lemma immediate_dropped_iteration_updates_ema (pc : ParallelContext)
    (hyp : gmap string Q) (opt : Opt) (ext : Externals) (i : Z)
    (data : Tensor * Tensor) (s s1 : Loop) (w : World) (e : EMA Cell Tensor) :
  warmup opt ext i s w = Return s1 w ->
  accumulate s1 = 1 ->
  opt_overflow_still_update opt = false ->
  ema s = Some e ->
  (forall ns, all_finite (batch_grads pc hyp opt (loss_scaler s) (model s) data ns)
              = false) ->
  exists s' w' evs,
    loop_body opt ext (inr (static_shape_step pc hyp opt)) i data s w = Return s' w' /\
    trace w' = trace w ++ evs /\
    count_events is_optimizer_call evs = 0%nat /\
    count_events is_ema_update evs = 1%nat /\
    model s' = model s /\
    ema s' = Some (EMA_update e (model s)).
Proof.
  intros Hw Hacc Hflag He Hnf.
  destruct (immediate_iteration pc hyp opt ext i data s s1 w Hw Hacc)
    as (ns & bk & w1 & Htr & Hbk & Hrun).
  cbn zeta in Hrun. rewrite Hnf, Hflag, He in Hrun. cbn [orb option_map] in Hrun.
  destruct (bookkeeping_counts bk Hbk) as (Hz1 & Hz2 & _).
  eexists _, _, _. split; [exact Hrun|].
  rewrite trace_add_events, Htr. split; [reflexivity|].
  unfold update_events. rewrite Hnf.
  repeat split; destruct (loss_scaler s); count_norm; rewrite ?Hz1, ?Hz2; reflexivity.
Qed.

(** Under the StaticCell strategy an overflowing step leaves the EMA
    tracker alone. *)
Lemma static_cell_overflow_skips_ema (opt : Opt) (ext : Externals) (cell : CellStep)
    (i : Z) (data : Tensor * Tensor) (s s1 : Loop) (w : World) :
  warmup opt ext i s w = Return s1 w ->
  accumulate s1 = 1 ->
  (forall ns, snd (fst (fst (cell (optimizer s1) (model s)
                               (as_dtype (input_dtype opt) (fst data))
                               (as_dtype (input_dtype opt) (snd data)) ns))) = true) ->
  exists s' w' evs,
    loop_body opt ext (inl cell) i data s w = Return s' w' /\
    trace w' = trace w ++ evs /\
    count_events is_ema_update evs = 0%nat /\
    ema s' = ema s.
Proof.
  intros Hw Hacc Hov.
  destruct (warmup_keeps opt ext i s s1 w Hw) as (Hm & He & _).
  unfold loop_body. unfold bind at 1. rewrite Hw.
  destruct (multi_scale_returns opt ext (as_dtype (input_dtype opt) (fst data)) w)
    as (ns & w1 & Hms & Htr).
  unfold bind at 1. rewrite Hms. unfold bind at 1.
  unfold static_cell_branch. rewrite Hacc, Hm, He. cbn [Z.eqb Pos.eqb assert].
  unfold bind at 1. unfold ret at 1. unfold bind at 1. rewrite emit_eq.
  specialize (Hov ns).
  destruct (cell (optimizer s1) (model s) (as_dtype (input_dtype opt) (fst data))
              (as_dtype (input_dtype opt) (snd data)) ns)
    as [[[loss overflow] loss_scale] m'].
  cbn [fst snd] in Hov. subst overflow. run.
  close_log_step.
  destruct (bookkeeping_counts bk Hbk) as (_ & Hz & _).
  eexists _, _, _. split; [reflexivity|].
  rewrite trace_add_events, Htr. split; [reflexivity|].
  split; [count_norm; rewrite Hz; reflexivity|reflexivity].
Qed.

(** *** The factor on the loss *)

(** The loss that [forward_func] returns is the composite loss times the
    [rank_size] it was built with. *)
Lemma forward_loss_scaled (hyp : gmap string Q) (rank_size : Z) (m : Cell)
    (x l : Tensor) (ns : option (list Z)) :
  let x' := match ns with
            | Some sz => ops_interpolate (tensor_div x 255) sz
            | None => tensor_div x 255
            end in
  let pred := model_forward m x' in
  fst (forward_func hyp rank_size m x l ns) =
  tensor_mul (fst (if use_ota hyp then ComputeLossOTA m pred l x'
                   else ComputeLoss m pred l)) rank_size.
Proof.
  unfold forward_func. destruct ns as [sz|];
    destruct (use_ota hyp);
    match goal with
    | |- context [let '(_, _) := ?c in _] => destruct c
    end; reflexivity.
Qed.

(** The step function [train] builds does not depend on the number of
    workers that [__main__] recorded in [opt]. *)
Lemma step_function_ignores_worker_count (pc : ParallelContext) (hyp : gmap string Q)
    (opt : Opt) (batch_size total_batch_size rank_size rank : Z) :
  static_shape_step pc hyp
    (with_distribution opt batch_size total_batch_size rank_size rank) =
  static_shape_step pc hyp opt.
Proof. reflexivity. Qed.

(** *** Python arithmetic *)

Lemma round_half_even_bounds (q : Q) :
  Qfloor q <= round_half_even q <= Qfloor q + 1.
Proof.
  unfold round_half_even.
  destruct (Qcompare _ _); [destruct (Z.even _)| |]; lia.
Qed.

Lemma round_half_even_comp (q1 q2 : Q) :
  (q1 == q2)%Q -> round_half_even q1 = round_half_even q2.
Proof.
  intros H. unfold round_half_even. rewrite (Qfloor_comp _ _ H).
  replace ((q1 - inject_Z (Qfloor q2) ?= 1 # 2)%Q)
    with ((q2 - inject_Z (Qfloor q2) ?= 1 # 2)%Q); [reflexivity|].
  apply Qcompare_comp; [rewrite H; reflexivity|reflexivity].
Qed.

Lemma round_half_even_Z (n : Z) : round_half_even (inject_Z n) = n.
Proof.
  unfold round_half_even. rewrite Qfloor_Z.
  destruct (Qcompare_spec (inject_Z n - inject_Z n) (1 # 2)) as [H|H|H].
  - exfalso. assert (E : (inject_Z n - inject_Z n == 0)%Q) by ring.
    rewrite E in H. discriminate H.
  - reflexivity.
  - exfalso. assert (E : (inject_Z n - inject_Z n == 0)%Q) by ring.
    rewrite E in H. discriminate H.
Qed.

Lemma round_half_even_mono (q1 q2 : Q) :
  (q1 <= q2)%Q -> round_half_even q1 <= round_half_even q2.
Proof.
  intros H.
  pose proof (Qfloor_resp_le _ _ H) as Hf.
  pose proof (round_half_even_bounds q1) as B1.
  pose proof (round_half_even_bounds q2) as B2.
  destruct (Z.eq_dec (Qfloor q1) (Qfloor q2)) as [E|E]; [|lia].
  unfold round_half_even in *. rewrite E in *.
  destruct (Qcompare_spec (q1 - inject_Z (Qfloor q2)) (1 # 2)) as [H1|H1|H1];
    destruct (Qcompare_spec (q2 - inject_Z (Qfloor q2)) (1 # 2)) as [H2|H2|H2];
    try destruct (Z.even (Qfloor q2)); try lia; exfalso; lra.
Qed.

(** The interpolation of the warm-up block, with end values 1 and [r]. *)
Lemma np_interp_between (x W r : Q) :
  (1 <= r)%Q -> (1 <= np_interp x 0 W 1 r <= r)%Q.
Proof.
  intros Hr. unfold np_interp.
  destruct (Qle_bool x 0) eqn:E0; [lra|].
  destruct (Qle_bool W x) eqn:E1; [lra|].
  assert (H0 : (0 < x)%Q).
  { apply Qnot_le_lt. intros C. apply Qle_bool_iff in C. congruence. }
  assert (H1 : (x < W)%Q).
  { apply Qnot_le_lt. intros C. apply Qle_bool_iff in C. congruence. }
  assert (Hd : (0 <= (r - 1) / (W - 0))%Q).
  { apply Qle_shift_div_l; lra. }
  assert (Hm : ((r - 1) / (W - 0) * (W - 0) == r - 1)%Q).
  { field. lra. }
  assert (Hx : ((r - 1) / (W - 0) * (x - 0) <= (r - 1) / (W - 0) * (W - 0))%Q).
  { rewrite !(Qmult_comm ((r - 1) / (W - 0))). apply Qmult_le_compat_r; lra. }
  assert (Hp : (0 <= (r - 1) / (W - 0) * (x - 0))%Q).
  { apply Qmult_le_0_compat; lra. }
  lra.
Qed.

Lemma np_interp_mono (x x' W r : Q) :
  (1 <= r)%Q -> (x <= x')%Q ->
  (np_interp x 0 W 1 r <= np_interp x' 0 W 1 r)%Q.
Proof.
  intros Hr Hx.
  pose proof (np_interp_between x W r Hr) as B.
  pose proof (np_interp_between x' W r Hr) as B'.
  unfold np_interp in *.
  destruct (Qle_bool x 0) eqn:E0; [lra|].
  assert (H0 : (0 < x)%Q).
  { apply Qnot_le_lt. intros C. apply Qle_bool_iff in C. congruence. }
  destruct (Qle_bool x' 0) eqn:E0'.
  { apply Qle_bool_iff in E0'. lra. }
  destruct (Qle_bool W x') eqn:E1'; [destruct (Qle_bool W x); lra|].
  assert (H1' : (x' < W)%Q).
  { apply Qnot_le_lt. intros C. apply Qle_bool_iff in C. congruence. }
  destruct (Qle_bool W x) eqn:E1.
  { apply Qle_bool_iff in E1. lra. }
  assert (Hd : (0 <= (r - 1) / (W - 0))%Q).
  { apply Qle_shift_div_l; lra. }
  assert (Hm : ((r - 1) / (W - 0) * (x - 0) <= (r - 1) / (W - 0) * (x' - 0))%Q).
  { rewrite !(Qmult_comm ((r - 1) / (W - 0))). apply Qmult_le_compat_r; lra. }
  lra.
Qed.

Lemma np_interp_le_one (x W r : Q) :
  (r <= 1)%Q -> (np_interp x 0 W 1 r <= 1)%Q.
Proof.
  intros Hr. unfold np_interp.
  destruct (Qle_bool x 0) eqn:E0; [lra|].
  destruct (Qle_bool W x) eqn:E1; [lra|].
  assert (H0 : (0 < x)%Q).
  { apply Qnot_le_lt. intros C. apply Qle_bool_iff in C. congruence. }
  assert (H1 : (x < W)%Q).
  { apply Qnot_le_lt. intros C. apply Qle_bool_iff in C. congruence. }
  assert (Hd : (0 <= (1 - r) / (W - 0))%Q).
  { apply Qle_shift_div_l; lra. }
  assert (Hp : (0 <= (1 - r) / (W - 0) * (x - 0))%Q).
  { apply Qmult_le_0_compat; lra. }
  assert (He : ((r - 1) / (W - 0) * (x - 0) == - ((1 - r) / (W - 0) * (x - 0)))%Q).
  { field. lra. }
  lra.
Qed.

(** The warm-up target. *)
Lemma warmup_accumulate_ge_one (opt : Opt) (ext : Externals) (i : Z) :
  1 <= warmup_accumulate opt ext i.
Proof. unfold warmup_accumulate. lia. Qed.

Lemma warmup_accumulate_small_ratio (opt : Opt) (ext : Externals) (i : Z) :
  (nbs_ratio opt <= 1)%Q -> warmup_accumulate opt ext i = 1.
Proof.
  intros Hr. unfold warmup_accumulate.
  pose proof (round_half_even_mono _ _
                (np_interp_le_one (inject_Z i) (inject_Z (ext_warmup_steps ext)) _ Hr)) as H.
  change 1%Q with (inject_Z 1) in H at 2. rewrite round_half_even_Z in H. lia.
Qed.

Lemma warmup_accumulate_mono (opt : Opt) (ext : Externals) (i j : Z) :
  i <= j -> warmup_accumulate opt ext i <= warmup_accumulate opt ext j.
Proof.
  intros Hij.
  destruct (Qlt_le_dec 1 (nbs_ratio opt)) as [Hr|Hr].
  - unfold warmup_accumulate. apply Z.max_le_compat_l.
    apply round_half_even_mono. apply np_interp_mono; [lra|].
    rewrite <- Zle_Qle. exact Hij.
  - rewrite !warmup_accumulate_small_ratio by exact Hr. lia.
Qed.

Lemma warmup_accumulate_le_nominal (opt : Opt) (ext : Externals) (i : Z) :
  warmup_accumulate opt ext i <= Z.max (round_half_even (nbs_ratio opt)) 1.
Proof.
  destruct (Qlt_le_dec 1 (nbs_ratio opt)) as [Hr|Hr].
  - unfold warmup_accumulate.
    assert (H : round_half_even (np_interp (inject_Z i) 0
                   (inject_Z (ext_warmup_steps ext)) 1 (nbs_ratio opt))
                <= round_half_even (nbs_ratio opt)).
    { apply round_half_even_mono. apply np_interp_between. lra. }
    lia.
  - rewrite warmup_accumulate_small_ratio by exact Hr. lia.
Qed.

(** *** An iteration, event by event *)

Lemma log_step_eq (opt : Opt) (ext : Externals) (i : Z) (imgs : Tensor)
    (ns : option (list Z)) (s' : Loop) (x : Tensor * option Tensor) (w : World) :
  log_step opt ext i imgs ns (s', x) w =
  Return s' (add_events w (log_events opt ext i imgs ns s' x)).
Proof.
  unfold log_step, save_checkpoints, log_events, save_events.
  destruct x as [loss [li|]]; cbn [fst snd];
    unfold bind; rewrite !print_eq;
    destruct ((i + 1) mod ext_per_epoch_size ext =? 0);
    destruct (opt_rank opt mod 8 =? 0); cbn [andb];
    try destruct (ema s');
    unfold ret, bind; rewrite ?print_eq, ?emit_eq, ?add_events_app;
    reflexivity.
Qed.

(** Equal lists of events, up to the nesting of [++]. *)
Ltac norm_app :=
  repeat first [ rewrite <- app_assoc | progress cbn [app] ]; reflexivity.

Lemma step_events_app (t1 t2 : list event) :
  forallb is_step_event t1 = true -> forallb is_step_event t2 = true ->
  forallb is_step_event (t1 ++ t2) = true.
Proof. intros H1 H2. rewrite forallb_app, H1, H2. reflexivity. Qed.

Lemma update_events_step (b : bool) (grads : list Tensor) :
  forallb is_step_event (update_events b grads) = true.
Proof. unfold update_events. destruct (all_finite grads), b; reflexivity. Qed.

Lemma ema_events_step (e : option (EMA Cell Tensor)) :
  forallb is_step_event (ema_events e) = true.
Proof. destruct e; reflexivity. Qed.

Lemma adjust_events_step (ls : option LossScaler) (g : bool) :
  forallb is_step_event (adjust_events ls g) = true.
Proof. destruct ls; reflexivity. Qed.

Lemma overflow_adjust_events_step (ls : option LossScaler) (g : bool) :
  forallb is_step_event (overflow_adjust_events ls g) = true.
Proof. destruct ls, g; reflexivity. Qed.

Lemma drop_event_step (ls : option LossScaler) (ep st : Z) :
  is_step_event (drop_event ls ep st) = true.
Proof. destruct ls; reflexivity. Qed.

(** The world of an iteration: what either step function of [train] leaves
    in the trace.  [w1] is the world after the multi-scale block. *)
Lemma iteration_events (pc : ParallelContext) (hyp : gmap string Q) (opt : Opt)
    (ext : Externals) (train_step : CellStep + FnStep) (i : Z)
    (data : Tensor * Tensor) (s : Loop) (w : World) :
  driver_step pc hyp opt train_step ->
  exists ns w1 pre,
    multi_scale opt ext (as_dtype (input_dtype opt) (fst data)) w = Return ns w1 /\
    forallb is_step_event pre = true /\
    match loop_body opt ext train_step i data s w with
    | Return s' w' =>
        exists x,
          w' = add_events w1
                 (TrainStepCall ns :: pre ++
                  log_events opt ext i (as_dtype (input_dtype opt) (fst data)) ns s' x)
    | Raise e w' =>
        w' = w \/ w' = w1 \/ w' = add_events w1 (TrainStepCall ns :: pre)
    end.
Proof.
  intros Hts.
  destruct (multi_scale_returns opt ext (as_dtype (input_dtype opt) (fst data)) w)
    as (ns & w1 & Hms & Htr).
  exists ns, w1.
  cut (exists pre,
         forallb is_step_event pre = true /\
         match loop_body opt ext train_step i data s w with
         | Return s' w' =>
             exists x,
               w' = add_events w1
                      (TrainStepCall ns :: pre ++
                       log_events opt ext i (as_dtype (input_dtype opt) (fst data))
                                  ns s' x)
         | Raise e w' =>
             w' = w \/ w' = w1 \/ w' = add_events w1 (TrainStepCall ns :: pre)
         end).
  { intros (pre & H1 & H2). exists pre. split; [exact Hms|]. split; assumption. }
  destruct (warmup_cases opt ext i s w) as [Hw|(s1 & Hw & _)].
  { exists []. split; [reflexivity|].
    unfold loop_body. unfold bind at 1. rewrite Hw. left. reflexivity. }
  destruct train_step as [cell|fn].
  - (* the cell *)
    unfold loop_body. unfold bind at 1. rewrite Hw.
    unfold bind at 1. rewrite Hms. unfold bind at 1.
    unfold static_cell_branch. unfold bind at 1. unfold assert.
    destruct (accumulate s1 =? 1).
    2:{ exists []. split; [reflexivity|].
        cbn. right. left. reflexivity. }
    unfold ret at 1. unfold bind at 1. rewrite emit_eq.
    destruct (cell (optimizer s1) (model s1) (as_dtype (input_dtype opt) (fst data))
                (as_dtype (input_dtype opt) (snd data)) ns)
      as [[[loss overflow] loss_scale] m'].
    destruct overflow.
    + eexists [_]. split; cycle 1.
      * run. rewrite log_step_eq, add_events_app. cbn [app].
        eexists. reflexivity.
      * reflexivity.
    + exists (ema_events (ema s1)).
      split; [apply ema_events_step|].
      destruct (ema s1) as [e|]; run; rewrite log_step_eq, ?add_events_app; cbn [app ema_events];
        eexists; reflexivity.
  - (* the closure *)
    cbn [driver_step] in Hts. subst fn.
    rewrite loop_body_fn_eq, Hw, Hms. unfold bind.
    destruct (accumulate s1 =? 1).
    + rewrite immediate_branch_eq. rewrite log_step_eq, add_events_app.
      cbn beta iota zeta.
      set (res := step_result pc hyp opt (loss_scaler s1) (model s1)
                    (as_dtype (input_dtype opt) (fst data))
                    (as_dtype (input_dtype opt) (snd data)) ns).
      exists (update_events (opt_overflow_still_update opt) (res_grads res) ++
              ema_events (ema s1) ++
              adjust_events (loss_scaler s1) (res_grads_finite res) ++
              overflow_adjust_events
                (option_map (fun ls => adjust ls (res_grads_finite res)) (loss_scaler s1))
                (res_grads_finite res)).
      split.
      * repeat apply step_events_app; auto using update_events_step, ema_events_step,
          adjust_events_step, overflow_adjust_events_step.
      * eexists; first [reflexivity | f_equal; norm_app].
    + rewrite accumulate_branch_eq.
      set (res := step_result pc hyp opt (loss_scaler s1) (model s1)
                    (as_dtype (input_dtype opt) (fst data))
                    (as_dtype (input_dtype opt) (snd data)) ns).
      destruct (res_grads_finite res).
      * assert (Hcases :
          (exists acc, forall w0 : World,
             add_grads (accumulate_grads s1) (res_grads res) w0 = Return acc w0) \/
          (forall w0 : World,
             add_grads (accumulate_grads s1) (res_grads res) w0 =
             Raise (AssertionError "") w0)).
        { destruct (accumulate_grads s1) as [[|a rest]|] eqn:Eb;
            [left; eexists; intros; rewrite add_grads_cases; reflexivity|
            |left; eexists; intros; rewrite add_grads_cases; reflexivity].
          destruct (length (a :: rest) =? length (res_grads res))%nat eqn:El;
            [left; eexists; intros; rewrite add_grads_cases, El; reflexivity
            |right; intros; rewrite add_grads_cases, El; reflexivity]. }
        destruct Hcases as [(acc & Hacc)|Hr].
        -- rewrite Hacc.
           destruct ((accumulate_cur_step s1 + 1) mod accumulate s1 =? 0).
           ++ cbn beta iota zeta. rewrite log_step_eq, !add_events_app.
              exists (adjust_events (loss_scaler s1) true ++
                      OptimizerCall acc :: ema_events (ema s1) ++
                      [Stdout (MsgAccumulateSuccess (i / ext_per_epoch_size ext + 1)
                                 (i mod ext_per_epoch_size ext + 1))]).
              split.
              ** apply step_events_app; [apply adjust_events_step|].
                 cbn [forallb is_step_event andb].
                 apply step_events_app; [apply ema_events_step|reflexivity].
              ** eexists; first [reflexivity | f_equal; norm_app].
           ++ rewrite log_step_eq, !add_events_app.
              exists (adjust_events (loss_scaler s1) true).
              split; [apply adjust_events_step|].
              eexists; first [reflexivity | f_equal; norm_app].
        -- rewrite Hr. exists (adjust_events (loss_scaler s1) true).
           split; [apply adjust_events_step|].
           right. right. reflexivity.
      * rewrite log_step_eq, !add_events_app.
        exists (adjust_events (loss_scaler s1) false ++
                [drop_event (option_map (fun ls => adjust ls false) (loss_scaler s1))
                   (i / ext_per_epoch_size ext + 1) (i mod ext_per_epoch_size ext + 1)]).
        split.
        -- apply step_events_app; [apply adjust_events_step|].
           cbn [forallb]. rewrite drop_event_step. reflexivity.
        -- eexists; first [reflexivity | f_equal; norm_app].
Qed.

(** *** The loop state after an iteration *)

Lemma bind_log_step_inv (opt : Opt) (ext : Externals) (i : Z) (imgs : Tensor)
    (ns : option (list Z)) (m : M World (Loop * (Tensor * option Tensor)))
    (w w' : World) (s' : Loop) :
  bind m (log_step opt ext i imgs ns) w = Return s' w' ->
  exists x w0, m w = Return (s', x) w0.
Proof.
  unfold bind. destruct (m w) as [[s2 x] w0|e w0]; [|discriminate].
  rewrite log_step_eq. intros H. injection H as <- _. eauto.
Qed.

Lemma add_grads_world (acc : option (list Tensor)) (grads : list Tensor) (w : World) :
  (exists a, add_grads acc grads w = Return a w) \/
  add_grads acc grads w = Raise (AssertionError "") w.
Proof.
  rewrite add_grads_cases. destruct acc as [[|a rest]|]; eauto.
  destruct (length (a :: rest) =? length grads)%nat; eauto.
Qed.

Lemma static_cell_branch_state (cell : CellStep) (ep st : Z) (imgs labels : Tensor)
    (ns : option (list Z)) (s s' : Loop) (x : Tensor * option Tensor) (w w' : World) :
  static_cell_branch cell ep st imgs labels ns s w = Return (s', x) w' ->
  accumulate s = 1 /\ accumulate s' = accumulate s /\
  accumulate_cur_step s' = accumulate_cur_step s /\
  accumulate_grads s' = accumulate_grads s /\
  (ema s' = None <-> ema s = None) /\
  optimizer s' = optimizer s /\ loss_scaler s' = loss_scaler s.
Proof.
  unfold static_cell_branch, assert. unfold bind at 1.
  destruct (Z.eqb_spec (accumulate s) 1) as [E|E]; [|discriminate].
  unfold ret at 1. unfold bind at 1. rewrite emit_eq.
  destruct (cell (optimizer s) (model s) imgs labels ns)
    as [[[loss overflow] loss_scale] m'].
  destruct overflow; [|destruct (ema s) as [e|]]; run;
    intros H; injection H as <- _ _; cbn; repeat split; congruence.
Qed.

Lemma immediate_branch_state (fn : FnStep) (imgs labels : Tensor)
    (ns : option (list Z)) (s s' : Loop) (x : Tensor * option Tensor) (w w' : World) :
  immediate_branch fn imgs labels ns s w = Return (s', x) w' ->
  accumulate s' = accumulate s /\
  accumulate_cur_step s' = accumulate_cur_step s /\
  accumulate_grads s' = accumulate_grads s /\
  (ema s' = None <-> ema s = None) /\
  optimizer s' = optimizer s /\
  (loss_scaler s' = None <-> loss_scaler s = None).
Proof.
  unfold immediate_branch. unfold bind at 1. rewrite emit_eq. cbn beta iota.
  unfold bind at 1.
  destruct (fn (loss_scaler s) (optimizer s) (model s) imgs labels ns true _)
    as [[res m'] w2|e w2]; [|discriminate].
  destruct (ema s) as [e|]; destruct (loss_scaler s) as [ls|];
    destruct (res_grads_finite res); run;
    intros H; injection H as <- _ _; cbn; repeat split; congruence.
Qed.

Lemma accumulate_branch_state (fn : FnStep) (ep st : Z) (imgs labels : Tensor)
    (ns : option (list Z)) (s s' : Loop) (x : Tensor * option Tensor) (w w' : World) :
  accumulate_branch fn ep st imgs labels ns s w = Return (s', x) w' ->
  accumulate s' = accumulate s /\
  (ema s' = None <-> ema s = None) /\
  optimizer s' = optimizer s /\
  (loss_scaler s' = None <-> loss_scaler s = None) /\
  (window_ok (accumulate s) s -> window_ok (accumulate s) s').
Proof.
  unfold accumulate_branch. unfold bind at 1. rewrite emit_eq. cbn beta iota.
  unfold bind at 1.
  destruct (fn (loss_scaler s) (optimizer s) (model s) imgs labels ns false _)
    as [[res m'] w2|e w2]; [|discriminate].
  cbn beta iota.
  assert (Hls : forall (A : Type) (k : option LossScaler -> M World A),
             bind (match loss_scaler s with
                   | Some ls => ls' <- call_adjust ls (res_grads_finite res) ;;
                                ret (Some ls')
                   | None => ret None
                   end) k w2 =
             k (option_map (fun ls => adjust ls (res_grads_finite res)) (loss_scaler s))
               (add_events w2 (adjust_events (loss_scaler s) (res_grads_finite res)))).
  { intros A k. destruct (loss_scaler s) as [ls|]; cbn [option_map adjust_events];
      run; rewrite ?add_events_nil; reflexivity. }
  rewrite Hls. clear Hls.
  assert (Hopt : forall ls : option LossScaler,
             option_map (fun ls => adjust ls (res_grads_finite res)) (loss_scaler s) = None
             <-> loss_scaler s = None).
  { intros _. destruct (loss_scaler s); cbn; split; congruence. }
  specialize (Hopt None).
  unfold bind at 1.
  destruct (res_grads_finite res).
  - unfold bind at 1.
    destruct (add_grads_world (accumulate_grads s) (res_grads res)
                (add_events w2 (adjust_events (loss_scaler s) true)))
      as [(acc & Hr)|Hr]; rewrite Hr; [|discriminate].
    destruct (Z.eqb_spec ((accumulate_cur_step s + 1) mod accumulate s) 0) as [E|E].
    + destruct (ema s) as [e|]; run; intros H; injection H as <- _ _;
        cbn [accumulate ema optimizer loss_scaler].
      all: (split; [reflexivity|]); (split; [split; congruence|]);
        (split; [reflexivity|]); (split; [exact Hopt|]);
        intros [Hc Hb]; unfold window_ok;
        cbn [accumulate_cur_step accumulate_grads].
      all: (split; [lia|tauto]).
    + run. intros H. injection H as <- _ _.
      cbn [accumulate ema optimizer loss_scaler].
      split; [reflexivity|]. split; [tauto|]. split; [reflexivity|].
      split; [exact Hopt|].
      intros [Hc Hb]. unfold window_ok. cbn.
      assert (accumulate_cur_step s + 1 <> accumulate s).
      { intros E'. apply E. rewrite E'. apply Z.mod_same. lia. }
      split; [lia|]. split; [lia|discriminate].
  - destruct (option_map _ (loss_scaler s)) as [ls'|] eqn:El; run;
      intros H; injection H as <- _ _;
      cbn [accumulate ema optimizer loss_scaler];
      (split; [reflexivity|]); (split; [tauto|]); (split; [reflexivity|]);
      (split; [exact Hopt|]);
      intros Hwin; exact Hwin.
Qed.

Lemma bind_inv {A B} (m : M World A) (k : A -> M World B) (w w' : World) (b : B) :
  bind m k w = Return b w' ->
  exists a w1, m w = Return a w1 /\ k a w1 = Return b w'.
Proof.
  unfold bind. destruct (m w) as [a w1|e w1]; [|discriminate]. eauto.
Qed.

Lemma window_ok_eq (A : Z) (s s' : Loop) :
  accumulate_cur_step s' = accumulate_cur_step s ->
  accumulate_grads s' = accumulate_grads s ->
  window_ok A s -> window_ok A s'.
Proof. unfold window_ok. intros -> ->. tauto. Qed.

(** What an iteration that returns does to the loop state, whatever the
    step function. *)
Lemma iteration_state (opt : Opt) (ext : Externals) (train_step : CellStep + FnStep)
    (i : Z) (data : Tensor * Tensor) (s s' : Loop) (w w' : World) :
  loop_body opt ext train_step i data s w = Return s' w' ->
  let A := if i <? ext_warmup_steps ext then warmup_accumulate opt ext i
           else accumulate s in
  accumulate s' = A /\
  (ema s' = None <-> ema s = None) /\
  (loss_scaler s' = None <-> loss_scaler s = None) /\
  (window_ok A s -> window_ok A s') /\
  (match train_step with inl _ => A = 1 | inr _ => True end).
Proof.
  intros Hrun A. unfold loop_body in Hrun.
  apply bind_inv in Hrun as (s1 & w0 & Hw & Hrun).
  destruct (warmup_cases opt ext i s w) as [Hr|(s1' & Hw' & _)]; [congruence|].
  assert (w0 = w) by congruence. subst w0. clear s1' Hw'.
  destruct (warmup_keeps opt ext i s s1 w Hw) as (_ & He & Hl & Hb & Hc & Ha).
  fold A in Ha.
  apply bind_inv in Hrun as (ns & w1 & Hms & Hrun).
  apply bind_log_step_inv in Hrun as (x & w2 & Hrun).
  destruct train_step as [cell|fn].
  - apply static_cell_branch_state in Hrun
      as (H1 & Ha' & Hc' & Hb' & He' & _ & Hl').
    rewrite Ha', Ha in *. rewrite He', He, Hl', Hl.
    split; [reflexivity|]. split; [tauto|]. split; [tauto|].
    split; [|exact H1].
    apply window_ok_eq; congruence.
  - destruct (accumulate s1 =? 1).
    + apply immediate_branch_state in Hrun as (Ha' & Hc' & Hb' & He' & _ & Hl').
      rewrite Ha', Ha, He', He, Hl', Hl.
      split; [reflexivity|]. split; [tauto|]. split; [tauto|].
      split; [|exact I].
      apply window_ok_eq; congruence.
    + apply accumulate_branch_state in Hrun as (Ha' & He' & _ & Hl' & Hwin).
      rewrite Ha', Ha, He', He, Hl', Hl. rewrite Ha in Hwin.
      split; [reflexivity|]. split; [tauto|]. split; [tauto|].
      split; [|exact I].
      intros H. apply Hwin. revert H. apply window_ok_eq; congruence.
Qed.

Lemma window_ok_mono (A B : Z) (s : Loop) :
  A <= B -> window_ok A s -> window_ok B s.
Proof. unfold window_ok. intros H [H1 H2]. split; [lia|exact H2]. Qed.

(** The loop state after a whole loader. *)
Lemma train_loop_state (opt : Opt) (ext : Externals)
    (train_step : CellStep + FnStep) (data_loader : list (Tensor * Tensor)) :
  forall (i : Z) (s s' : Loop) (w w' : World),
  train_loop opt ext train_step i data_loader s w = Return s' w' ->
  let W := ext_warmup_steps ext in
  let n := Z.of_nat (length data_loader) in
  (W <= i -> accumulate s' = accumulate s) /\
  (data_loader <> [] -> i + n <= W ->
   accumulate s' = warmup_accumulate opt ext (i + n - 1)) /\
  (i < W <= i + n -> accumulate s' = warmup_accumulate opt ext (W - 1)) /\
  (ema s' = None <-> ema s = None) /\
  (loss_scaler s' = None <-> loss_scaler s = None) /\
  (window_ok (accumulate s) s ->
   (i < W -> window_ok (warmup_accumulate opt ext i) s) ->
   window_ok (accumulate s') s').
Proof.
  induction data_loader as [|d rest IH]; intros i s s' w w' Hrun W n.
  - cbn in Hrun. injection Hrun as <- <-. subst n. cbn [length Z.of_nat].
    split; [reflexivity|]. split; [congruence|]. split; [lia|].
    split; [tauto|]. split; [tauto|]. tauto.
  - cbn [train_loop] in Hrun.
    apply bind_inv in Hrun as (s1 & w1 & Hit & Hrun).
    apply iteration_state in Hit as (Ha & He & Hl & Hwin & _).
    specialize (IH (i + 1) s1 s' w1 w' Hrun).
    cbn zeta in IH. fold W in IH, Ha, Hwin.
    destruct IH as (I1 & I2 & I3 & I4 & I5 & I6).
    assert (Hn : n = Z.of_nat (length rest) + 1) by (subst n; cbn [length]; lia).
    destruct (Z.ltb_spec i W) as [Hlt|Hge].
    + split; [lia|].
      split.
      { intros _ Hle. destruct rest as [|d' rest'].
        - cbn in Hrun. injection Hrun as <- _. rewrite Ha.
          f_equal. subst n. cbn [length]. lia.
        - rewrite I2; [f_equal; lia|discriminate|lia]. }
      split.
      { intros [_ Hle]. destruct (Z.eq_dec W (i + 1)) as [E|E].
        - rewrite I1 by lia. rewrite Ha. f_equal. lia.
        - apply I3. lia. }
      split; [tauto|]. split; [tauto|].
      intros _ Hw. specialize (Hw Hlt). apply I6.
      * rewrite Ha. apply Hwin. exact Hw.
      * intros Hlt'. apply (window_ok_mono (warmup_accumulate opt ext i)).
        -- apply warmup_accumulate_mono. lia.
        -- apply Hwin. exact Hw.
    + split; [intros _; rewrite I1 by lia; exact Ha|].
      split; [lia|]. split; [lia|].
      split; [tauto|]. split; [tauto|].
      intros Hw _. apply I6.
      * rewrite Ha. apply Hwin. exact Hw.
      * lia.
Qed.

(** *** An iteration and a loader, seen from outside *)

Lemma sizes_of_app (t1 t2 : list event) :
  sizes_of (t1 ++ t2) = sizes_of t1 ++ sizes_of t2.
Proof.
  induction t1 as [|e t1 IH]; [reflexivity|].
  destruct e; cbn [app sizes_of]; rewrite IH; reflexivity.
Qed.

Lemma step_event_counts (t : list event) :
  forallb is_step_event t = true ->
  count_events is_train_step_call t = 0%nat /\
  count_events is_save_checkpoint t = 0%nat /\
  count_events is_save_ema_checkpoint t = 0%nat /\
  sizes_of t = [].
Proof.
  induction t as [|e t IH]; cbn [forallb]; [cbn; tauto|].
  intros H. apply andb_true_iff in H as [He Ht].
  destruct (IH Ht) as (H1 & H2 & H3 & H4).
  destruct e as [m| | | | | |]; try discriminate He;
    cbn [count_events sizes_of is_train_step_call is_save_checkpoint
         is_save_ema_checkpoint];
    rewrite H1, H2, H3, H4; tauto.
Qed.

Lemma log_events_counts (opt : Opt) (ext : Externals) (i : Z) (imgs : Tensor)
    (ns : option (list Z)) (s : Loop) (x : Tensor * option Tensor) :
  let t := log_events opt ext i imgs ns s x in
  let saved := (opt_rank opt mod 8 =? 0) && ((i + 1) mod ext_per_epoch_size ext =? 0) in
  count_events is_train_step_call t = 0%nat /\
  sizes_of t = [] /\
  count_events is_save_checkpoint t = (if saved then 1 else 0)%nat /\
  count_events is_save_ema_checkpoint t =
    (if saved then match ema s with Some _ => 1 | None => 0 end else 0)%nat.
Proof.
  unfold log_events, save_events.
  destruct ((i + 1) mod ext_per_epoch_size ext =? 0);
    destruct (opt_rank opt mod 8 =? 0); cbn [andb];
    destruct (ema s); cbn; tauto.
Qed.

Lemma multiples_of_grid (gs : Z) (f : Z -> Z) (l : list Z) :
  Forall (Z.divide gs) (map (fun x => f x * gs) l).
Proof.
  induction l as [|x l IH]; cbn [map]; constructor; [|exact IH].
  exists (f x). reflexivity.
Qed.

Lemma multi_scale_spec (opt : Opt) (ext : Externals) (data : Tensor * Tensor)
    (w w1 : World) (ns : option (list Z)) :
  multi_scale opt ext (as_dtype (input_dtype opt) (fst data)) w = Return ns w1 ->
  trace w1 = trace w /\ np_rng w1 = np_rng w /\ ms_rng w1 = ms_rng w /\
  py_rng w1 = (if opt_multi_scale opt then next_py_rng ext (py_rng w) else py_rng w) /\
  (opt_multi_scale opt = false -> ns = None) /\
  grid_sizes opt ext data ns.
Proof.
  unfold multi_scale, next_py_rng, grid_sizes.
  destruct (opt_multi_scale opt).
  - unfold bind, py_randrange.
    destruct (randrange (py_rng w) _ _) as [v g]. cbn [snd].
    match goal with |- context [if ?c then _ else _] => destruct c end;
      intros H; injection H as <- <-; cbn [trace np_rng ms_rng py_rng];
      repeat (split; [reflexivity|]).
    + split; [discriminate|].
      split; [reflexivity|]. split; [apply length_map|].
      apply (multiples_of_grid (ext_gs ext)).
    + exact I.
  - intros H. injection H as <- <-. repeat (split; [reflexivity|]). exact I.
Qed.

Lemma length_sizes_of (t : list event) :
  length (sizes_of t) = count_events is_train_step_call t.
Proof.
  induction t as [|e t IH]; [reflexivity|].
  destruct e; cbn [sizes_of count_events is_train_step_call length]; rewrite IH;
    reflexivity.
Qed.

Lemma epoch_ends_nonneg (p i : Z) (n : nat) : 0 <= epoch_ends p i n.
Proof.
  revert i. induction n as [|n IH]; intros i; cbn [epoch_ends]; [lia|].
  specialize (IH (i + 1)). destruct (_ =? 0); lia.
Qed.

(** The epochs completed by the indices [i .. i + n - 1]. *)
Lemma epoch_ends_div (p i : Z) (n : nat) :
  0 < p -> epoch_ends p i n = (i + Z.of_nat n) / p - i / p.
Proof.
  intros Hp. revert i. induction n as [|n IH]; intros i; cbn [epoch_ends].
  - rewrite Z.add_0_r. lia.
  - rewrite IH. replace (i + 1 + Z.of_nat n) with (i + Z.of_nat (S n)) by lia.
    assert (H : (i + 1) / p = i / p + (if (i + 1) mod p =? 0 then 1 else 0)).
    { destruct (Z.eqb_spec ((i + 1) mod p) 0) as [E|E].
      - pose proof (Z.div_mod (i + 1) p ltac:(lia)) as H1.
        pose proof (Z.div_mod i p ltac:(lia)) as H2.
        pose proof (Z.mod_pos_bound i p Hp) as H3.
        rewrite E in H1. nia.
      - pose proof (Z.div_mod (i + 1) p ltac:(lia)) as H1.
        pose proof (Z.div_mod i p ltac:(lia)) as H2.
        pose proof (Z.mod_pos_bound i p Hp) as H3.
        pose proof (Z.mod_pos_bound (i + 1) p Hp) as H4.
        nia. }
    lia.
Qed.

(** One iteration, seen from outside. *)
Lemma iteration_summary (pc : ParallelContext) (hyp : gmap string Q) (opt : Opt)
    (ext : Externals) (train_step : CellStep + FnStep) (i : Z)
    (data : Tensor * Tensor) (s : Loop) (w : World) :
  driver_step pc hyp opt train_step ->
  let o := loop_body opt ext train_step i data s w in
  let saved := (opt_rank opt mod 8 =? 0) && ((i + 1) mod ext_per_epoch_size ext =? 0) in
  exists evs,
    trace (final_world o) = trace w ++ evs /\
    np_rng (final_world o) = np_rng w /\ ms_rng (final_world o) = ms_rng w /\
    (raised o = true ->
       count_events is_save_checkpoint evs = 0%nat /\
       count_events is_save_ema_checkpoint evs = 0%nat /\
       (sizes_of evs = [] \/
        exists ns, sizes_of evs = [ns] /\ grid_sizes opt ext data ns /\
                   (opt_multi_scale opt = false -> ns = None))) /\
    (raised o = false ->
       py_rng (final_world o) =
         (if opt_multi_scale opt then next_py_rng ext (py_rng w) else py_rng w) /\
       count_events is_save_checkpoint evs = (if saved then 1 else 0)%nat /\
       count_events is_save_ema_checkpoint evs =
         (if saved then match ema s with Some _ => 1 | None => 0 end else 0)%nat /\
       exists ns, sizes_of evs = [ns] /\ grid_sizes opt ext data ns /\
                  (opt_multi_scale opt = false -> ns = None)).
Proof.
  intros Hts o saved.
  destruct (iteration_events pc hyp opt ext train_step i data s w Hts)
    as (ns & w1 & pre & Hms & Hpre & Hrun).
  destruct (multi_scale_spec opt ext data w w1 ns Hms)
    as (Htr & Hnp & Hmsr & Hpy & Hoff & Hgrid).
  destruct (step_event_counts pre Hpre) as (P1 & P2 & P3 & P4).
  subst o.
  destruct (loop_body opt ext train_step i data s w) as [s' w'|e w'] eqn:Eo.
  - destruct (iteration_state _ _ _ _ _ _ _ _ _ Eo) as (_ & He & _).
    destruct Hrun as (x & ->).
    destruct (log_events_counts opt ext i (as_dtype (input_dtype opt) (fst data))
                ns s' x) as (L1 & L2 & L3 & L4).
    cbn zeta in L3, L4. fold saved in L3, L4.
    eexists. cbn [final_world raised add_events trace np_rng ms_rng py_rng].
    rewrite Htr. split; [reflexivity|].
    split; [exact Hnp|]. split; [exact Hmsr|].
    split; [discriminate|]. intros _.
    split; [exact Hpy|].
    cbn [count_events is_save_checkpoint is_save_ema_checkpoint sizes_of].
    rewrite !count_events_app, sizes_of_app, P2, P3, P4, L2, L3, L4.
    split; [reflexivity|].
    split.
    { cbn [Nat.add]. destruct saved; [|reflexivity].
      destruct (ema s') as [e'|], (ema s) as [e0|]; try reflexivity; exfalso.
      - destruct He as [_ He]. specialize (He eq_refl). discriminate.
      - destruct He as [He _]. specialize (He eq_refl). discriminate. }
    exists ns. split; [reflexivity|]. split; assumption.
  - cbn [final_world raised].
    destruct Hrun as [-> | [-> | ->]].
    + exists []. rewrite app_nil_r.
      split; [reflexivity|]. split; [reflexivity|]. split; [reflexivity|].
      split; [|discriminate]. intros _. cbn. tauto.
    + exists []. rewrite app_nil_r.
      split; [exact Htr|]. split; [exact Hnp|]. split; [exact Hmsr|].
      split; [|discriminate]. intros _. cbn. tauto.
    + eexists. cbn [add_events trace np_rng ms_rng]. rewrite Htr.
      split; [reflexivity|]. split; [exact Hnp|]. split; [exact Hmsr|].
      split; [|discriminate]. intros _.
      cbn [count_events is_save_checkpoint is_save_ema_checkpoint sizes_of].
      rewrite P2, P3, P4.
      split; [reflexivity|]. split; [reflexivity|].
      right. exists ns. split; [reflexivity|]. split; assumption.
Qed.

(** A whole loader, seen from outside. *)
Lemma train_loop_summary (pc : ParallelContext) (hyp : gmap string Q) (opt : Opt)
    (ext : Externals) (train_step : CellStep + FnStep) :
  driver_step pc hyp opt train_step ->
  forall (data_loader : list (Tensor * Tensor)) (i : Z) (s : Loop) (w : World),
  let o := train_loop opt ext train_step i data_loader s w in
  let n := length data_loader in
  exists evs,
    trace (final_world o) = trace w ++ evs /\
    np_rng (final_world o) = np_rng w /\ ms_rng (final_world o) = ms_rng w /\
    (length (sizes_of evs) <= n)%nat /\
    Forall2 (grid_sizes opt ext) (firstn (length (sizes_of evs)) data_loader)
            (sizes_of evs) /\
    (opt_multi_scale opt = false -> Forall (eq None) (sizes_of evs)) /\
    Z.of_nat (count_events is_save_checkpoint evs) <=
      epoch_ends (ext_per_epoch_size ext) i n /\
    (opt_rank opt mod 8 <> 0 -> count_events is_save_checkpoint evs = 0%nat) /\
    count_events is_save_ema_checkpoint evs =
      match ema s with
      | Some _ => count_events is_save_checkpoint evs
      | None => 0%nat
      end /\
    (raised o = false ->
       length (sizes_of evs) = n /\
       (opt_rank opt mod 8 = 0 ->
        Z.of_nat (count_events is_save_checkpoint evs) =
          epoch_ends (ext_per_epoch_size ext) i n) /\
       py_rng (final_world o) =
         if opt_multi_scale opt then Nat.iter n (next_py_rng ext) (py_rng w)
         else py_rng w).
Proof.
  intros Hts data_loader.
  induction data_loader as [|d rest IH]; intros i s w o n.
  - exists []. subst o n. cbn [train_loop ret final_world raised length sizes_of
                               count_events firstn epoch_ends Nat.iter].
    rewrite app_nil_r.
    split; [reflexivity|]. split; [reflexivity|]. split; [reflexivity|].
    split; [lia|].
    split; [constructor|]. split; [intros _; constructor|].
    split; [lia|]. split; [reflexivity|].
    split; [destruct (ema s); reflexivity|].
    intros _. split; [reflexivity|]. split; [reflexivity|].
    destruct (opt_multi_scale opt); reflexivity.
  - destruct (iteration_summary pc hyp opt ext train_step i d s w Hts)
      as (evs1 & Htr1 & Hnp1 & Hms1 & Hraise1 & Hret1).
    subst o n. cbn [train_loop length epoch_ends]. unfold bind.
    pose proof (epoch_ends_nonneg (ext_per_epoch_size ext) (i + 1) (length rest)) as Hnn.
    destruct (loop_body opt ext train_step i d s w) as [s1 w1|e w1] eqn:Eo.
    + (* the iteration returns *)
      clear Hraise1. cbn [final_world raised] in *.
      destruct (Hret1 eq_refl) as (Hpy1 & Hsv1 & Hse1 & ns & Hsz1 & Hg1 & Hoff1).
      clear Hret1.
      destruct (iteration_state _ _ _ _ _ _ _ _ _ Eo) as (_ & He & _).
      destruct (IH (i + 1) s1 w1)
        as (evs & Htr & Hnp & Hms & Hle & Hf2 & Hoff & Hsv & Hrk & Hse & Hret).
      exists (evs1 ++ evs).
      rewrite sizes_of_app, !count_events_app, Hsz1. cbn [app length firstn].
      split; [rewrite Htr, Htr1, app_assoc; reflexivity|].
      split; [congruence|]. split; [congruence|].
      split; [lia|].
      split; [constructor; assumption|].
      split.
      { intros Hm. constructor; [symmetry; apply Hoff1; exact Hm|apply Hoff; exact Hm]. }
      assert (Hrank : opt_rank opt mod 8 <> 0 ->
                      count_events is_save_checkpoint evs1 = 0%nat).
      { intros Hr. rewrite Hsv1.
        destruct (Z.eqb_spec (opt_rank opt mod 8) 0); [contradiction|reflexivity]. }
      split.
      { rewrite Hsv1, Nat2Z.inj_add.
        destruct (opt_rank opt mod 8 =? 0), ((i + 1) mod ext_per_epoch_size ext =? 0);
          cbn [andb]; lia. }
      split.
      { intros Hr. rewrite (Hrank Hr), (Hrk Hr). reflexivity. }
      split.
      { rewrite Hse, Hse1, Hsv1.
        destruct (ema s) as [e0|], (ema s1) as [e1|].
        - reflexivity.
        - exfalso. destruct He as [He _]. specialize (He eq_refl). discriminate.
        - exfalso. destruct He as [_ He]. specialize (He eq_refl). discriminate.
        - destruct (_ && _); reflexivity. }
      intros Hr. destruct (Hret Hr) as (Hlen & Hsv' & Hpy).
      split; [lia|].
      split.
      { intros Hr0. rewrite Hsv1, Nat2Z.inj_add, (Hsv' Hr0).
        destruct (Z.eqb_spec (opt_rank opt mod 8) 0); [|contradiction].
        destruct ((i + 1) mod ext_per_epoch_size ext =? 0); cbn [andb]; lia. }
      rewrite Hpy, Hpy1. destruct (opt_multi_scale opt); [|reflexivity].
      rewrite Nat.iter_succ_r. reflexivity.
    + (* the iteration raises *)
      clear Hret1 IH. cbn [final_world raised] in *.
      destruct (Hraise1 eq_refl) as (Hsv1 & Hse1 & Hsz).
      exists evs1. rewrite Hsv1, Hse1.
      split; [exact Htr1|]. split; [exact Hnp1|]. split; [exact Hms1|].
      assert (Hsizes :
        (length (sizes_of evs1) <= S (length rest))%nat /\
        Forall2 (grid_sizes opt ext) (firstn (length (sizes_of evs1)) (d :: rest))
                (sizes_of evs1) /\
        (opt_multi_scale opt = false -> Forall (eq None) (sizes_of evs1))).
      { destruct Hsz as [->|(ns & -> & Hg & Hoff)]; cbn [length firstn].
        - split; [lia|]. split; [constructor|]. intros _. constructor.
        - split; [lia|]. split; [repeat constructor; exact Hg|].
          intros Hm. constructor; [symmetry; apply Hoff; exact Hm|constructor]. }
      destruct Hsizes as (S1 & S2 & S3).
      split; [exact S1|]. split; [exact S2|]. split; [exact S3|].
      split; [destruct (_ =? 0); cbn; lia|].
      split; [reflexivity|].
      split; [destruct (ema s); reflexivity|discriminate].
Qed.

(** *** Set-up only prints *)

Lemma prints_only_ret {A} (a : A) : prints_only (ret a).
Proof. intros w. exists []. cbn. rewrite add_events_nil. reflexivity. Qed.

Lemma prints_only_raise {A} (e : exn) : prints_only (@raise World A e).
Proof. intros w. exists []. cbn. rewrite add_events_nil. reflexivity. Qed.

Lemma prints_only_assert (c : bool) (msg : string) : prints_only (assert c msg).
Proof. destruct c; [apply prints_only_ret|apply prints_only_raise]. Qed.

Lemma prints_only_print (m : message) : prints_only (print m).
Proof. intros w. exists [m]. reflexivity. Qed.

Lemma prints_only_bind {A B} (m : M World A) (k : A -> M World B) :
  prints_only m -> (forall a, prints_only (k a)) -> prints_only (bind m k).
Proof.
  intros Hm Hk w. unfold bind. destruct (Hm w) as (l1 & H1).
  destruct (m w) as [a w1|e w1]; cbn [final_world] in H1; subst w1.
  - destruct (Hk a (add_events w (map Stdout l1))) as (l2 & H2).
    exists (l1 ++ l2). rewrite H2, add_events_app, map_app. reflexivity.
  - exists l1. reflexivity.
Qed.

Lemma prints_only_load_pretrained (opt : Opt) (m : Cell) (e : option (EMA Cell Tensor)) :
  prints_only (load_pretrained opt m e).
Proof.
  unfold load_pretrained.
  destruct (endswith (opt_weights opt) ".ckpt"); [|apply prints_only_ret].
  apply prints_only_bind; [apply prints_only_print|intros _].
  destruct e as [e|]; [|apply prints_only_ret].
  destruct (endswith (opt_ema_weight opt) ".ckpt").
  - apply prints_only_bind.
    + destruct (load_checkpoint (opt_ema_weight opt) !! "updates"%string);
        [apply prints_only_ret|].
      apply prints_only_bind; [apply prints_only_print|intros _; apply prints_only_ret].
    + intros e'. apply prints_only_bind;
        [apply prints_only_print|intros _; apply prints_only_ret].
  - apply prints_only_bind; [apply prints_only_print|intros _; apply prints_only_ret].
Qed.

Lemma prints_only_setup (rank_size : Z) (pc : ParallelContext) (hyp : gmap string Q)
    (opt : Opt) (data_dict : DataDict) (ext : Externals) :
  prints_only (setup rank_size pc hyp opt data_dict ext).
Proof.
  unfold setup.
  apply prints_only_bind; [apply prints_only_assert|intros _].
  apply prints_only_bind; [apply prints_only_load_pretrained|intros [m e]].
  apply prints_only_bind.
  { unfold freeze_list. destruct (opt_freeze opt) as [|n [|n' l]];
      first [apply prints_only_ret|apply prints_only_raise]. }
  intros fr.
  apply prints_only_bind; [apply prints_only_assert|intros _].
  apply prints_only_bind.
  { repeat match goal with
           | |- context [if ?c then _ else _] => destruct c
           end;
      first [apply prints_only_ret|apply prints_only_raise|apply prints_only_assert]. }
  intros _.
  apply prints_only_bind; [apply prints_only_print|intros _].
  apply prints_only_bind.
  { unfold build_optimizer.
    repeat match goal with
           | |- context [if ?c then _ else _] => destruct c
           end; first [apply prints_only_ret|apply prints_only_raise]. }
  intros o.
  apply prints_only_bind; [|intros [ts ls]; apply prints_only_ret].
  unfold build_train_step, create_train_static_shape_cell, build_loss_scaler.
  destruct (String.eqb (opt_ms_strategy opt) "StaticCell").
  - apply prints_only_bind; [|intros; apply prints_only_ret].
    apply prints_only_bind; [apply prints_only_assert|intros; apply prints_only_ret].
  - apply prints_only_bind.
    + repeat match goal with
             | |- context [if ?c then _ else _] => destruct c
             end; first [apply prints_only_ret|apply prints_only_raise].
    + intros ls. destruct (String.eqb (opt_ms_strategy opt) "StaticShape");
        first [apply prints_only_ret|apply prints_only_raise].
Qed.

Lemma printed_counts (p : event -> bool) (msgs : list message) :
  (forall m, p (Stdout m) = false) ->
  count_events p (map Stdout msgs) = 0%nat /\ sizes_of (map Stdout msgs) = [].
Proof.
  intros Hp. induction msgs as [|m l [IH1 IH2]]; [split; reflexivity|].
  cbn [map count_events sizes_of]. rewrite Hp, IH1, IH2. split; reflexivity.
Qed.

Lemma assert_inv (c : bool) (msg : string) (w w' : World) (u : unit) :
  assert c msg w = Return u w' -> c = true /\ w' = w.
Proof.
  unfold assert. destruct c; [|discriminate].
  intros H. injection H as _ <-. split; reflexivity.
Qed.

Lemma load_pretrained_ema (opt : Opt) (m m' : Cell) (e e' : option (EMA Cell Tensor))
    (w w' : World) :
  load_pretrained opt m e w = Return (m', e') w' ->
  (e' = None <-> e = None).
Proof.
  unfold load_pretrained.
  destruct (endswith (opt_weights opt) ".ckpt").
  2:{ intros H. injection H as _ <- _. tauto. }
  unfold bind at 1. rewrite print_eq.
  destruct e as [e|].
  2:{ intros H. injection H as _ <- _. tauto. }
  destruct (endswith (opt_ema_weight opt) ".ckpt").
  - destruct (load_checkpoint (opt_ema_weight opt) !! "updates"%string);
      unfold bind, ret; rewrite ?print_eq;
      intros H; injection H as _ <- _; split; discriminate.
  - unfold bind, ret; rewrite ?print_eq.
    intros H; injection H as _ <- _; split; discriminate.
Qed.

(** What a set-up that returns has checked, and what it hands to the loop. *)
Lemma setup_inv (rank_size : Z) (pc : ParallelContext) (hyp : gmap string Q)
    (opt : Opt) (data_dict : DataDict) (ext : Externals)
    (train_step : CellStep + FnStep) (s0 : Loop) (w w' : World) :
  setup rank_size pc hyp opt data_dict ext w = Return (train_step, s0) w' ->
  (Z.of_nat (length (class_names opt data_dict)) = number_of_classes opt data_dict /\
   opt_freeze opt <> [] /\
   ext_mlc ext < number_of_classes opt data_dict /\
   str_contains "yolov7" (opt_cfg opt) = true /\
   (sgd_or_momentum opt = true ->
    Z.of_nat (length (ext_momentum_pg ext)) = ext_warmup_steps ext)) /\
  (opt_optimizer opt = "sgd"%string /\ optim_kind (optimizer s0) = SGD \/
   opt_optimizer opt = "momentum"%string /\ optim_kind (optimizer s0) = Momentum \/
   opt_optimizer opt = "adam"%string /\ optim_kind (optimizer s0) = Adam) /\
  (opt_ms_strategy opt = "StaticCell"%string /\
   Qeq_bool (opt_ms_grad_sens opt) (opt_ms_loss_scaler_value opt) = true /\
   train_step = inl (TrainOneStepWithLossScaleCell
                       (Warpper_construct hyp default_rank_size) (opt_ms_grad_sens opt)) /\
   loss_scaler s0 = None
   \/
   opt_ms_strategy opt = "StaticShape"%string /\
   train_step = inr (static_shape_step pc hyp opt) /\
   (opt_ms_loss_scaler opt = "dynamic"%string /\
    loss_scaler s0 = Some (DynamicLossScaler (inject_Z (2 ^ 12)) 2 1000 0) \/
    opt_ms_loss_scaler opt = "static"%string /\
    loss_scaler s0 = Some (StaticLossScaler (opt_ms_loss_scaler_value opt)) \/
    opt_ms_loss_scaler opt = "none"%string /\ loss_scaler s0 = None)) /\
  (accumulate s0 = Z.max (round_half_even (nbs_ratio opt)) 1 /\
   accumulate_grads s0 = None /\ accumulate_cur_step s0 = 0 /\
   (ema s0 = None <-> opt_ema opt = false) /\
   optim_loss_scale (optimizer s0) = opt_ms_optim_loss_scale opt /\
   optim_momentum (optimizer s0) = None).
Proof.
  unfold setup. fold (number_of_classes opt data_dict). fold (class_names opt data_dict).
  intros H.
  apply bind_inv in H as (u & w1 & H1 & H). apply assert_inv in H1 as [C1 ->].
  apply bind_inv in H as ([m e] & w2 & Hload & H).
  apply load_pretrained_ema in Hload.
  apply bind_inv in H as (fr & w3 & Hfr & H).
  assert (C2 : opt_freeze opt <> []).
  { intros E. rewrite E in Hfr. discriminate. }
  apply bind_inv in H as (u2 & w4 & H2 & H). apply assert_inv in H2 as [C3 ->].
  apply bind_inv in H as (u3 & w5 & H3 & H).
  assert (C4 : str_contains "yolov7" (opt_cfg opt) = true /\
               (sgd_or_momentum opt = true ->
                Z.of_nat (length (ext_momentum_pg ext)) = ext_warmup_steps ext)).
  { destruct (str_contains "yolov7" (opt_cfg opt)); [|discriminate].
    split; [reflexivity|]. intros Hsm. rewrite Hsm in H3.
    destruct (negb (String.eqb (opt_optimizer opt) "thor")) eqn:Et.
    - apply assert_inv in H3 as [H3 _]. apply Z.eqb_eq. exact H3.
    - exfalso. apply negb_false_iff, String.eqb_eq in Et.
      unfold sgd_or_momentum in Hsm. rewrite Et in Hsm. discriminate. }
  clear H3.
  apply bind_inv in H as (u4 & w6 & _ & H).
  apply bind_inv in H as (o & w7 & Ho & H).
  apply bind_inv in H as ([ts ls] & w8 & Hts & H).
  injection H as <- <- _.
  cbn [optimizer loss_scaler accumulate accumulate_grads accumulate_cur_step ema].
  split.
  { split; [apply Z.eqb_eq; exact C1|]. split; [exact C2|].
    split; [apply Z.ltb_lt; exact C3|]. exact C4. }
  assert (Hopt :
    (opt_optimizer opt = "sgd"%string /\ optim_kind o = SGD \/
     opt_optimizer opt = "momentum"%string /\ optim_kind o = Momentum \/
     opt_optimizer opt = "adam"%string /\ optim_kind o = Adam) /\
    optim_loss_scale o = opt_ms_optim_loss_scale opt /\ optim_momentum o = None).
  { unfold build_optimizer in Ho.
    destruct (String.eqb_spec (opt_optimizer opt) "sgd") as [E1|_];
      [injection Ho as <- _; cbn; tauto|].
    destruct (String.eqb_spec (opt_optimizer opt) "momentum") as [E2|_];
      [injection Ho as <- _; cbn; tauto|].
    destruct (String.eqb_spec (opt_optimizer opt) "adam") as [E3|_];
      [injection Ho as <- _; cbn; tauto|].
    destruct (String.eqb (opt_optimizer opt) "thor"); discriminate. }
  destruct Hopt as (Hk & Hsc & Hmo).
  split; [exact Hk|].
  split.
  { unfold build_train_step in Hts.
    destruct (String.eqb_spec (opt_ms_strategy opt) "StaticCell") as [E|_].
    - left. apply bind_inv in Hts as (cell & w9 & Hc & Hts).
      injection Hts as <- <- _.
      unfold create_train_static_shape_cell in Hc.
      apply bind_inv in Hc as (u5 & w10 & Ha & Hc). apply assert_inv in Ha as [Ha _].
      injection Hc as <- _. repeat split; assumption.
    - right. apply bind_inv in Hts as (ls0 & w9 & Hls & Hts).
      destruct (String.eqb_spec (opt_ms_strategy opt) "StaticShape") as [E|_];
        [|discriminate].
      injection Hts as <- <- _.
      split; [exact E|]. split; [reflexivity|].
      unfold build_loss_scaler in Hls.
      destruct (String.eqb_spec (opt_ms_loss_scaler opt) "dynamic") as [E1|_];
        [injection Hls as <- _; tauto|].
      destruct (String.eqb_spec (opt_ms_loss_scaler opt) "static") as [E2|_];
        [injection Hls as <- _; tauto|].
      destruct (String.eqb_spec (opt_ms_loss_scaler opt) "none") as [E3|_];
        [injection Hls as <- _; tauto|discriminate]. }
  split; [reflexivity|]. split; [reflexivity|]. split; [reflexivity|].
  split; [|split; assumption].
  rewrite Hload. destruct (opt_ema opt); split; congruence.
Qed.

(** *** The accumulation target *)

(** X1.  For a positive total batch size the accumulation target that the
    warm-up block installs never falls below 1, never decreases from one
    iteration to a later one, and never exceeds the nominal target
    [max(round(nbs / total_batch_size), 1)] that set-up computes. *)
Theorem warmup_target_monotone_and_bounded (opt : Opt) (ext : Externals) (i j : Z) :
  0 < opt_total_batch_size opt ->
  i <= j ->
  1 <= warmup_accumulate opt ext i /\
  warmup_accumulate opt ext i <= warmup_accumulate opt ext j /\
  warmup_accumulate opt ext j <= Z.max (round_half_even (nbs_ratio opt)) 1.
Proof.
  intros _ Hij.
  split; [apply warmup_accumulate_ge_one|].
  split; [apply warmup_accumulate_mono; exact Hij|].
  apply warmup_accumulate_le_nominal.
Qed.

Lemma nbs_ratio_le (opt : Opt) (a : Z) :
  0 < a -> a <= opt_total_batch_size opt -> (nbs_ratio opt <= inject_Z nbs / inject_Z a)%Q.
Proof.
  intros Ha Hle. unfold nbs_ratio. change (inject_Z nbs) with 64%Q.
  assert (H1 : (0 < inject_Z a)%Q) by (rewrite <- (Zlt_Qlt 0); exact Ha).
  assert (H2 : (inject_Z a <= inject_Z (opt_total_batch_size opt))%Q)
    by (rewrite <- Zle_Qle; exact Hle).
  apply Qle_shift_div_r; [lra|].
  assert (H3 : (64 / inject_Z a * inject_Z a == 64)%Q)
    by (field; lra).
  assert (H4 : (0 <= 64 / inject_Z a)%Q).
  { apply Qle_shift_div_l; [exact H1|]. lra. }
  assert (H5 : (64 / inject_Z a * inject_Z a <=
                64 / inject_Z a * inject_Z (opt_total_batch_size opt))%Q).
  { rewrite !(Qmult_comm (64 / inject_Z a)).
    apply Qmult_le_compat_r; assumption. }
  lra.
Qed.

Lemma nbs_ratio_ge (opt : Opt) (a : Z) :
  0 < opt_total_batch_size opt -> opt_total_batch_size opt <= a ->
  (inject_Z nbs / inject_Z a <= nbs_ratio opt)%Q.
Proof.
  intros Hpos Hle. unfold nbs_ratio. change (inject_Z nbs) with 64%Q.
  assert (H1 : (0 < inject_Z (opt_total_batch_size opt))%Q)
    by (rewrite <- (Zlt_Qlt 0); exact Hpos).
  assert (H2 : (inject_Z (opt_total_batch_size opt) <= inject_Z a)%Q)
    by (rewrite <- Zle_Qle; exact Hle).
  apply Qle_shift_div_l; [exact H1|].
  assert (H3 : (0 <= 64 / inject_Z a)%Q).
  { apply Qle_shift_div_l; [lra|]. lra. }
  assert (H4 : (64 / inject_Z a * inject_Z a == 64)%Q)
    by (field; lra).
  assert (H5 : (64 / inject_Z a * inject_Z (opt_total_batch_size opt) <=
                64 / inject_Z a * inject_Z a)%Q).
  { rewrite !(Qmult_comm (64 / inject_Z a)).
    apply Qmult_le_compat_r; assumption. }
  lra.
Qed.

(** The nominal target, read off the total batch size. *)
Lemma nominal_target (opt : Opt) :
  0 < opt_total_batch_size opt ->
  let A := Z.max (round_half_even (nbs_ratio opt)) 1 in
  1 <= A <= 64 /\
  (A = 1 <-> 43 <= opt_total_batch_size opt) /\
  (forall k, k * opt_total_batch_size opt = 64 -> A = k).
Proof.
  intros Hpos A.
  assert (Hup : round_half_even (nbs_ratio opt) <= 64).
  { pose proof (round_half_even_mono _ _ (nbs_ratio_le opt 1 ltac:(lia) ltac:(lia))) as H.
    replace (round_half_even (inject_Z nbs / inject_Z 1)) with 64 in H; [exact H|].
    reflexivity. }
  split; [subst A; lia|].
  split.
  - split.
    + intros HA. destruct (Z_lt_le_dec (opt_total_batch_size opt) 43) as [Hlt|]; [|lia].
      exfalso.
      pose proof (round_half_even_mono _ _
                    (nbs_ratio_ge opt 42 Hpos ltac:(lia))) as H.
      replace (round_half_even (inject_Z nbs / inject_Z 42)) with 2 in H
        by reflexivity.
      subst A. lia.
    + intros Hge.
      pose proof (round_half_even_mono _ _ (nbs_ratio_le opt 43 ltac:(lia) Hge)) as H.
      replace (round_half_even (inject_Z nbs / inject_Z 43)) with 1 in H
        by reflexivity.
      subst A. lia.
  - intros k Hk.
    assert (Hk1 : 1 <= k) by nia.
    assert (E : (nbs_ratio opt == inject_Z k)%Q).
    { unfold nbs_ratio, nbs. rewrite <- Hk, inject_Z_mult. field.
      assert ((0 < inject_Z (opt_total_batch_size opt))%Q)
        by (rewrite <- (Zlt_Qlt 0); exact Hpos).
      lra. }
    subst A. rewrite (round_half_even_comp _ _ E), round_half_even_Z. lia.
Qed.

(** X2.  After a set-up that returns, for a positive total batch size: the
    accumulation target lies between 1 and 64; it is 1, so that gradients
    are not accumulated, exactly when the total batch size is at least 43;
    and when the total batch size divides the nominal batch size 64 the
    target is the quotient, so that target times batch size is 64. *)
Theorem nominal_target_from_batch_size (rank_size : Z) (pc : ParallelContext)
    (hyp : gmap string Q) (opt : Opt) (data_dict : DataDict) (ext : Externals)
    (train_step : CellStep + FnStep) (s0 : Loop) (w w' : World) :
  setup rank_size pc hyp opt data_dict ext w = Return (train_step, s0) w' ->
  0 < opt_total_batch_size opt ->
  1 <= accumulate s0 <= 64 /\
  (accumulate s0 = 1 <-> 43 <= opt_total_batch_size opt) /\
  (forall k, k * opt_total_batch_size opt = 64 -> accumulate s0 = k).
Proof.
  intros Hs Hpos.
  destruct (setup_inv _ _ _ _ _ _ _ _ _ _ Hs) as (_ & _ & _ & Ha & _).
  rewrite Ha. apply nominal_target. exact Hpos.
Qed.

(** X3.  The accumulation target after a run of the loop that returns,
    whatever the step function: past warm-up it is left as it was; a run
    that ends inside warm-up leaves the target of its last iteration; and a
    run that crosses the end of warm-up leaves the target of the last
    warm-up iteration, [W - 1], where it stays: the nominal target that
    set-up computed is not restored. *)
Theorem steady_target_is_last_warmup_value (opt : Opt) (ext : Externals)
    (train_step : CellStep + FnStep) (data_loader : list (Tensor * Tensor))
    (i : Z) (s s' : Loop) (w w' : World) :
  train_loop opt ext train_step i data_loader s w = Return s' w' ->
  let W := ext_warmup_steps ext in
  let n := Z.of_nat (length data_loader) in
  (W <= i -> accumulate s' = accumulate s) /\
  (data_loader <> [] -> i + n <= W ->
   accumulate s' = warmup_accumulate opt ext (i + n - 1)) /\
  (i < W <= i + n -> accumulate s' = warmup_accumulate opt ext (W - 1)).
Proof.
  intros Hrun W n.
  destruct (train_loop_state opt ext train_step data_loader i s s' w w' Hrun)
    as (H1 & H2 & H3 & _).
  split; [exact H1|]. split; [exact H2|exact H3].
Qed.

(** X4.  The accumulation window stays well formed along the loop,
    whatever the step function: if the counter is below the current target
    and below the warm-up target about to be installed, and the gradient
    buffer is empty exactly when the counter is zero (as at the start of
    the loop, with counter zero and no buffer), then after any number of
    iterations that return the counter is again below the target in force
    and the buffer is empty exactly when the counter is zero. *)
Theorem accumulation_window_invariant (opt : Opt) (ext : Externals)
    (train_step : CellStep + FnStep) (data_loader : list (Tensor * Tensor))
    (i : Z) (s s' : Loop) (w w' : World) :
  train_loop opt ext train_step i data_loader s w = Return s' w' ->
  window_ok (accumulate s) s ->
  (i < ext_warmup_steps ext -> window_ok (warmup_accumulate opt ext i) s) ->
  window_ok (accumulate s') s'.
Proof.
  intros Hrun H1 H2.
  destruct (train_loop_state opt ext train_step data_loader i s s' w w' Hrun)
    as (_ & _ & _ & _ & _ & H).
  apply H; assumption.
Qed.

(** *** The whole of [train], seen from outside *)

Lemma train_eq (rank_size : Z) (pc : ParallelContext) (hyp : gmap string Q)
    (opt : Opt) (data_dict : DataDict) (ext : Externals)
    (data_loader : list (Tensor * Tensor)) (w : World) :
  train rank_size pc hyp opt data_dict ext data_loader w =
  match setup rank_size pc hyp opt data_dict ext
          (with_rngs w (np_random_seed default_seed) (random_seed default_seed)
                     (ms_set_seed default_seed)) with
  | Return (train_step, s0) w1 =>
      match train_loop opt ext train_step 0 data_loader s0 w1 with
      | Return _ w2 => Return 0 w2
      | Raise e w2 => Raise e w2
      end
  | Raise e w1 => Raise e w1
  end.
Proof.
  unfold train, bind. cbn [set_seed]. unfold with_rngs.
  destruct (setup _ _ _ _ _ _ _) as [[ts s0] w1|e w1]; reflexivity.
Qed.

Lemma train_summary (rank_size : Z) (pc : ParallelContext) (hyp : gmap string Q)
    (opt : Opt) (data_dict : DataDict) (ext : Externals)
    (data_loader : list (Tensor * Tensor)) (w : World) :
  let o := train rank_size pc hyp opt data_dict ext data_loader w in
  let n := length data_loader in
  exists evs,
    trace (final_world o) = trace w ++ evs /\
    np_rng (final_world o) = np_random_seed default_seed /\
    ms_rng (final_world o) = ms_set_seed default_seed /\
    (length (sizes_of evs) <= n)%nat /\
    Forall2 (grid_sizes opt ext) (firstn (length (sizes_of evs)) data_loader)
            (sizes_of evs) /\
    (opt_multi_scale opt = false -> Forall (eq None) (sizes_of evs)) /\
    Z.of_nat (count_events is_save_checkpoint evs) <=
      epoch_ends (ext_per_epoch_size ext) 0 n /\
    (opt_rank opt mod 8 <> 0 -> count_events is_save_checkpoint evs = 0%nat) /\
    count_events is_save_ema_checkpoint evs =
      (if opt_ema opt then count_events is_save_checkpoint evs else 0%nat) /\
    (raised o = false ->
       length (sizes_of evs) = n /\
       (opt_rank opt mod 8 = 0 ->
        Z.of_nat (count_events is_save_checkpoint evs) =
          epoch_ends (ext_per_epoch_size ext) 0 n) /\
       py_rng (final_world o) =
         if opt_multi_scale opt
         then Nat.iter n (next_py_rng ext) (random_seed default_seed)
         else random_seed default_seed).
Proof.
  intros o n. subst o. rewrite train_eq.
  set (w0 := with_rngs w (np_random_seed default_seed) (random_seed default_seed)
                       (ms_set_seed default_seed)).
  destruct (prints_only_setup rank_size pc hyp opt data_dict ext w0) as (msgs & Hw1).
  destruct (printed_counts is_save_checkpoint msgs ltac:(reflexivity)) as [P1 P0].
  destruct (printed_counts is_save_ema_checkpoint msgs ltac:(reflexivity)) as [P2 _].
  pose proof (epoch_ends_nonneg (ext_per_epoch_size ext) 0 n) as Hnn.
  destruct (setup rank_size pc hyp opt data_dict ext w0) as [[ts s0] w1|e w1] eqn:Es;
    cbn [final_world] in Hw1; subst w1.
  - destruct (setup_inv _ _ _ _ _ _ _ _ _ _ Es) as (_ & _ & Hstep & _ & _ & _ & He & _).
    assert (Hts : driver_step pc hyp opt ts).
    { destruct Hstep as [(_ & _ & -> & _)|(_ & -> & _)]; [exact I|reflexivity]. }
    destruct (train_loop_summary pc hyp opt ext ts Hts data_loader 0 s0
                (add_events w0 (map Stdout msgs)))
      as (evs & Htr & Hnp & Hms & Hle & Hf2 & Hoff & Hsv & Hrk & Hse & Hret).
    destruct (train_loop opt ext ts 0 data_loader s0 (add_events w0 (map Stdout msgs)))
      as [s' w'|e w']; cbn [final_world raised ret] in *;
      exists (map Stdout msgs ++ evs);
      rewrite sizes_of_app, !count_events_app, P0, P1, P2; cbn [app Nat.add];
      (split; [rewrite Htr; cbn [add_events trace w0 with_rngs]; rewrite app_assoc; reflexivity|]);
      (split; [exact Hnp|]); (split; [exact Hms|]);
      (split; [exact Hle|]); (split; [exact Hf2|]); (split; [exact Hoff|]);
      (split; [exact Hsv|]); (split; [exact Hrk|]);
      (split; [rewrite Hse; destruct (ema s0), (opt_ema opt); try reflexivity;
               exfalso; destruct He as [He1 He2];
               first [specialize (He1 eq_refl)|specialize (He2 eq_refl)]; discriminate|]).
    + exact Hret.
    + discriminate.
  - exists (map Stdout msgs). cbn [final_world raised add_events trace np_rng ms_rng w0 with_rngs].
    rewrite P0, P1, P2. cbn [length firstn].
    split; [reflexivity|]. split; [reflexivity|]. split; [reflexivity|].
    split; [lia|]. split; [constructor|]. split; [intros _; constructor|].
    split; [exact Hnn|]. split; [reflexivity|].
    split; [destruct (opt_ema opt); reflexivity|discriminate].
Qed.

(** X5.  Each batch that the loader yields reaches the step function once:
    the calls of the step function in a run of [train] are no more than the
    batches, under either strategy and whatever the configuration, and a
    run that returns has made exactly one call per batch. *)
Theorem every_batch_one_step_call (rank_size : Z) (pc : ParallelContext)
    (hyp : gmap string Q) (opt : Opt) (data_dict : DataDict) (ext : Externals)
    (data_loader : list (Tensor * Tensor)) (w : World) :
  let o := train rank_size pc hyp opt data_dict ext data_loader w in
  exists evs,
    trace (final_world o) = trace w ++ evs /\
    (count_events is_train_step_call evs <= length data_loader)%nat /\
    (raised o = false ->
     count_events is_train_step_call evs = length data_loader).
Proof.
  intros o.
  destruct (train_summary rank_size pc hyp opt data_dict ext data_loader w)
    as (evs & Htr & _ & _ & Hle & _ & _ & _ & _ & _ & Hret).
  exists evs. rewrite <- length_sizes_of.
  split; [exact Htr|]. split; [exact Hle|].
  intros Hr. destruct (Hret Hr) as (H & _). exact H.
Qed.

(** X6.  Checkpoints are written at epoch ends only, by ranks divisible by
    8 only.  With [per_epoch_size > 0], a run of [train] writes at most one
    model checkpoint per completed epoch of the loader and none on a rank
    that 8 does not divide; it writes an EMA checkpoint beside every model
    checkpoint when EMA is enabled and none otherwise; a run that returns
    on a rank divisible by 8 has written exactly one model checkpoint per
    completed epoch. *)
Theorem checkpoints_at_epoch_ends (rank_size : Z) (pc : ParallelContext)
    (hyp : gmap string Q) (opt : Opt) (data_dict : DataDict) (ext : Externals)
    (data_loader : list (Tensor * Tensor)) (w : World) :
  0 < ext_per_epoch_size ext ->
  let o := train rank_size pc hyp opt data_dict ext data_loader w in
  let epochs := Z.of_nat (length data_loader) / ext_per_epoch_size ext in
  exists evs,
    trace (final_world o) = trace w ++ evs /\
    Z.of_nat (count_events is_save_checkpoint evs) <= epochs /\
    (opt_rank opt mod 8 <> 0 -> count_events is_save_checkpoint evs = 0%nat) /\
    count_events is_save_ema_checkpoint evs =
      (if opt_ema opt then count_events is_save_checkpoint evs else 0%nat) /\
    (raised o = false -> opt_rank opt mod 8 = 0 ->
     Z.of_nat (count_events is_save_checkpoint evs) = epochs).
Proof.
  intros Hp o epochs.
  destruct (train_summary rank_size pc hyp opt data_dict ext data_loader w)
    as (evs & Htr & _ & _ & _ & _ & _ & Hsv & Hrk & Hse & Hret).
  rewrite (epoch_ends_div _ 0 _ Hp), Z.add_0_l, Z.div_0_l, Z.sub_0_r in * by lia.
  exists evs. split; [exact Htr|]. split; [exact Hsv|]. split; [exact Hrk|].
  split; [exact Hse|].
  intros Hr H8. destruct (Hret Hr) as (_ & H & _).
  apply H. exact H8.
Qed.

(** X7.  The sizes handed to the step function, and the generators.  In a
    run of [train] the k-th call of the step function is made for the k-th
    batch and receives either no sizes or, under multi-scale training only,
    one size per image side, each a multiple of the grid size; with
    multi-scale training off it never receives sizes.  The numpy and
    framework generators are left as seeded, and after a run that returns
    the Python generator has been drawn from once per batch under
    multi-scale training and not at all otherwise. *)
Theorem multi_scale_sizes_on_the_grid (rank_size : Z) (pc : ParallelContext)
    (hyp : gmap string Q) (opt : Opt) (data_dict : DataDict) (ext : Externals)
    (data_loader : list (Tensor * Tensor)) (w : World) :
  let o := train rank_size pc hyp opt data_dict ext data_loader w in
  let sizes := sizes_of (skipn (length (trace w)) (trace (final_world o))) in
  Forall2 (grid_sizes opt ext) (firstn (length sizes) data_loader) sizes /\
  (opt_multi_scale opt = false -> Forall (eq None) sizes) /\
  np_rng (final_world o) = np_random_seed 2 /\
  ms_rng (final_world o) = ms_set_seed 2 /\
  (raised o = false ->
   py_rng (final_world o) =
     if opt_multi_scale opt
     then Nat.iter (length data_loader) (next_py_rng ext) (random_seed 2)
     else random_seed 2).
Proof.
  intros o sizes.
  destruct (train_summary rank_size pc hyp opt data_dict ext data_loader w)
    as (evs & Htr & Hnp & Hms & _ & Hf2 & Hoff & _ & _ & _ & Hret).
  fold o in Htr, Hnp, Hms, Hret.
  assert (Hs : sizes = sizes_of evs).
  { subst sizes. rewrite Htr, drop_app_length. reflexivity. }
  rewrite Hs. split; [exact Hf2|]. split; [exact Hoff|].
  split; [exact Hnp|]. split; [exact Hms|].
  intros Hr. destruct (Hret Hr) as (_ & _ & H). exact H.
Qed.

(** *** Total batch sizes from 43 on: no accumulation *)

Lemma warmup_accumulate_large_batch (opt : Opt) (ext : Externals) (j : Z) :
  43 <= opt_total_batch_size opt -> warmup_accumulate opt ext j = 1.
Proof.
  intros H.
  pose proof (warmup_accumulate_ge_one opt ext j) as H1.
  pose proof (warmup_accumulate_le_nominal opt ext j) as H2.
  destruct (nominal_target opt ltac:(lia)) as (_ & [_ H3] & _).
  rewrite (H3 H) in H2. lia.
Qed.

Lemma immediate_loop (pc : ParallelContext) (hyp : gmap string Q) (opt : Opt)
    (ext : Externals) (fin : Tensor * Tensor -> bool) :
  (forall d ls m ns, all_finite (batch_grads pc hyp opt ls m d ns) = fin d) ->
  (sgd_or_momentum opt = true ->
   Z.of_nat (length (ext_momentum_pg ext)) = ext_warmup_steps ext) ->
  (forall j, warmup_accumulate opt ext j = 1) ->
  forall (data_loader : list (Tensor * Tensor)) (i : Z) (s : Loop) (w : World),
  0 <= i ->
  accumulate s = 1 ->
  exists s' w' evs,
    train_loop opt ext (inr (static_shape_step pc hyp opt)) i data_loader s w =
      Return s' w' /\
    trace w' = trace w ++ evs /\
    accumulate s' = 1 /\
    accumulate_grads s' = accumulate_grads s /\
    accumulate_cur_step s' = accumulate_cur_step s /\
    (ema s' = None <-> ema s = None) /\
    (loss_scaler s' = None <-> loss_scaler s = None) /\
    count_events is_train_step_call evs = length data_loader /\
    Z.of_nat (count_events is_optimizer_call evs) =
      (if opt_overflow_still_update opt then Z.of_nat (length data_loader)
       else count_batches fin data_loader) /\
    count_events is_ema_update evs =
      match ema s with Some _ => length data_loader | None => 0%nat end /\
    count_events is_scaler_adjust evs =
      match loss_scaler s with Some _ => length data_loader | None => 0%nat end.
Proof.
  intros Hfin Hmom Hone data_loader.
  induction data_loader as [|d rest IH]; intros i s w Hi Hacc.
  - exists s, w, []. cbn [train_loop count_batches count_events length].
    rewrite app_nil_r.
    split; [reflexivity|]. split; [reflexivity|]. split; [exact Hacc|].
    split; [reflexivity|]. split; [reflexivity|]. split; [tauto|]. split; [tauto|].
    split; [reflexivity|].
    split; [destruct (opt_overflow_still_update opt); reflexivity|].
    split; [destruct (ema s); reflexivity|destruct (loss_scaler s); reflexivity].
  - cbn [train_loop count_batches length].
    destruct (warmup_returns opt ext i s w Hi Hmom) as (s1 & Hw).
    assert (Hacc1 : accumulate s1 = 1).
    { destruct (warmup_keeps opt ext i s s1 w Hw) as (_ & _ & _ & _ & _ & Ha).
      rewrite Ha. destruct (i <? ext_warmup_steps ext); [apply Hone|exact Hacc]. }
    destruct (immediate_iteration pc hyp opt ext i d s s1 w Hw Hacc1)
      as (ns & bk & w1 & Htr & Hbk & Hrun).
    cbn zeta in Hrun. rewrite Hfin in Hrun.
    rewrite (bind_return _ _ _ _ _ Hrun).
    destruct (bookkeeping_counts bk Hbk) as (Hz1 & Hz2 & Hz3 & Hz4 & _).
    match type of Hrun with _ = Return ?st ?wd =>
      destruct (IH (i + 1) st wd) as (s' & w' & evs & Hrun' & Htr' & Ha' & Hb' & Hc'
                                      & He' & Hl' & Hn' & Ho' & Hem' & Had');
        [lia|exact Hacc1|]
    end.
    cbn [with_step accumulate_grads accumulate_cur_step ema loss_scaler] in *.
    eexists s', w', _. split; [exact Hrun'|].
    split; [rewrite Htr', trace_add_events, Htr, <- app_assoc; reflexivity|].
    split; [exact Ha'|]. split; [exact Hb'|]. split; [exact Hc'|].
    split; [rewrite He'; destruct (ema s); cbn; split; congruence|].
    split; [rewrite Hl'; destruct (loss_scaler s); cbn; split; congruence|].
    unfold update_events, overflow_adjust_events. rewrite Hfin.
    split.
    { destruct (fin d), (opt_overflow_still_update opt), (loss_scaler s), (ema s);
        count_norm; rewrite Hz4, Hn'; reflexivity. }
    split.
    { rewrite !count_events_app, Nat2Z.inj_add, Ho'.
      destruct (fin d), (opt_overflow_still_update opt), (loss_scaler s), (ema s);
        count_norm; rewrite Hz1; lia. }
    split.
    { rewrite !count_events_app, Hem'.
      destruct (fin d), (opt_overflow_still_update opt), (loss_scaler s), (ema s);
        count_norm; rewrite Hz2; reflexivity. }
    rewrite !count_events_app, Had'.
    destruct (fin d), (opt_overflow_still_update opt), (loss_scaler s), (ema s);
      count_norm; rewrite Hz3; reflexivity.
Qed.

(** X8.  A total batch size of at least 43 under the StaticShape strategy:
    the loop, entered with target 1 as set-up leaves it, takes the
    immediate-update path on every batch and returns.  It calls the step
    function once per batch, the optimizer once per batch with finite
    gradients (once per batch at all when the still-update flag is set),
    [ema.update] once per batch when EMA is enabled, dropped batches
    included, and [loss_scaler.adjust] once per batch when a loss scaler is
    configured; the accumulation window is never touched. *)
Theorem large_batches_update_immediately (pc : ParallelContext) (hyp : gmap string Q)
    (opt : Opt) (ext : Externals) (fin : Tensor * Tensor -> bool)
    (data_loader : list (Tensor * Tensor)) (i : Z) (s : Loop) (w : World) :
  43 <= opt_total_batch_size opt ->
  loop_defined opt ext i data_loader ->
  (forall d ls m ns, all_finite (batch_grads pc hyp opt ls m d ns) = fin d) ->
  accumulate s = 1 ->
  exists s' w' evs,
    train_loop opt ext (inr (static_shape_step pc hyp opt)) i data_loader s w =
      Return s' w' /\
    trace w' = trace w ++ evs /\
    accumulate s' = 1 /\
    accumulate_grads s' = accumulate_grads s /\
    accumulate_cur_step s' = accumulate_cur_step s /\
    count_events is_train_step_call evs = length data_loader /\
    Z.of_nat (count_events is_optimizer_call evs) =
      (if opt_overflow_still_update opt then Z.of_nat (length data_loader)
       else count_batches fin data_loader) /\
    count_events is_ema_update evs =
      match ema s with Some _ => length data_loader | None => 0%nat end /\
    count_events is_scaler_adjust evs =
      match loss_scaler s with Some _ => length data_loader | None => 0%nat end.
Proof.
  intros Hbig (Hi & _ & Hmom & _) Hfin Hacc.
  destruct (immediate_loop pc hyp opt ext fin Hfin Hmom
              (fun j => warmup_accumulate_large_batch opt ext j Hbig)
              data_loader i s w Hi Hacc)
    as (s' & w' & evs & H1 & H2 & H3 & H4 & H5 & _ & _ & H6 & H7 & H8 & H9).
  exists s', w', evs. repeat (split; [assumption|]). assumption.
Qed.

(** *** The StaticCell strategy over a loader *)

(** An iteration of the StaticCell strategy; [s1] is the loop state that the
    warm-up block leaves. *)
Lemma static_cell_iteration (opt : Opt) (ext : Externals) (cell : CellStep) (i : Z)
    (data : Tensor * Tensor) (s s1 : Loop) (w : World) :
  warmup opt ext i s w = Return s1 w ->
  accumulate s1 = 1 ->
  exists ns w1 s' x,
    trace w1 = trace w /\
    let r := cell (optimizer s1) (model s) (as_dtype (input_dtype opt) (fst data))
                  (as_dtype (input_dtype opt) (snd data)) ns in
    loop_body opt ext (inl cell) i data s w =
      Return s'
        (add_events w1
           (TrainStepCall ns ::
            (if overflow_of r
             then [Stdout (MsgCellOverflowDrop (i / ext_per_epoch_size ext + 1)
                             (i mod ext_per_epoch_size ext + 1) (snd (fst r)))]
             else ema_events (ema s)) ++
            log_events opt ext i (as_dtype (input_dtype opt) (fst data)) ns s' x)) /\
    model s' = snd r /\
    ema s' = (if overflow_of r then ema s
              else option_map (fun e => EMA_update e (snd r)) (ema s)) /\
    optimizer s' = optimizer s1 /\ loss_scaler s' = loss_scaler s /\
    accumulate s' = 1 /\
    accumulate_grads s' = accumulate_grads s /\
    accumulate_cur_step s' = accumulate_cur_step s.
Proof.
  intros Hw Hacc.
  destruct (warmup_keeps opt ext i s s1 w Hw) as (Hm & He & Hl & Hb & Hc & _).
  destruct (multi_scale_returns opt ext (as_dtype (input_dtype opt) (fst data)) w)
    as (ns & w1 & Hms & Htr).
  exists ns, w1.
  unfold loop_body. unfold bind at 1. rewrite Hw.
  unfold bind at 1. rewrite Hms. unfold bind at 1.
  unfold static_cell_branch. rewrite Hacc, Hm, He. cbn [Z.eqb Pos.eqb assert].
  unfold bind at 1. unfold ret at 1. unfold bind at 1. rewrite emit_eq.
  unfold overflow_of.
  destruct (cell (optimizer s1) (model s) (as_dtype (input_dtype opt) (fst data))
              (as_dtype (input_dtype opt) (snd data)) ns)
    as [[[loss overflow] loss_scale] m'].
  cbn [fst snd].
  destruct overflow; [|destruct (ema s) as [e|]]; run;
    rewrite log_step_eq, ?add_events_app; cbn [app ema_events option_map];
    eexists _, _; (split; [exact Htr|]); (split; [reflexivity|]);
    cbn [model ema optimizer loss_scaler accumulate accumulate_grads
         accumulate_cur_step];
    repeat split; congruence.
Qed.

Lemma log_events_bookkeeping (opt : Opt) (ext : Externals) (i : Z) (imgs : Tensor)
    (ns : option (list Z)) (s : Loop) (x : Tensor * option Tensor) :
  forallb is_bookkeeping (log_events opt ext i imgs ns s x) = true.
Proof.
  unfold log_events, save_events.
  destruct (snd x); destruct ((i + 1) mod ext_per_epoch_size ext =? 0);
    destruct (opt_rank opt mod 8 =? 0); cbn [andb]; destruct (ema s); reflexivity.
Qed.

Lemma static_cell_loop (opt : Opt) (ext : Externals) (cell : CellStep)
    (ovf : Tensor * Tensor -> bool) :
  (forall d o m ns,
     overflow_of (cell o m (as_dtype (input_dtype opt) (fst d))
                       (as_dtype (input_dtype opt) (snd d)) ns) = ovf d) ->
  (sgd_or_momentum opt = true ->
   Z.of_nat (length (ext_momentum_pg ext)) = ext_warmup_steps ext) ->
  (forall j, warmup_accumulate opt ext j = 1) ->
  forall (data_loader : list (Tensor * Tensor)) (i : Z) (s : Loop) (w : World),
  0 <= i ->
  accumulate s = 1 ->
  exists s' w' evs,
    train_loop opt ext (inl cell) i data_loader s w = Return s' w' /\
    trace w' = trace w ++ evs /\
    accumulate s' = 1 /\
    accumulate_grads s' = accumulate_grads s /\
    accumulate_cur_step s' = accumulate_cur_step s /\
    loss_scaler s' = loss_scaler s /\
    (ema s' = None <-> ema s = None) /\
    count_events is_train_step_call evs = length data_loader /\
    count_events is_optimizer_call evs = 0%nat /\
    count_events is_scaler_adjust evs = 0%nat /\
    Z.of_nat (count_events is_ema_update evs) =
      match ema s with
      | Some _ => count_batches (fun d => negb (ovf d)) data_loader
      | None => 0
      end /\
    Z.of_nat (count_events logs_loss_scale evs) = count_batches ovf data_loader.
Proof.
  intros Hovf Hmom Hone data_loader.
  induction data_loader as [|d rest IH]; intros i s w Hi Hacc.
  - exists s, w, []. cbn [train_loop count_batches count_events length].
    rewrite app_nil_r.
    split; [reflexivity|]. split; [reflexivity|]. split; [exact Hacc|].
    split; [reflexivity|]. split; [reflexivity|]. split; [reflexivity|].
    split; [tauto|]. split; [reflexivity|]. split; [reflexivity|].
    split; [reflexivity|].
    split; [destruct (ema s); reflexivity|reflexivity].
  - cbn [train_loop count_batches length].
    destruct (warmup_returns opt ext i s w Hi Hmom) as (s1 & Hw).
    assert (Hacc1 : accumulate s1 = 1).
    { destruct (warmup_keeps opt ext i s s1 w Hw) as (_ & _ & _ & _ & _ & Ha).
      rewrite Ha. destruct (i <? ext_warmup_steps ext); [apply Hone|exact Hacc]. }
    destruct (static_cell_iteration opt ext cell i d s s1 w Hw Hacc1)
      as (ns & w1 & s2 & x & Htr & Hrun & _ & He2 & _ & Hl2 & Ha2 & Hb2 & Hc2).
    cbn zeta in Hrun, He2. rewrite Hovf in Hrun, He2.
    rewrite (bind_return _ _ _ _ _ Hrun).
    destruct (bookkeeping_counts _
                (log_events_bookkeeping opt ext i (as_dtype (input_dtype opt) (fst d))
                   ns s2 x)) as (Hz1 & Hz2 & Hz3 & Hz4 & Hz5).
    destruct (IH (i + 1) s2
                (add_events w1
                   (TrainStepCall ns ::
                    (if ovf d
                     then [Stdout (MsgCellOverflowDrop (i / ext_per_epoch_size ext + 1)
                                     (i mod ext_per_epoch_size ext + 1)
                                     (snd (fst (cell (optimizer s1) (model s)
                                        (as_dtype (input_dtype opt) (fst d))
                                        (as_dtype (input_dtype opt) (snd d)) ns))))]
                     else ema_events (ema s)) ++
                    log_events opt ext i (as_dtype (input_dtype opt) (fst d)) ns s2 x)))
      as (s' & w' & evs & Hrun' & Htr' & Ha' & Hb' & Hc' & Hl' & He' & Hn' & Ho' & Had'
          & Hem' & Hlg'); [lia|exact Ha2|].
    eexists s', w', _. split; [exact Hrun'|].
    split; [rewrite Htr', trace_add_events, Htr, <- app_assoc; reflexivity|].
    split; [exact Ha'|]. split; [congruence|]. split; [congruence|].
    split; [congruence|].
    split; [rewrite He', He2; destruct (ovf d), (ema s); cbn; split; congruence|].
    rewrite !count_events_app.
    split.
    { destruct (ovf d), (ema s); count_norm; rewrite Hz4, Hn'; reflexivity. }
    split.
    { destruct (ovf d), (ema s); count_norm; rewrite Hz1, Ho'; reflexivity. }
    split.
    { destruct (ovf d), (ema s); count_norm; rewrite Hz3, Had'; reflexivity. }
    split.
    { rewrite Nat2Z.inj_add, Hem', He2.
      destruct (ovf d), (ema s); cbn [negb option_map]; count_norm; rewrite Hz2; lia. }
    rewrite Nat2Z.inj_add, Hlg'.
    destruct (ovf d), (ema s); count_norm; rewrite Hz5; lia.
Qed.

(** X9.  A total batch size of at least 43 under the StaticCell strategy,
    when the cell's overflow flag is a property [ovf] of the batch: the
    loop, entered with target 1, returns after one call of the step
    function per batch.  The driver itself never calls the optimizer or a
    loss scaler's [adjust] (both are the cell's business); it calls
    [ema.update] once per batch that did not overflow when EMA is enabled,
    and prints the cell's loss scale once per batch that overflowed. *)
Theorem static_cell_over_a_loader (opt : Opt) (ext : Externals) (cell : CellStep)
    (ovf : Tensor * Tensor -> bool) (data_loader : list (Tensor * Tensor)) (i : Z)
    (s : Loop) (w : World) :
  43 <= opt_total_batch_size opt ->
  loop_defined opt ext i data_loader ->
  (forall d o m ns,
     overflow_of (cell o m (as_dtype (input_dtype opt) (fst d))
                       (as_dtype (input_dtype opt) (snd d)) ns) = ovf d) ->
  accumulate s = 1 ->
  exists s' w' evs,
    train_loop opt ext (inl cell) i data_loader s w = Return s' w' /\
    trace w' = trace w ++ evs /\
    count_events is_train_step_call evs = length data_loader /\
    count_events is_optimizer_call evs = 0%nat /\
    count_events is_scaler_adjust evs = 0%nat /\
    Z.of_nat (count_events is_ema_update evs) =
      match ema s with
      | Some _ => count_batches (fun d => negb (ovf d)) data_loader
      | None => 0
      end /\
    Z.of_nat (count_events logs_loss_scale evs) = count_batches ovf data_loader /\
    loss_scaler s' = loss_scaler s.
Proof.
  intros Hbig (Hi & _ & Hmom & _) Hovf Hacc.
  destruct (static_cell_loop opt ext cell ovf Hovf Hmom
              (fun j => warmup_accumulate_large_batch opt ext j Hbig)
              data_loader i s w Hi Hacc)
    as (s' & w' & evs & H1 & H2 & _ & _ & _ & H3 & _ & H4 & H5 & H6 & H7 & H8).
  exists s', w', evs. repeat (split; [assumption|]). assumption.
Qed.

(** *** What set-up checks and what it hands to the loop *)

Lemma sgd_or_momentum_iff (opt : Opt) :
  sgd_or_momentum opt = true <->
  opt_optimizer opt = "sgd"%string \/ opt_optimizer opt = "momentum"%string.
Proof.
  unfold sgd_or_momentum. rewrite orb_true_iff, !String.eqb_eq. tauto.
Qed.

(** X10.  Set-up returns only on a configuration that passes all of its
    checks: as many class names as classes, a non-empty [freeze] list,
    label classes below the number of classes, "yolov7" in the name of the
    model configuration, an optimizer among sgd, momentum and adam, one
    momentum per warm-up step for sgd and momentum, and either the
    StaticCell strategy with [ms_grad_sens] equal to
    [ms_loss_scaler_value], or the StaticShape strategy with a loss scaler
    among dynamic, static and none.  On any other configuration [train]
    raises before the step function is called at all. *)
Theorem setup_accepts_only_checked_configurations (rank_size : Z)
    (pc : ParallelContext) (hyp : gmap string Q) (opt : Opt) (data_dict : DataDict)
    (ext : Externals) (data_loader : list (Tensor * Tensor)) (w : World) :
  (forall r w', setup rank_size pc hyp opt data_dict ext w = Return r w' ->
                configuration_ok opt data_dict ext) /\
  (~ configuration_ok opt data_dict ext ->
   exists e w',
     train rank_size pc hyp opt data_dict ext data_loader w = Raise e w' /\
     count_events is_train_step_call (trace w') =
     count_events is_train_step_call (trace w)).
Proof.
  assert (Hok : forall r w0 w', setup rank_size pc hyp opt data_dict ext w0 = Return r w' ->
                                configuration_ok opt data_dict ext).
  { intros [ts s0] w0 w' Hs.
    destruct (setup_inv _ _ _ _ _ _ _ _ _ _ Hs)
      as ((C1 & C2 & C3 & C4 & C5) & Hopt & Hstep & _).
    unfold configuration_ok.
    split; [exact C1|]. split; [exact C2|]. split; [exact C3|]. split; [exact C4|].
    split; [tauto|].
    split; [intros H; apply C5; apply sgd_or_momentum_iff; exact H|].
    destruct Hstep as [(E & Hq & _)|(E & _ & Hls)]; [left; tauto|right].
    split; [exact E|tauto]. }
  split; [intros r w'; apply Hok|].
  intros Hbad. apply train_stops_at_setup.
  intros w0. destruct (setup rank_size pc hyp opt data_dict ext w0) as [r w1|e w1] eqn:E;
    [|reflexivity].
  exfalso. apply Hbad. exact (Hok r w0 w1 E).
Qed.

(** X11.  What a set-up that returns hands to the loop: an empty
    accumulation window; an EMA tracker exactly when [opt.ema] is set; an
    optimizer of the requested kind with [ms_optim_loss_scale] as loss
    scale; under StaticCell the framework's cell built with [ms_grad_sens]
    and no loss scaler on the driver's side, whatever [ms_loss_scaler]
    says; under StaticShape the closure of
    [create_train_static_shape_fn_gradoperation] and the loss scaler that
    [ms_loss_scaler] names (dynamic: scale 2 ^ 12, factor 2, window 1000).
    Set-up itself only prints: the trace grows by printed lines and the
    generators are left alone. *)
Theorem setup_initial_state (rank_size : Z) (pc : ParallelContext)
    (hyp : gmap string Q) (opt : Opt) (data_dict : DataDict) (ext : Externals)
    (train_step : CellStep + FnStep) (s0 : Loop) (w w' : World) :
  setup rank_size pc hyp opt data_dict ext w = Return (train_step, s0) w' ->
  accumulate_grads s0 = None /\ accumulate_cur_step s0 = 0 /\
  (ema s0 = None <-> opt_ema opt = false) /\
  optim_loss_scale (optimizer s0) = opt_ms_optim_loss_scale opt /\
  (opt_optimizer opt = "sgd"%string /\ optim_kind (optimizer s0) = SGD \/
   opt_optimizer opt = "momentum"%string /\ optim_kind (optimizer s0) = Momentum \/
   opt_optimizer opt = "adam"%string /\ optim_kind (optimizer s0) = Adam) /\
  (opt_ms_strategy opt = "StaticCell"%string /\
   train_step = inl (TrainOneStepWithLossScaleCell
                       (Warpper_construct hyp default_rank_size) (opt_ms_grad_sens opt)) /\
   loss_scaler s0 = None
   \/
   opt_ms_strategy opt = "StaticShape"%string /\
   train_step = inr (static_shape_step pc hyp opt) /\
   (opt_ms_loss_scaler opt = "dynamic"%string /\
    loss_scaler s0 = Some (DynamicLossScaler (inject_Z (2 ^ 12)) 2 1000 0) \/
    opt_ms_loss_scaler opt = "static"%string /\
    loss_scaler s0 = Some (StaticLossScaler (opt_ms_loss_scaler_value opt)) \/
    opt_ms_loss_scaler opt = "none"%string /\ loss_scaler s0 = None)) /\
  exists msgs, w' = add_events w (map Stdout msgs).
Proof.
  intros Hs.
  destruct (setup_inv _ _ _ _ _ _ _ _ _ _ Hs)
    as (_ & Hopt & Hstep & _ & Hb & Hc & He & Hsc & _).
  split; [exact Hb|]. split; [exact Hc|]. split; [exact He|]. split; [exact Hsc|].
  split; [exact Hopt|].
  split; [destruct Hstep as [(E & _ & Hts & Hl)|H]; [left; tauto|right; exact H]|].
  destruct (prints_only_setup rank_size pc hyp opt data_dict ext w) as (msgs & Hw).
  rewrite Hs in Hw. exists msgs. exact Hw.
Qed.

(** *** The EMA checkpoint is read only beside pretrained weights *)

Lemma load_pretrained_set_ema_weight (opt : Opt) (x : string) (m : Cell)
    (e : option (EMA Cell Tensor)) :
  endswith (opt_weights opt) ".ckpt" = false \/ e = None ->
  load_pretrained (set_ema_weight opt x) m e = load_pretrained opt m e.
Proof.
  intros H. unfold load_pretrained. cbn [set_ema_weight opt_weights opt_ema_weight].
  destruct H as [H| ->]; [rewrite H; reflexivity|].
  destruct (endswith (opt_weights opt) ".ckpt"); reflexivity.
Qed.

Lemma train_loop_set_ema_weight (opt : Opt) (x : string) (ext : Externals)
    (train_step : CellStep + FnStep) (data_loader : list (Tensor * Tensor)) :
  forall (i : Z) (s : Loop) (w : World),
  train_loop (set_ema_weight opt x) ext train_step i data_loader s w =
  train_loop opt ext train_step i data_loader s w.
Proof.
  induction data_loader as [|d rest IH]; intros i s w; [reflexivity|].
  cbn [train_loop]. unfold bind.
  change (loop_body (set_ema_weight opt x) ext train_step i d s w)
    with (loop_body opt ext train_step i d s w).
  destruct (loop_body opt ext train_step i d s w) as [s1 w1|e w1]; [apply IH|reflexivity].
Qed.

Lemma setup_set_ema_weight (rank_size : Z) (pc : ParallelContext) (hyp : gmap string Q)
    (opt : Opt) (x : string) (data_dict : DataDict) (ext : Externals) (w : World) :
  endswith (opt_weights opt) ".ckpt" = false \/ opt_ema opt = false ->
  setup rank_size pc hyp (set_ema_weight opt x) data_dict ext w =
  setup rank_size pc hyp opt data_dict ext w.
Proof.
  intros H. unfold setup.
  cbn [set_ema_weight opt_single_cls opt_sync_bn opt_device_target opt_cfg opt_ema].
  rewrite load_pretrained_set_ema_weight; [reflexivity|].
  destruct H as [H|H]; [left; exact H|right; rewrite H; reflexivity].
Qed.

(** X12.  [opt.ema_weight] is read only when the pretrained weights are a
    .ckpt file and EMA is enabled: otherwise a run of [train] is the same,
    outcome and trace, whatever [ema_weight] names, so an EMA checkpoint
    given without pretrained weights is silently ignored. *)
Theorem ema_weight_ignored_without_pretrained_weights (rank_size : Z)
    (pc : ParallelContext) (hyp : gmap string Q) (opt : Opt) (x : string)
    (data_dict : DataDict) (ext : Externals) (data_loader : list (Tensor * Tensor))
    (w : World) :
  endswith (opt_weights opt) ".ckpt" = false \/ opt_ema opt = false ->
  train rank_size pc hyp (set_ema_weight opt x) data_dict ext data_loader w =
  train rank_size pc hyp opt data_dict ext data_loader w.
Proof.
  intros H. rewrite !train_eq, (setup_set_ema_weight _ _ _ _ _ _ _ _ H).
  destruct (setup rank_size pc hyp opt data_dict ext _) as [[ts s0] w1|e w1];
    [|reflexivity].
  rewrite train_loop_set_ema_weight. reflexivity.
Qed.

(** *** The [__main__] block *)

(** X13.  [__main__] calls [train] exactly when its own checks pass: a
    model configuration or weights are named, the device target is Ascend,
    the batch size is a multiple of the device count when there is more
    than one device, and evolve is off.  Otherwise it raises with nothing
    done: no generator seeded, nothing printed, no training.  When it does
    call [train], it is with the total batch size set to the batch size
    given, the batch size divided by the device count (their product is
    the total again), the rank and device count recorded in [opt], and
    gradient averaging over that many devices; a run that is not
    distributed has rank 0 and one device. *)
Theorem main_calls_train_when_checks_pass (get_rank get_group_size : Z)
    (hyp : gmap string Q) (opt : Opt) (data_dict : DataDict) (ext : Externals)
    (data_loader : list (Tensor * Tensor)) (w : World) :
  let rank := main_rank get_rank opt in
  let rank_size := main_rank_size get_group_size opt in
  let batch_size := if 1 <? rank_size then opt_batch_size opt / rank_size
                    else opt_batch_size opt in
  let opt' := with_distribution opt batch_size (opt_batch_size opt) rank_size rank in
  (main_ok get_group_size opt ->
   main get_rank get_group_size hyp opt data_dict ext data_loader w =
   train rank_size {| gradients_mean := true; device_num := rank_size |} hyp opt'
         data_dict ext data_loader w /\
   opt_total_batch_size opt' = opt_batch_size opt /\
   (1 < rank_size -> opt_batch_size opt' * rank_size = opt_total_batch_size opt') /\
   (rank_size <= 1 -> opt_batch_size opt' = opt_total_batch_size opt') /\
   (opt_is_distributed opt = false -> opt_rank opt' = 0 /\ opt_rank_size opt' = 1)) /\
  (~ main_ok get_group_size opt ->
   exists e, main get_rank get_group_size hyp opt data_dict ext data_loader w =
             Raise e w).
Proof.
  intros rank rank_size batch_size opt'.
  assert (Hpair : (if opt_is_distributed opt then (get_rank, get_group_size) else (0, 1))
                  = (rank, rank_size)).
  { subst rank rank_size. unfold main_rank, main_rank_size.
    destruct (opt_is_distributed opt); reflexivity. }
  assert (Hgt : (rank_size >? 1) = (1 <? rank_size)) by apply Z.gtb_ltb.
  unfold main. rewrite Hpair. cbn beta iota. rewrite Hgt. fold rank_size.
  split.
  - intros (Hcfg & Hdev & Hdiv & Hev). fold rank_size in Hdiv.
    assert (Hc : negb (String.eqb (opt_cfg opt) "") || negb (String.eqb (opt_weights opt) "")
                 = true).
    { apply orb_true_iff. rewrite !negb_true_iff, <- !not_true_iff_false, !String.eqb_eq.
      exact Hcfg. }
    rewrite Hc, Hdev. cbn [assert String.eqb Ascii.eqb Bool.eqb andb].
    unfold bind at 1. unfold ret at 1. unfold bind at 1. unfold ret at 1.
    subst opt' batch_size.
    destruct (Z.ltb_spec 1 rank_size) as [Hlt|Hle].
    + rewrite (Hdiv Hlt). cbn [Z.eqb assert]. unfold bind, ret.
      cbn [with_distribution opt_evolve opt_total_batch_size opt_batch_size
           opt_rank opt_rank_size].
      rewrite Hev. cbn [negb].
      split; [reflexivity|]. split; [reflexivity|].
      split.
      { intros _. pose proof (Z.div_mod (opt_batch_size opt) rank_size ltac:(lia)) as H.
        rewrite (Hdiv Hlt) in H. lia. }
      split; [lia|].
      intros Hd. subst rank rank_size. unfold main_rank, main_rank_size.
      rewrite Hd. split; reflexivity.
    + unfold bind, ret.
      cbn [with_distribution opt_evolve opt_total_batch_size opt_batch_size
           opt_rank opt_rank_size].
      rewrite Hev. cbn [negb].
      split; [reflexivity|]. split; [reflexivity|].
      split; [lia|]. split; [reflexivity|].
      intros Hd. subst rank rank_size. unfold main_rank, main_rank_size.
      rewrite Hd. split; reflexivity.
  - intros Hbad. unfold main_ok in Hbad. fold rank_size in Hbad.
    destruct (negb (String.eqb (opt_cfg opt) "") || negb (String.eqb (opt_weights opt) ""))
      eqn:Hc; cbn [assert]; [|eexists; reflexivity].
    unfold bind at 1. unfold ret at 1.
    destruct (String.eqb_spec (opt_device_target opt) "Ascend") as [Hdev|Hdev];
      [|eexists; reflexivity].
    unfold bind at 1. unfold ret at 1.
    destruct (Z.ltb_spec 1 rank_size) as [Hlt|Hle].
    + destruct (Z.eqb_spec (opt_batch_size opt mod rank_size) 0) as [Hm|Hm];
        cbn [assert]; [|eexists; reflexivity].
      unfold bind, ret. cbn [with_distribution opt_evolve].
      destruct (opt_evolve opt) eqn:Hev; cbn [negb]; [eexists; reflexivity|].
      exfalso. apply Hbad.
      apply orb_true_iff in Hc.
      rewrite !negb_true_iff, <- !not_true_iff_false, !String.eqb_eq in Hc. tauto.
    + unfold bind, ret. cbn [with_distribution opt_evolve].
      destruct (opt_evolve opt) eqn:Hev; cbn [negb]; [eexists; reflexivity|].
      exfalso. apply Hbad.
      apply orb_true_iff in Hc.
      rewrite !negb_true_iff, <- !not_true_iff_false, !String.eqb_eq in Hc.
      split; [exact Hc|]. split; [exact Hdev|]. split; [lia|reflexivity].
Qed.

(** *** The layers to freeze *)


(** *** One loss for both strategies *)

(** X15.  The wrapped network of the StaticCell strategy and the forward
    function of the StaticShape strategy compute the same loss: for the
    same hyper-parameters, factor, network and batch, [Warpper.construct]
    returns the first component of what [forward_func] returns; and both
    depend on the hyper-parameters only through the entry "loss_ota". *)
Theorem both_strategies_share_the_loss (hyp hyp' : gmap string Q) (rank_size : Z)
    (m : Cell) (x l : Tensor) (ns : option (list Z)) :
  Warpper_construct hyp rank_size m x l ns = fst (forward_func hyp rank_size m x l ns) /\
  (hyp !! "loss_ota"%string = hyp' !! "loss_ota"%string ->
   forward_func hyp rank_size m x l ns = forward_func hyp' rank_size m x l ns).
Proof.
  split.
  - unfold Warpper_construct, forward_func.
    destruct ns as [sz|]; destruct (use_ota hyp);
      match goal with
      | |- context [let '(_, _) := ?c in _] => destruct c
      end; reflexivity.
  - intros H. unfold forward_func, use_ota. rewrite H. reflexivity.
Qed.

(** *** The optimizer along the loop *)

Lemma warmup_optimizer (opt : Opt) (ext : Externals) (i : Z) (s s1 : Loop) (w : World) :
  warmup opt ext i s w = Return s1 w ->
  optim_kind (optimizer s1) = optim_kind (optimizer s) /\
  optim_loss_scale (optimizer s1) = optim_loss_scale (optimizer s) /\
  optim_momentum (optimizer s1) = warmup_momentum opt ext i (optimizer s).
Proof.
  unfold warmup, warmup_momentum. destruct (i <? ext_warmup_steps ext); cbn [andb].
  - destruct (sgd_or_momentum opt).
    + destruct (nth_error (ext_momentum_pg ext) (Z.to_nat i)) as [m|]; [|discriminate].
      intros H. injection H as <-. cbn. repeat split.
    + intros H. injection H as <-. cbn. repeat split.
  - intros H. injection H as <-. repeat split.
Qed.

Lemma iteration_optimizer (opt : Opt) (ext : Externals) (train_step : CellStep + FnStep)
    (i : Z) (data : Tensor * Tensor) (s s' : Loop) (w w' : World) :
  loop_body opt ext train_step i data s w = Return s' w' ->
  optim_kind (optimizer s') = optim_kind (optimizer s) /\
  optim_loss_scale (optimizer s') = optim_loss_scale (optimizer s) /\
  optim_momentum (optimizer s') = warmup_momentum opt ext i (optimizer s).
Proof.
  intros Hrun. unfold loop_body in Hrun.
  apply bind_inv in Hrun as (s1 & w0 & Hw & Hrun).
  destruct (warmup_cases opt ext i s w) as [Hr|(s1' & Hw' & _)]; [congruence|].
  assert (w0 = w) by congruence. subst w0. clear s1' Hw'.
  apply warmup_optimizer in Hw.
  apply bind_inv in Hrun as (ns & w1 & Hms & Hrun).
  apply bind_log_step_inv in Hrun as (x & w2 & Hrun).
  assert (Ho : optimizer s' = optimizer s1).
  { destruct train_step as [cell|fn].
    - apply static_cell_branch_state in Hrun. tauto.
    - destruct (accumulate s1 =? 1).
      + apply immediate_branch_state in Hrun. tauto.
      + apply accumulate_branch_state in Hrun. tauto. }
  rewrite Ho. exact Hw.
Qed.

Lemma train_loop_optimizer (opt : Opt) (ext : Externals)
    (train_step : CellStep + FnStep) (data_loader : list (Tensor * Tensor)) :
  forall (i : Z) (s s' : Loop) (w w' : World),
  train_loop opt ext train_step i data_loader s w = Return s' w' ->
  let W := ext_warmup_steps ext in
  let n := Z.of_nat (length data_loader) in
  optim_kind (optimizer s') = optim_kind (optimizer s) /\
  optim_loss_scale (optimizer s') = optim_loss_scale (optimizer s) /\
  (sgd_or_momentum opt = false \/ W <= i ->
   optim_momentum (optimizer s') = optim_momentum (optimizer s)) /\
  (sgd_or_momentum opt = true -> data_loader <> [] -> i + n <= W ->
   optim_momentum (optimizer s') =
   nth_error (ext_momentum_pg ext) (Z.to_nat (i + n - 1))) /\
  (sgd_or_momentum opt = true -> i < W <= i + n ->
   optim_momentum (optimizer s') = nth_error (ext_momentum_pg ext) (Z.to_nat (W - 1))).
Proof.
  induction data_loader as [|d rest IH]; intros i s s' w w' Hrun W n.
  - cbn in Hrun. injection Hrun as <- <-. subst n. cbn [length Z.of_nat].
    split; [reflexivity|]. split; [reflexivity|]. split; [reflexivity|].
    split; [congruence|]. lia.
  - cbn [train_loop] in Hrun.
    apply bind_inv in Hrun as (s1 & w1 & Hit & Hrun).
    apply iteration_optimizer in Hit as (Hk & Hs & Hm).
    specialize (IH (i + 1) s1 s' w1 w' Hrun).
    cbn zeta in IH. fold W in IH.
    destruct IH as (I1 & I2 & I3 & I4 & I5).
    rewrite I1, I2, Hk, Hs.
    assert (Hn : n = Z.of_nat (length rest) + 1) by (subst n; cbn [length]; lia).
    unfold warmup_momentum in Hm. fold W in Hm.
    split; [reflexivity|]. split; [reflexivity|].
    split.
    { intros [Hsm|Hge].
      - rewrite I3 by (left; exact Hsm). rewrite Hm, Hsm, andb_false_r. reflexivity.
      - rewrite I3 by (right; lia). rewrite Hm.
        destruct (Z.ltb_spec i W); [lia|reflexivity]. }
    split.
    { intros Hsm _ Hle. rewrite Hsm in Hm.
      destruct rest as [|d' rest'].
      - cbn in Hrun. injection Hrun as <- _. rewrite Hm.
        destruct (Z.ltb_spec i W) as [_|]; [|subst n; cbn [length] in *; lia].
        cbn [andb]. f_equal. f_equal. subst n. cbn [length]. lia.
      - rewrite (I4 Hsm); [f_equal; f_equal; lia|discriminate|lia]. }
    intros Hsm [Hlt Hle]. rewrite Hsm in Hm.
    destruct (Z.eq_dec W (i + 1)) as [E|E].
    + rewrite I3 by (right; lia). rewrite Hm.
      destruct (Z.ltb_spec i W) as [_|]; [|lia].
      cbn [andb]. f_equal. f_equal. lia.
    + apply (I5 Hsm). lia.
Qed.

(** X16.  The loop and the optimizer's settings, whatever the step
    function: a run of the loop that returns leaves the optimizer's kind
    and loss scale as they were; it leaves the momentum as it was when the
    optimizer is neither sgd nor momentum and when the run starts past
    warm-up; for sgd and momentum a run that ends inside warm-up leaves the
    momentum [momentum_pg] holds for its last iteration, and a run that
    crosses the end of warm-up leaves the momentum of the last warm-up
    iteration, [momentum_pg[warmup_steps - 1]]. *)
Theorem momentum_follows_warmup_schedule (opt : Opt) (ext : Externals)
    (train_step : CellStep + FnStep) (data_loader : list (Tensor * Tensor))
    (i : Z) (s s' : Loop) (w w' : World) :
  train_loop opt ext train_step i data_loader s w = Return s' w' ->
  let W := ext_warmup_steps ext in
  let n := Z.of_nat (length data_loader) in
  optim_kind (optimizer s') = optim_kind (optimizer s) /\
  optim_loss_scale (optimizer s') = optim_loss_scale (optimizer s) /\
  (sgd_or_momentum opt = false \/ W <= i ->
   optim_momentum (optimizer s') = optim_momentum (optimizer s)) /\
  (sgd_or_momentum opt = true -> data_loader <> [] -> i + n <= W ->
   optim_momentum (optimizer s') =
   nth_error (ext_momentum_pg ext) (Z.to_nat (i + n - 1))) /\
  (sgd_or_momentum opt = true -> i < W <= i + n ->
   optim_momentum (optimizer s') = nth_error (ext_momentum_pg ext) (Z.to_nat (W - 1))).
Proof. apply train_loop_optimizer. Qed.

(** *** The optimizer and gradients that are not finite *)

Lemma finite_update_app (t1 t2 : list event) :
  forallb finite_update t1 = true -> forallb finite_update t2 = true ->
  forallb finite_update (t1 ++ t2) = true.
Proof. intros H1 H2. rewrite forallb_app, H1, H2. reflexivity. Qed.

Lemma bookkeeping_finite_update (t : list event) :
  forallb is_bookkeeping t = true -> forallb finite_update t = true.
Proof.
  induction t as [|e t IH]; cbn [forallb]; [reflexivity|].
  intros H. apply andb_true_iff in H as [He Ht]. rewrite (IH Ht).
  destruct e; try discriminate He; reflexivity.
Qed.

Lemma immediate_loop_finite (pc : ParallelContext) (hyp : gmap string Q) (opt : Opt)
    (ext : Externals) :
  opt_overflow_still_update opt = false ->
  (sgd_or_momentum opt = true ->
   Z.of_nat (length (ext_momentum_pg ext)) = ext_warmup_steps ext) ->
  (forall j, warmup_accumulate opt ext j = 1) ->
  forall (data_loader : list (Tensor * Tensor)) (i : Z) (s : Loop) (w : World),
  0 <= i ->
  accumulate s = 1 ->
  exists s' w' evs,
    train_loop opt ext (inr (static_shape_step pc hyp opt)) i data_loader s w =
      Return s' w' /\
    trace w' = trace w ++ evs /\
    forallb finite_update evs = true.
Proof.
  intros Hsu Hmom Hone data_loader.
  induction data_loader as [|d rest IH]; intros i s w Hi Hacc.
  - exists s, w, []. rewrite app_nil_r. repeat split.
  - cbn [train_loop].
    destruct (warmup_returns opt ext i s w Hi Hmom) as (s1 & Hw).
    assert (Hacc1 : accumulate s1 = 1).
    { destruct (warmup_keeps opt ext i s s1 w Hw) as (_ & _ & _ & _ & _ & Ha).
      rewrite Ha. destruct (i <? ext_warmup_steps ext); [apply Hone|exact Hacc]. }
    destruct (immediate_iteration pc hyp opt ext i d s s1 w Hw Hacc1)
      as (ns & bk & w1 & Htr & Hbk & Hrun).
    cbn zeta in Hrun. rewrite Hsu in Hrun.
    rewrite (bind_return _ _ _ _ _ Hrun).
    match type of Hrun with _ = Return ?st ?wd =>
      destruct (IH (i + 1) st wd) as (s' & w' & evs & Hrun' & Htr' & Hf);
        [lia|exact Hacc1|]
    end.
    eexists s', w', _. split; [exact Hrun'|].
    split; [rewrite Htr', trace_add_events, Htr, <- app_assoc; reflexivity|].
    apply finite_update_app; [|exact Hf].
    cbn [forallb finite_update andb].
    apply finite_update_app.
    { unfold update_events.
      destruct (all_finite (batch_grads pc hyp opt (loss_scaler s) (model s) d ns))
        eqn:Eg; cbn [forallb finite_update andb]; [rewrite Eg|]; reflexivity. }
    apply finite_update_app; [destruct (ema s); reflexivity|].
    apply finite_update_app; [destruct (loss_scaler s); reflexivity|].
    apply finite_update_app; [|apply bookkeeping_finite_update; exact Hbk].
    unfold overflow_adjust_events.
    destruct (loss_scaler s); cbn [option_map]; [|reflexivity].
    destruct (all_finite _); reflexivity.
Qed.

(** X17.  With the still-update flag unset and a total batch size of at
    least 43 (no accumulation), the optimizer is never called on gradients
    that are not all finite: the loop under the StaticShape strategy,
    entered with target 1, returns, and every optimizer call in its trace
    carries gradients that pass [all_finite]. *)
Theorem optimizer_never_sees_overflow (pc : ParallelContext) (hyp : gmap string Q)
    (opt : Opt) (ext : Externals) (data_loader : list (Tensor * Tensor)) (i : Z)
    (s : Loop) (w : World) :
  43 <= opt_total_batch_size opt ->
  opt_overflow_still_update opt = false ->
  loop_defined opt ext i data_loader ->
  accumulate s = 1 ->
  exists s' w' evs,
    train_loop opt ext (inr (static_shape_step pc hyp opt)) i data_loader s w =
      Return s' w' /\
    trace w' = trace w ++ evs /\
    forall grads, In (OptimizerCall grads) evs -> all_finite grads = true.
Proof.
  intros Hbig Hsu (Hi & _ & Hmom & _) Hacc.
  destruct (immediate_loop_finite pc hyp opt ext Hsu Hmom
              (fun j => warmup_accumulate_large_batch opt ext j Hbig)
              data_loader i s w Hi Hacc) as (s' & w' & evs & H1 & H2 & H3).
  exists s', w', evs. split; [exact H1|]. split; [exact H2|].
  intros grads Hin. rewrite forallb_forall in H3. exact (H3 _ Hin).
Qed.

(** *** The numbering of the checkpoints *)

Lemma saved_epochs_app (t1 t2 : list event) :
  saved_epochs (t1 ++ t2) = saved_epochs t1 ++ saved_epochs t2 /\
  saved_ema_epochs (t1 ++ t2) = saved_ema_epochs t1 ++ saved_ema_epochs t2.
Proof.
  induction t1 as [|e t1 [IH1 IH2]]; [split; reflexivity|].
  destruct e; cbn [app saved_epochs saved_ema_epochs]; rewrite IH1, IH2;
    split; reflexivity.
Qed.

Lemma step_events_not_saved (t : list event) :
  forallb is_step_event t = true ->
  saved_epochs t = [] /\ saved_ema_epochs t = [].
Proof.
  induction t as [|e t IH]; cbn [forallb]; [split; reflexivity|].
  intros H. apply andb_true_iff in H as [He Ht]. destruct (IH Ht) as [H1 H2].
  destruct e; try discriminate He; cbn [saved_epochs saved_ema_epochs]; tauto.
Qed.

Lemma printed_not_saved (msgs : list message) :
  saved_epochs (map Stdout msgs) = [] /\ saved_ema_epochs (map Stdout msgs) = [].
Proof. induction msgs as [|m l IH]; [split; reflexivity|exact IH]. Qed.

Lemma log_events_saved (opt : Opt) (ext : Externals) (i : Z) (imgs : Tensor)
    (ns : option (list Z)) (s : Loop) (x : Tensor * option Tensor) :
  let t := log_events opt ext i imgs ns s x in
  let saved := (opt_rank opt mod 8 =? 0) && ((i + 1) mod ext_per_epoch_size ext =? 0) in
  saved_epochs t = (if saved then [i / ext_per_epoch_size ext + 1] else []) /\
  saved_ema_epochs t =
    (if saved then match ema s with
                   | Some _ => [i / ext_per_epoch_size ext + 1]
                   | None => []
                   end
     else []).
Proof.
  unfold log_events, save_events.
  destruct ((i + 1) mod ext_per_epoch_size ext =? 0);
    destruct (opt_rank opt mod 8 =? 0); cbn [andb];
    destruct (ema s); cbn; tauto.
Qed.

(** Consecutive epoch numbers, from [a] on. *)
Lemma consecutive_cons (a : Z) (k : nat) :
  a :: map (fun j => a + 1 + Z.of_nat j) (seq 0 k) =
  map (fun j => a + Z.of_nat j) (seq 0 (S k)).
Proof.
  cbn [seq map]. f_equal; [lia|].
  rewrite <- seq_shift, map_map. apply map_ext. intros j. lia.
Qed.

Lemma ema_same (e1 e2 : option (EMA Cell Tensor)) (l : list Z) :
  (e1 = None <-> e2 = None) ->
  match e1 with Some _ => l | None => [] end =
  match e2 with Some _ => l | None => [] end.
Proof.
  intros [H1 H2]. destruct e1, e2; try reflexivity; exfalso.
  - specialize (H2 eq_refl). discriminate.
  - specialize (H1 eq_refl). discriminate.
Qed.

Lemma train_loop_saved_epochs (pc : ParallelContext) (hyp : gmap string Q) (opt : Opt)
    (ext : Externals) (train_step : CellStep + FnStep) :
  driver_step pc hyp opt train_step ->
  0 < ext_per_epoch_size ext ->
  forall (data_loader : list (Tensor * Tensor)) (i : Z) (s : Loop) (w : World),
  let o := train_loop opt ext train_step i data_loader s w in
  exists evs k,
    trace (final_world o) = trace w ++ evs /\
    saved_epochs evs =
      map (fun j => i / ext_per_epoch_size ext + 1 + Z.of_nat j) (seq 0 k) /\
    ((opt_rank opt mod 8 =? 0) = false -> k = 0%nat) /\
    saved_ema_epochs evs =
      match ema s with Some _ => saved_epochs evs | None => [] end.
Proof.
  intros Hts Hp data_loader.
  induction data_loader as [|d rest IH]; intros i s w o.
  - exists [], 0%nat. subst o. cbn. rewrite app_nil_r.
    split; [reflexivity|]. split; [reflexivity|]. split; [reflexivity|].
    destruct (ema s); reflexivity.
  - subst o. cbn [train_loop]. unfold bind.
    destruct (iteration_events pc hyp opt ext train_step i d s w Hts)
      as (ns & w1 & pre & Hms & Hpre & Hrun).
    destruct (multi_scale_spec opt ext d w w1 ns Hms) as (Htr & _).
    destruct (step_events_not_saved pre Hpre) as (P1 & P2).
    destruct (loop_body opt ext train_step i d s w) as [s1 w'|e w'] eqn:Eo.
    + destruct (iteration_state _ _ _ _ _ _ _ _ _ Eo) as (_ & He & _).
      destruct Hrun as (x & ->).
      destruct (log_events_saved opt ext i (as_dtype (input_dtype opt) (fst d))
                  ns s1 x) as (L1 & L2).
      cbn zeta in L1, L2.
      match goal with |- context [train_loop _ _ _ _ _ _ ?wd] =>
        destruct (IH (i + 1) s1 wd) as (evs & k & Htr' & Hs & Hk & Hse)
      end.
      assert (Hdiv : (i + 1) / ext_per_epoch_size ext =
                     i / ext_per_epoch_size ext +
                     (if (i + 1) mod ext_per_epoch_size ext =? 0 then 1 else 0)).
      { pose proof (epoch_ends_div (ext_per_epoch_size ext) i 1 Hp) as H.
        cbn [epoch_ends] in H. change (Z.of_nat 1) with 1 in H. lia. }
      eexists _.
      exists (if (opt_rank opt mod 8 =? 0) && ((i + 1) mod ext_per_epoch_size ext =? 0)
              then S k else k).
      split; [rewrite Htr', trace_add_events, Htr, <- app_assoc; reflexivity|].
      destruct (saved_epochs_app (TrainStepCall ns :: pre ++ log_events opt ext i
                                          (as_dtype (input_dtype opt) (fst d)) ns s1 x)
                                 evs) as (A1 & A2).
      cbn [saved_epochs saved_ema_epochs] in A1, A2.
      destruct (saved_epochs_app pre (log_events opt ext i
                                        (as_dtype (input_dtype opt) (fst d)) ns s1 x))
        as (B1 & B2).
      rewrite A1, A2, B1, B2, P1, P2, L1, L2, Hse. cbn [app].
      rewrite !(fun l => ema_same (ema s1) (ema s) l He).
      rewrite Hs, Hdiv.
      destruct (opt_rank opt mod 8 =? 0) eqn:Er;
        destruct ((i + 1) mod ext_per_epoch_size ext =? 0); cbn [andb app].
      * rewrite <- consecutive_cons.
        split; [reflexivity|]. split; [discriminate|].
        destruct (ema s); reflexivity.
      * rewrite Z.add_0_r. split; [reflexivity|]. split; [discriminate|].
        destruct (ema s); reflexivity.
      * rewrite (Hk eq_refl). cbn [seq map].
        split; [reflexivity|]. split; [reflexivity|].
        destruct (ema s); reflexivity.
      * rewrite Z.add_0_r. split; [reflexivity|]. split; [exact Hk|].
        destruct (ema s); reflexivity.
    + cbn [final_world].
      assert (Hcases : exists evs, trace w' = trace w ++ evs /\
                                   saved_epochs evs = [] /\ saved_ema_epochs evs = []).
      { destruct Hrun as [-> | [-> | ->]].
        - exists []. rewrite app_nil_r. repeat split.
        - exists []. rewrite app_nil_r. repeat split. exact Htr.
        - exists (TrainStepCall ns :: pre). rewrite trace_add_events, Htr.
          cbn [saved_epochs saved_ema_epochs]. repeat split; assumption. }
      destruct Hcases as (evs & H1 & H2 & H3).
      exists evs, 0%nat. rewrite H2, H3.
      split; [exact H1|]. split; [reflexivity|]. split; [reflexivity|].
      destruct (ema s); reflexivity.
Qed.

(** X18.  The checkpoints of a run are numbered by epoch, from 1 on and
    without gaps: with [per_epoch_size > 0], the model checkpoints that a
    run of [train] writes carry, in order, the epoch numbers 1, 2, 3, ...,
    so that no checkpoint of the run is written twice under the same
    number; with EMA enabled every model checkpoint comes with an EMA
    checkpoint of the same number, and without EMA no EMA checkpoint is
    written. *)
Theorem checkpoints_numbered_from_one (rank_size : Z) (pc : ParallelContext)
    (hyp : gmap string Q) (opt : Opt) (data_dict : DataDict) (ext : Externals)
    (data_loader : list (Tensor * Tensor)) (w : World) :
  0 < ext_per_epoch_size ext ->
  let o := train rank_size pc hyp opt data_dict ext data_loader w in
  let evs := skipn (length (trace w)) (trace (final_world o)) in
  saved_epochs evs = map Z.of_nat (seq 1 (length (saved_epochs evs))) /\
  saved_ema_epochs evs = (if opt_ema opt then saved_epochs evs else []).
Proof.
  intros Hp o evs.
  assert (H : exists k,
             saved_epochs evs = map (fun j => 0 / ext_per_epoch_size ext + 1 + Z.of_nat j)
                                    (seq 0 k) /\
             saved_ema_epochs evs = (if opt_ema opt then saved_epochs evs else [])).
  { subst evs o. rewrite train_eq.
    set (w0 := with_rngs w (np_random_seed default_seed) (random_seed default_seed)
                         (ms_set_seed default_seed)).
    destruct (prints_only_setup rank_size pc hyp opt data_dict ext w0) as (msgs & Hw1).
    destruct (printed_not_saved msgs) as [P1 P2].
    destruct (setup rank_size pc hyp opt data_dict ext w0) as [[ts s0] w1|e w1] eqn:Es;
      cbn [final_world] in Hw1; subst w1.
    - destruct (setup_inv _ _ _ _ _ _ _ _ _ _ Es) as (_ & _ & Hstep & _ & _ & _ & He & _).
      assert (Hts : driver_step pc hyp opt ts).
      { destruct Hstep as [(_ & _ & -> & _)|(_ & -> & _)]; [exact I|reflexivity]. }
      destruct (train_loop_saved_epochs pc hyp opt ext ts Hts Hp data_loader 0 s0
                  (add_events w0 (map Stdout msgs)))
        as (evs & k & Htr & Hs & _ & Hse).
      assert (Hfin : trace (final_world
                 match train_loop opt ext ts 0 data_loader s0
                         (add_events w0 (map Stdout msgs)) with
                 | Return _ w2 => Return 0 w2
                 | Raise e w2 => Raise e w2
                 end) = trace w ++ (map Stdout msgs ++ evs)).
      { destruct (train_loop opt ext ts 0 data_loader s0 _); cbn [final_world] in *;
          rewrite Htr; cbn [add_events trace w0 with_rngs]; rewrite app_assoc;
          reflexivity. }
      rewrite Hfin, drop_app_length.
      destruct (saved_epochs_app (map Stdout msgs) evs) as (A1 & A2).
      rewrite A1, A2, P1, P2, Hse, Hs. cbn [app].
      exists k. split; [reflexivity|].
      destruct (ema s0), (opt_ema opt); try reflexivity; exfalso;
        destruct He as [He1 He2];
        first [specialize (He1 eq_refl)|specialize (He2 eq_refl)]; discriminate.
    - cbn [final_world add_events trace w0 with_rngs]. rewrite drop_app_length.
      rewrite P1, P2. exists 0%nat. split; [reflexivity|].
      destruct (opt_ema opt); reflexivity. }
  destruct H as (k & Hs & Hse). split; [|exact Hse].
  rewrite Hs, length_map, length_seq. rewrite Z.div_0_l by lia.
  rewrite <- seq_shift, map_map. apply map_ext. intros j. lia.
Qed.

(** *** What the optimizer receives after accumulation *)

Lemma warmup_past (opt : Opt) (ext : Externals) (i : Z) (s : Loop) (w : World) :
  ext_warmup_steps ext <= i -> warmup opt ext i s w = Return s w.
Proof.
  intros H. unfold warmup. destruct (Z.ltb_spec i (ext_warmup_steps ext)); [lia|].
  reflexivity.
Qed.

(** The gradient buffer after one more list of gradients. *)
Lemma add_grads_sum (buffer grads : list Tensor) (w : World) :
  length buffer = length grads ->
  add_grads (Some buffer) grads w = Return (zip_with tensor_add buffer grads) w.
Proof.
  intros Hlen. rewrite add_grads_cases. destruct buffer as [|a rest].
  - destruct grads; [reflexivity|discriminate].
  - rewrite Hlen, Nat.eqb_refl. reflexivity.
Qed.

(** X19.  Accumulation sums, and differentiates at unchanged parameters.
    Past warm-up, with target 2 and an empty window, two successive
    batches whose gradients are finite and equally many make the loop
    return after exactly one optimizer call, whose argument is the
    element-wise sum (not the mean) of the two batches' gradients; both are
    taken at the parameters the window started with, the first unscaled
    with the loss scaler as it was and the second with the loss scaler as
    adjusted after the first; the update leaves an empty window. *)
Theorem accumulated_gradients_are_summed (pc : ParallelContext) (hyp : gmap string Q)
    (opt : Opt) (ext : Externals) (i : Z) (d1 d2 : Tensor * Tensor)
    (s : Loop) (w : World) :
  let ls1 := option_map (fun ls => adjust ls true) (loss_scaler s) in
  ext_warmup_steps ext <= i ->
  accumulate s = 2 ->
  accumulate_grads s = None -> accumulate_cur_step s = 0 ->
  (forall ns, all_finite (batch_grads pc hyp opt (loss_scaler s) (model s) d1 ns)
              = true) ->
  (forall ns, all_finite (batch_grads pc hyp opt ls1 (model s) d2 ns) = true) ->
  (forall ns1 ns2,
     length (batch_grads pc hyp opt (loss_scaler s) (model s) d1 ns1) =
     length (batch_grads pc hyp opt ls1 (model s) d2 ns2)) ->
  exists ns1 ns2 s' w' evs,
    train_loop opt ext (inr (static_shape_step pc hyp opt)) i [d1; d2] s w =
      Return s' w' /\
    trace w' = trace w ++ evs /\
    let g1 := batch_grads pc hyp opt (loss_scaler s) (model s) d1 ns1 in
    let g2 := batch_grads pc hyp opt ls1 (model s) d2 ns2 in
    count_events is_optimizer_call evs = 1%nat /\
    In (OptimizerCall (zip_with tensor_add g1 g2)) evs /\
    model s' = optimizer_apply (optimizer s) (model s) (zip_with tensor_add g1 g2) /\
    accumulate_grads s' = None /\ accumulate_cur_step s' = 0.
Proof.
  intros ls1 Hpast Hacc Hbuf Hcur Hf1 Hf2 Hlen.
  cbn [train_loop].
  (* first batch *)
  destruct (loop_body_after_warmup opt ext (static_shape_step pc hyp opt) i d1
              s s w (warmup_past opt ext i s w Hpast)) as (ns1 & w1 & Htr1 & Hrun1).
  rewrite Hacc in Hrun1. cbn [Z.eqb Pos.eqb] in Hrun1.
  unfold bind at 1 in Hrun1. rewrite accumulate_branch_eq in Hrun1.
  unfold step_result in Hrun1.
  cbn [res_grads res_grads_finite res_loss res_loss_items] in Hrun1.
  fold (batch_grads pc hyp opt (loss_scaler s) (model s) d1 ns1) in Hrun1.
  rewrite Hf1, Hbuf, Hcur, Hacc in Hrun1.
  rewrite add_grads_cases in Hrun1. cbn beta iota in Hrun1.
  change ((0 + 1) mod 2 =? 0) with false in Hrun1. cbn beta iota in Hrun1.
  fold ls1 in Hrun1.
  rewrite log_step_eq, add_events_app in Hrun1.
  set (g1 := batch_grads pc hyp opt (loss_scaler s) (model s) d1 ns1) in *.
  set (s1 := with_step s (model s) (ema s) ls1 (Some g1) (0 + 1)) in *.
  unfold bind at 1. rewrite Hrun1. cbn beta iota.
  (* second batch *)
  match goal with |- context [bind _ _ ?wd] => set (w2 := wd) end.
  destruct (loop_body_after_warmup opt ext (static_shape_step pc hyp opt) (i + 1) d2
              s1 s1 w2 (warmup_past opt ext (i + 1) s1 w2 ltac:(lia)))
    as (ns2 & w3 & Htr3 & Hrun2).
  assert (Hacc1 : accumulate s1 = 2) by exact Hacc.
  rewrite Hacc1 in Hrun2. cbn [Z.eqb Pos.eqb] in Hrun2.
  unfold bind at 1 in Hrun2. rewrite accumulate_branch_eq in Hrun2.
  unfold step_result in Hrun2.
  cbn [res_grads res_grads_finite res_loss res_loss_items] in Hrun2.
  change (loss_scaler s1) with ls1 in Hrun2.
  change (model s1) with (model s) in Hrun2.
  change (accumulate_grads s1) with (Some g1) in Hrun2.
  change (accumulate_cur_step s1) with (0 + 1) in Hrun2.
  change (accumulate s1) with (accumulate s) in Hrun2.
  fold (batch_grads pc hyp opt ls1 (model s) d2 ns2) in Hrun2.
  rewrite Hf2, Hacc in Hrun2.
  set (g2 := batch_grads pc hyp opt ls1 (model s) d2 ns2) in *.
  rewrite (add_grads_sum g1 g2) in Hrun2 by apply Hlen.
  change ((0 + 1 + 1) mod 2 =? 0) with true in Hrun2. cbn beta iota zeta in Hrun2.
  rewrite log_step_eq, !add_events_app in Hrun2.
  unfold bind at 1. rewrite Hrun2. unfold ret.
  exists ns1, ns2. eexists _, _, _. split; [reflexivity|].
  split.
  { rewrite trace_add_events, Htr3. subst w2. rewrite trace_add_events, Htr1.
    rewrite <- app_assoc. reflexivity. }
  cbn zeta. fold g1. fold g2.
  pose proof (log_events_bookkeeping opt ext i (as_dtype (input_dtype opt) (fst d1)) ns1
                s1 (fst (forward_func hyp default_rank_size (model s)
                           (as_dtype (input_dtype opt) (fst d1))
                           (as_dtype (input_dtype opt) (snd d1)) ns1),
                    Some (snd (forward_func hyp default_rank_size (model s)
                           (as_dtype (input_dtype opt) (fst d1))
                           (as_dtype (input_dtype opt) (snd d1)) ns1)))) as Hb1.
  apply bookkeeping_counts in Hb1 as (Hz1 & _).
  match goal with |- context [log_events opt ext (i + 1) ?im ?n ?st ?x] =>
    pose proof (log_events_bookkeeping opt ext (i + 1) im n st x) as Hb2
  end.
  apply bookkeeping_counts in Hb2 as (Hz2 & _).
  split.
  { destruct (loss_scaler s) as [ls|], (ema s) as [e|];
      subst ls1; cbn [option_map] in *; count_norm;
      rewrite ?Hz1, ?Hz2; reflexivity. }
  split.
  { find_in. }
  repeat split.
Qed.

End Facts.

(** ** Runs on the one-parameter framework *)

(** C1.  One device, StaticShape strategy, accumulation target 1 (batch
    size 64), EMA enabled, still-update unset, one micro-batch with
    non-finite gradients: the optimizer update is dropped and the EMA
    update runs all the same. *)
Theorem ema_updated_on_dropped_step :
  let o := toy_train (toy_opt "StaticShape" "none" "sgd" "" "" true false false 64)
                     toy_ext [bad_batch] in
  raised o = false /\
  trace (final_world o) =
    [Stdout (MsgOptimLossScale 1); TrainStepCall None;
     Stdout MsgOverflowDropStep; EmaUpdate;
     Stdout (MsgFpBp 1 1 [640; 640]);
     Stdout (MsgStepLossItems 1 1 [640; 640] None (Some 0%Q))] /\
  count_events is_optimizer_call (trace (final_world o)) = 0%nat /\
  count_events is_ema_update (trace (final_world o)) = 1%nat.
Proof. cbv zeta. repeat split; reflexivity. Qed.

(** C3.  One device (not distributed, so [rank_size] is 1), one micro-batch
    whose composite loss is 1: the loss that is differentiated and logged is
    8, the default of the builders' [rank_size] parameter, under both
    strategies. *)
Theorem loss_scaled_by_eight_on_one_device :
  let opt := toy_opt "StaticShape" "none" "sgd" "" "" false false false 64 in
  let o := toy_train opt toy_ext [good_batch] in
  let o_cell := toy_train (toy_opt "StaticCell" "none" "sgd" "" "" false false false 64)
                          toy_ext [good_batch] in
  opt_is_distributed opt = false /\
  ComputeLossOTA (0%Q : @Cell toy) (toy_div (fst good_batch) 255) (snd good_batch)
                 (toy_div (fst good_batch) 255) = (Some (255 # 255), Some 0%Q) /\
  trace (final_world o) =
    [Stdout (MsgOptimLossScale 1); TrainStepCall None;
     OptimizerCall [Some (2040 # 255)]; Stdout (MsgFpBp 1 1 [640; 640]);
     Stdout (MsgStepLossItems 1 1 [640; 640] (Some (2040 # 255)) (Some 0%Q))] /\
  trace (final_world o_cell) =
    [Stdout (MsgOptimLossScale 1); TrainStepCall None;
     Stdout (MsgFpBp 1 1 [640; 640]);
     Stdout (MsgStepLoss 1 1 [640; 640] (Some (2040 # 255)))] /\
  (2040 # 255 == 8 * (255 # 255))%Q /\
  ~ (2040 # 255 == 1 * (255 # 255))%Q.
Proof.
  cbv zeta. split; [reflexivity|]. split; [reflexivity|].
  split; [reflexivity|]. split; [reflexivity|].
  split; [reflexivity|]. unfold Qeq. cbn. lia.
Qed.

(** C2, as stated, fails: accumulation target 2 (batch size 32), no loss
    scaler, one micro-batch with non-finite gradients.  The drop is
    printed, and no printed line shows a loss-scale value. *)
Lemma accumulation_drop_without_scale_value :
  let o := toy_train (toy_opt "StaticShape" "none" "sgd" "" "" true false false 32)
                     toy_ext [bad_batch] in
  raised o = false /\
  trace (final_world o) =
    [Stdout (MsgOptimLossScale 1); TrainStepCall None;
     Stdout (MsgOverflowDrop 1 1); Stdout (MsgFpBp 1 1 [640; 640]);
     Stdout (MsgStepLossItems 1 1 [640; 640] None (Some 0%Q))] /\
  count_events logs_loss_scale (trace (final_world o)) = 0%nat.
Proof. cbv zeta. repeat split; reflexivity. Qed.

Lemma accumulation_one_update_per_k_witness :
  let opt := toy_opt "StaticShape" "none" "sgd" "" "" true false false 32 in
  let data_loader := [good_batch; bad_batch; good_batch] in
  exists s' w' evs,
    train_loop opt toy_ext_warmup (inr (static_shape_step toy_pc ∅ opt)) 2 data_loader
               (toy_loop 2 None true) toy_world = Return s' w' /\
    trace w' = trace toy_world ++ evs /\
    Z.of_nat (count_events is_optimizer_call evs) = count_batches toy_fin data_loader / 2 /\
    accumulate_cur_step s' = count_batches toy_fin data_loader mod 2 /\
    (ema (toy_loop 2 None true) <> None ->
     count_events is_ema_update evs = count_events is_optimizer_call evs /\
     optimizer_then_ema evs = true).
Proof.
  intros opt data_loader.
  destruct (accumulation_one_update_per_k (F := toy) toy_pc ∅ opt toy_ext_warmup
              toy_fin 1%nat 2) as [H _].
  - lia.
  - intros [[x|] l] ls m [ns|]; reflexivity.
  - intros d ls m ns. reflexivity.
  - apply (H data_loader 2 (toy_loop 2 None true) toy_world).
    + lia.
    + intros _. reflexivity.
    + reflexivity.
    + intros j Hj. assert (j = 2) as -> by (cbn in Hj; lia). reflexivity.
    + reflexivity.
    + reflexivity.
Defined.

(** C4, as stated, fails: accumulation target 2, still-update set, one
    micro-batch with non-finite gradients.  The micro-batch is dropped and
    the optimizer is not called. *)
Lemma still_update_ignored_when_accumulating :
  let opt := toy_opt "StaticShape" "none" "sgd" "" "" true true false 32 in
  let o := toy_train opt toy_ext [bad_batch] in
  opt_overflow_still_update opt = true /\
  raised o = false /\
  trace (final_world o) =
    [Stdout (MsgOptimLossScale 1); TrainStepCall None;
     Stdout (MsgOverflowDrop 1 1); Stdout (MsgFpBp 1 1 [640; 640]);
     Stdout (MsgStepLossItems 1 1 [640; 640] None (Some 0%Q))] /\
  count_events is_optimizer_call (trace (final_world o)) = 0%nat.
Proof. cbv zeta. repeat split; reflexivity. Qed.

Lemma overflow_still_update_immediate_only_witness :
  let opt := toy_opt "StaticShape" "none" "sgd" "" "" true true false 64 in
  let s := toy_loop 1 None true in
  exists s' w' evs,
    loop_body opt toy_ext (inr (static_shape_step toy_pc ∅ opt)) 0 bad_batch s toy_world
      = Return s' w' /\
    trace w' = trace toy_world ++ evs /\
    count_events is_optimizer_call evs = 1%nat /\
    In (Stdout MsgOverflowStillUpdate) evs /\
    exists ns, In (OptimizerCall
                     (batch_grads toy_pc ∅ opt (loss_scaler s) (model s) bad_batch ns))
                  evs.
Proof.
  intros opt s.
  apply (overflow_still_update_immediate_only (F := toy) toy_pc ∅ opt toy_ext 0 bad_batch
           s s toy_world).
  - reflexivity.
  - intros [ns|]; reflexivity.
Defined.

Lemma dynamic_loss_scale_adapts_witness :
  build_loss_scaler (toy_opt "StaticShape" "dynamic" "sgd" "" "" true false false 64)
                    toy_world =
    Return (Some (DynamicLossScaler (inject_Z (2 ^ 12)) 2 1000 0)) toy_world /\
  adjust_n 3 true (DynamicLossScaler 4096 2 1000 0) = DynamicLossScaler 4096 2 1000 3.
Proof.
  destruct (@dynamic_loss_scale_adapts toy) as (H1 & _ & H3 & _).
  split.
  - apply H1. reflexivity.
  - apply (H3 4096%Q 3%nat). lia.
Defined.

Lemma accumulation_update_resets_window_witness :
  let opt := toy_opt "StaticShape" "none" "sgd" "" "" true false false 32 in
  let s := {| model := 0%Q; optimizer := optimizer (toy_loop 2 None true);
              ema := ema (toy_loop 2 None true); loss_scaler := None; accumulate := 2;
              accumulate_grads := Some [Some 1%Q]; accumulate_cur_step := 1 |} in
  match loop_body opt toy_ext (inr (static_shape_step toy_pc ∅ opt)) 3 good_batch s
                  toy_world with
  | Return s' _ => accumulate_grads s' = None /\ accumulate_cur_step s' = 0
  | Raise _ _ => False
  end.
Proof.
  intros opt s.
  remember (loop_body opt toy_ext (inr (static_shape_step toy_pc ∅ opt)) 3 good_batch s
              toy_world) as o eqn:Eo.
  assert (Hr : raised o = false) by (rewrite Eo; reflexivity).
  assert (Ha : match o with Return s' _ => accumulate s' | Raise _ _ => 0 end = 2)
    by (rewrite Eo; reflexivity).
  assert (Hc : count_events is_optimizer_call (trace (final_world o)) = 1%nat)
    by (rewrite Eo; reflexivity).
  destruct o as [s' w'|e w']; [|discriminate Hr].
  apply (accumulation_update_resets_window (F := toy) toy_pc ∅ opt toy_ext 3 good_batch
           s s' toy_world w' (eq_sym Eo)).
  - rewrite Ha. lia.
  - cbn [final_world] in Hc. rewrite Hc. cbn. lia.
Defined.

(** C8, as stated, fails: StaticCell strategy, batch size 16, three warm-up
    steps.  The first iteration runs with target 1 and calls the step
    function; the assertion fails in the second. *)
Lemma static_cell_rejection_after_a_step :
  let o := toy_train (toy_opt "StaticCell" "none" "sgd" "" "" true false false 16)
                     toy_ext_warmup [good_batch; good_batch; good_batch] in
  o = Raise (AssertionError "Grad Accumulate must be 1 when train with StaticCell.")
            (final_world o) /\
  trace (final_world o) =
    [Stdout (MsgOptimLossScale 1); TrainStepCall None; EmaUpdate;
     Stdout (MsgFpBp 1 1 [640; 640]);
     Stdout (MsgStepLoss 1 1 [640; 640] (Some (2040 # 255)))] /\
  count_events is_train_step_call (trace (final_world o)) = 1%nat.
Proof. cbv zeta. repeat split; reflexivity. Qed.

Lemma unsupported_configurations_rejected_witness :
  let opt := toy_opt "StaticShape" "none" "thor" "" "" true false false 64 in
  (exists e w',
     train 1 toy_pc ∅ opt toy_data_dict toy_ext [good_batch] toy_world = Raise e w' /\
     count_events is_train_step_call (trace w') =
     count_events is_train_step_call (trace toy_world)) /\
  (exists w',
     loop_body (toy_opt "StaticCell" "none" "sgd" "" "" true false false 16) toy_ext
               (inl (toy_cell (fun m x l ns => x) 1)) 0 good_batch
               (toy_loop 4 None true) toy_world =
     Raise (AssertionError "Grad Accumulate must be 1 when train with StaticCell.") w' /\
     trace w' = trace toy_world).
Proof.
  intros opt. destruct (@unsupported_configurations_rejected toy) as (H1 & _ & H3 & _).
  split.
  - apply H1; discriminate.
  - apply (H3 _ _ _ _ _ _ (toy_loop 4 None true)).
    + reflexivity.
    + cbn. lia.
Defined.

Lemma ema_checkpoint_without_updates_witness :
  let opt := toy_opt "StaticShape" "none" "sgd" "w.ckpt" "ema.ckpt" true false false 64 in
  load_pretrained (F := toy) opt 0%Q (Some (@EMA_init toy 0%Q)) toy_world =
  Return (3%Q, Some {| ema_model := 5%Q; updates := Some 0%Q |})
         (add_events toy_world [Stdout (MsgPretrainLoad "w.ckpt");
                                Stdout (MsgUpdatesMiss "ema.ckpt");
                                Stdout (MsgEmaPretrainLoad "ema.ckpt")]).
Proof.
  intros opt.
  apply (ema_checkpoint_without_updates (F := toy) opt 0%Q (@EMA_init toy 0%Q)
           toy_world).
  - reflexivity.
  - reflexivity.
  - reflexivity.
Defined.

(** ** Further runs on the one-parameter framework *)

Lemma warmup_target_monotone_and_bounded_witness :
  let opt := toy_opt "StaticShape" "none" "sgd" "" "" true false false 16 in
  1 <= warmup_accumulate opt toy_ext_warmup 1 /\
  warmup_accumulate opt toy_ext_warmup 1 <= warmup_accumulate opt toy_ext_warmup 2 /\
  warmup_accumulate opt toy_ext_warmup 2 <= Z.max (round_half_even (nbs_ratio opt)) 1.
Proof.
  intros opt. apply (warmup_target_monotone_and_bounded opt toy_ext_warmup 1 2).
  - reflexivity.
  - lia.
Defined.

Lemma nominal_target_from_batch_size_witness :
  let opt := toy_opt "StaticShape" "none" "sgd" "" "" true false false 16 in
  match setup 1 toy_pc ∅ opt toy_data_dict toy_ext toy_world with
  | Return (_, s0) _ =>
      1 <= accumulate s0 <= 64 /\
      (accumulate s0 = 1 <-> 43 <= 16) /\
      (forall k, k * 16 = 64 -> accumulate s0 = k)
  | Raise _ _ => False
  end.
Proof.
  intros opt.
  remember (setup 1 toy_pc ∅ opt toy_data_dict toy_ext toy_world) as o eqn:Eo.
  assert (Hr : raised o = false) by (rewrite Eo; reflexivity).
  destruct o as [[ts s0] w'|e w']; [|discriminate Hr].
  apply (nominal_target_from_batch_size (F := toy) 1 toy_pc ∅ opt toy_data_dict toy_ext
           ts s0 toy_world w' (eq_sym Eo)).
  reflexivity.
Defined.

Lemma steady_target_is_last_warmup_value_witness :
  let opt := toy_opt "StaticShape" "none" "sgd" "" "" true false false 16 in
  let data_loader := [good_batch; good_batch; good_batch; good_batch] in
  match train_loop opt toy_ext_warmup (inr (static_shape_step toy_pc ∅ opt)) 0
                   data_loader (toy_loop 4 None true) toy_world with
  | Return s' _ =>
      (3 <= 0 -> accumulate s' = 4) /\
      (data_loader <> [] -> 0 + 4 <= 3 ->
       accumulate s' = warmup_accumulate opt toy_ext_warmup (0 + 4 - 1)) /\
      (0 < 3 <= 0 + 4 -> accumulate s' = warmup_accumulate opt toy_ext_warmup (3 - 1))
  | Raise _ _ => False
  end.
Proof.
  intros opt data_loader.
  remember (train_loop opt toy_ext_warmup (inr (static_shape_step toy_pc ∅ opt)) 0
              data_loader (toy_loop 4 None true) toy_world) as o eqn:Eo.
  assert (Hr : raised o = false) by (rewrite Eo; reflexivity).
  destruct o as [s' w'|e w']; [|discriminate Hr].
  apply (steady_target_is_last_warmup_value (F := toy) opt toy_ext_warmup
           (inr (static_shape_step toy_pc ∅ opt)) data_loader 0
           (toy_loop 4 None true) s' toy_world w' (eq_sym Eo)).
Defined.

Lemma accumulation_window_invariant_witness :
  let opt := toy_opt "StaticShape" "none" "sgd" "" "" true false false 16 in
  let data_loader := [good_batch; bad_batch; good_batch; good_batch; good_batch] in
  match train_loop opt toy_ext_warmup (inr (static_shape_step toy_pc ∅ opt)) 0
                   data_loader (toy_loop 4 None true) toy_world with
  | Return s' _ => window_ok (accumulate s') s'
  | Raise _ _ => False
  end.
Proof.
  intros opt data_loader.
  remember (train_loop opt toy_ext_warmup (inr (static_shape_step toy_pc ∅ opt)) 0
              data_loader (toy_loop 4 None true) toy_world) as o eqn:Eo.
  assert (Hr : raised o = false) by (rewrite Eo; reflexivity).
  destruct o as [s' w'|e w']; [|discriminate Hr].
  apply (accumulation_window_invariant (F := toy) opt toy_ext_warmup
           (inr (static_shape_step toy_pc ∅ opt)) data_loader 0
           (toy_loop 4 None true) s' toy_world w' (eq_sym Eo)).
  - split; [split; [discriminate|reflexivity]|split; reflexivity].
  - intros _. split; [split; [discriminate|reflexivity]|split; reflexivity].
Defined.

Lemma checkpoints_at_epoch_ends_witness :
  let opt := toy_opt "StaticShape" "none" "sgd" "" "" true false false 64 in
  let data_loader := [good_batch; good_batch; good_batch; good_batch; good_batch] in
  let o := train 1 toy_pc ∅ opt toy_data_dict toy_ext data_loader toy_world in
  exists evs,
    trace (final_world o) = trace toy_world ++ evs /\
    Z.of_nat (count_events is_save_checkpoint evs) <= 5 / 4 /\
    (opt_rank opt mod 8 <> 0 -> count_events is_save_checkpoint evs = 0%nat) /\
    count_events is_save_ema_checkpoint evs =
      (if opt_ema opt then count_events is_save_checkpoint evs else 0%nat) /\
    (raised o = false -> opt_rank opt mod 8 = 0 ->
     Z.of_nat (count_events is_save_checkpoint evs) = 5 / 4).
Proof.
  intros opt data_loader.
  apply (checkpoints_at_epoch_ends (F := toy) 1 toy_pc ∅ opt toy_data_dict toy_ext
           data_loader toy_world).
  reflexivity.
Defined.

Lemma large_batches_update_immediately_witness :
  let opt := toy_opt "StaticShape" "dynamic" "sgd" "" "" true false false 64 in
  let data_loader := [good_batch; bad_batch; good_batch] in
  let s := toy_loop 1 (Some (DynamicLossScaler 4096 2 1000 0)) true in
  exists s' w' evs,
    train_loop opt toy_ext (inr (static_shape_step toy_pc ∅ opt)) 0 data_loader s
               toy_world = Return s' w' /\
    trace w' = trace toy_world ++ evs /\
    accumulate s' = 1 /\
    accumulate_grads s' = accumulate_grads s /\
    accumulate_cur_step s' = accumulate_cur_step s /\
    count_events is_train_step_call evs = length data_loader /\
    Z.of_nat (count_events is_optimizer_call evs) =
      (if opt_overflow_still_update opt then Z.of_nat (length data_loader)
       else count_batches toy_fin data_loader) /\
    count_events is_ema_update evs =
      match ema s with Some _ => length data_loader | None => 0%nat end /\
    count_events is_scaler_adjust evs =
      match loss_scaler s with Some _ => length data_loader | None => 0%nat end.
Proof.
  intros opt data_loader s.
  apply (large_batches_update_immediately (F := toy) toy_pc ∅ opt toy_ext toy_fin
           data_loader 0 s toy_world).
  - cbn. lia.
  - split; [lia|]. split; [reflexivity|]. split; [reflexivity|discriminate].
  - intros [[x|] l] ls m [ns|]; reflexivity.
  - reflexivity.
Defined.

Lemma static_cell_over_a_loader_witness :
  let opt := toy_opt "StaticCell" "none" "sgd" "" "" true false false 64 in
  let data_loader := [good_batch; bad_batch; good_batch] in
  let cell : @CellStep toy := toy_cell (fun m x l ns => x) 1 in
  let ovf := fun d : @Tensor toy * @Tensor toy => negb (toy_is_finite (fst d)) in
  let s := toy_loop 1 None true in
  exists s' w' evs,
    train_loop opt toy_ext (inl cell) 0 data_loader s toy_world = Return s' w' /\
    trace w' = trace toy_world ++ evs /\
    count_events is_train_step_call evs = length data_loader /\
    count_events is_optimizer_call evs = 0%nat /\
    count_events is_scaler_adjust evs = 0%nat /\
    Z.of_nat (count_events is_ema_update evs) =
      match ema s with
      | Some _ => count_batches (fun d => negb (ovf d)) data_loader
      | None => 0
      end /\
    Z.of_nat (count_events logs_loss_scale evs) = count_batches ovf data_loader /\
    loss_scaler s' = loss_scaler s.
Proof.
  intros opt data_loader cell ovf s.
  apply (static_cell_over_a_loader (F := toy) opt toy_ext cell ovf data_loader 0 s
           toy_world).
  - cbn. lia.
  - split; [lia|]. split; [reflexivity|]. split; [reflexivity|discriminate].
  - intros [[x|] l] o m ns; reflexivity.
  - reflexivity.
Defined.

Lemma setup_initial_state_witness :
  let opt := toy_opt "StaticShape" "static" "adam" "" "" true false false 16 in
  match setup 1 toy_pc ∅ opt toy_data_dict toy_ext toy_world with
  | Return (train_step, s0) w' =>
      accumulate_grads s0 = None /\ accumulate_cur_step s0 = 0 /\
      (ema s0 = None <-> opt_ema opt = false) /\
      optim_loss_scale (optimizer s0) = opt_ms_optim_loss_scale opt /\
      (opt_optimizer opt = "sgd"%string /\ optim_kind (optimizer s0) = SGD \/
       opt_optimizer opt = "momentum"%string /\ optim_kind (optimizer s0) = Momentum \/
       opt_optimizer opt = "adam"%string /\ optim_kind (optimizer s0) = Adam) /\
      (opt_ms_strategy opt = "StaticCell"%string /\
       train_step = inl (TrainOneStepWithLossScaleCell
                           (Warpper_construct ∅ default_rank_size)
                           (opt_ms_grad_sens opt)) /\
       loss_scaler s0 = None
       \/
       opt_ms_strategy opt = "StaticShape"%string /\
       train_step = inr (static_shape_step toy_pc ∅ opt) /\
       (opt_ms_loss_scaler opt = "dynamic"%string /\
        loss_scaler s0 = Some (DynamicLossScaler (inject_Z (2 ^ 12)) 2 1000 0) \/
        opt_ms_loss_scaler opt = "static"%string /\
        loss_scaler s0 = Some (StaticLossScaler (opt_ms_loss_scaler_value opt)) \/
        opt_ms_loss_scaler opt = "none"%string /\ loss_scaler s0 = None)) /\
      exists msgs, w' = add_events toy_world (map Stdout msgs)
  | Raise _ _ => False
  end.
Proof.
  intros opt.
  remember (setup 1 toy_pc ∅ opt toy_data_dict toy_ext toy_world) as o eqn:Eo.
  assert (Hr : raised o = false) by (rewrite Eo; reflexivity).
  destruct o as [[ts s0] w'|e w']; [|discriminate Hr].
  apply (setup_initial_state (F := toy) 1 toy_pc ∅ opt toy_data_dict toy_ext
           ts s0 toy_world w' (eq_sym Eo)).
Defined.

Lemma ema_weight_ignored_without_pretrained_weights_witness :
  let opt := toy_opt "StaticShape" "none" "sgd" "" "" true false false 64 in
  train 1 toy_pc ∅ (set_ema_weight opt "ema_full.ckpt") toy_data_dict toy_ext
        [good_batch] toy_world =
  train 1 toy_pc ∅ opt toy_data_dict toy_ext [good_batch] toy_world.
Proof.
  intros opt.
  apply (ema_weight_ignored_without_pretrained_weights (F := toy) 1 toy_pc ∅ opt
           "ema_full.ckpt" toy_data_dict toy_ext [good_batch] toy_world).
  left. reflexivity.
Defined.

Lemma momentum_follows_warmup_schedule_witness :
  let opt := toy_opt "StaticShape" "none" "sgd" "" "" true false false 16 in
  let data_loader := [good_batch; good_batch; good_batch; good_batch] in
  let s := toy_loop 4 None true in
  match train_loop opt toy_ext_warmup (inr (static_shape_step toy_pc ∅ opt)) 0
                   data_loader s toy_world with
  | Return s' _ =>
      optim_kind (optimizer s') = optim_kind (optimizer s) /\
      optim_loss_scale (optimizer s') = optim_loss_scale (optimizer s) /\
      (sgd_or_momentum opt = false \/ 3 <= 0 ->
       optim_momentum (optimizer s') = optim_momentum (optimizer s)) /\
      (sgd_or_momentum opt = true -> data_loader <> [] -> 0 + 4 <= 3 ->
       optim_momentum (optimizer s') =
       nth_error (ext_momentum_pg toy_ext_warmup) (Z.to_nat (0 + 4 - 1))) /\
      (sgd_or_momentum opt = true -> 0 < 3 <= 0 + 4 ->
       optim_momentum (optimizer s') =
       nth_error (ext_momentum_pg toy_ext_warmup) (Z.to_nat (3 - 1)))
  | Raise _ _ => False
  end.
Proof.
  intros opt data_loader s.
  remember (train_loop opt toy_ext_warmup (inr (static_shape_step toy_pc ∅ opt)) 0
              data_loader s toy_world) as o eqn:Eo.
  assert (Hr : raised o = false) by (rewrite Eo; reflexivity).
  destruct o as [s' w'|e w']; [|discriminate Hr].
  apply (momentum_follows_warmup_schedule (F := toy) opt toy_ext_warmup
           (inr (static_shape_step toy_pc ∅ opt)) data_loader 0 s s' toy_world w'
           (eq_sym Eo)).
Defined.

Lemma optimizer_never_sees_overflow_witness :
  let opt := toy_opt "StaticShape" "none" "sgd" "" "" true false false 64 in
  let data_loader := [good_batch; bad_batch; good_batch] in
  let s := toy_loop 1 None true in
  exists s' w' evs,
    train_loop opt toy_ext (inr (static_shape_step toy_pc ∅ opt)) 0 data_loader s
               toy_world = Return s' w' /\
    trace w' = trace toy_world ++ evs /\
    forall grads, In (OptimizerCall grads) evs -> all_finite grads = true.
Proof.
  intros opt data_loader s.
  apply (optimizer_never_sees_overflow (F := toy) toy_pc ∅ opt toy_ext data_loader 0 s
           toy_world).
  - cbn. lia.
  - reflexivity.
  - split; [lia|]. split; [reflexivity|]. split; [reflexivity|discriminate].
  - reflexivity.
Defined.

Lemma checkpoints_numbered_from_one_witness :
  let opt := toy_opt "StaticShape" "none" "sgd" "" "" true false false 64 in
  let data_loader := [good_batch; good_batch; good_batch; good_batch; good_batch;
                      good_batch; good_batch; good_batch; good_batch] in
  let o := train 1 toy_pc ∅ opt toy_data_dict toy_ext data_loader toy_world in
  let evs := skipn (length (trace toy_world)) (trace (final_world o)) in
  saved_epochs evs = map Z.of_nat (seq 1 (length (saved_epochs evs))) /\
  saved_ema_epochs evs = (if opt_ema opt then saved_epochs evs else []).
Proof.
  intros opt data_loader.
  apply (checkpoints_numbered_from_one (F := toy) 1 toy_pc ∅ opt toy_data_dict toy_ext
           data_loader toy_world).
  reflexivity.
Defined.

Lemma accumulated_gradients_are_summed_witness :
  let opt := toy_opt "StaticShape" "dynamic" "sgd" "" "" true false false 32 in
  let s := toy_loop 2 (Some (DynamicLossScaler 4096 2 1000 0)) true in
  let ls1 := option_map (fun ls => adjust ls true) (loss_scaler s) in
  exists ns1 ns2 s' w' evs,
    train_loop opt toy_ext (inr (static_shape_step toy_pc ∅ opt)) 0
               [good_batch; good_batch] s toy_world = Return s' w' /\
    trace w' = trace toy_world ++ evs /\
    let g1 := batch_grads toy_pc ∅ opt (loss_scaler s) (model s) good_batch ns1 in
    let g2 := batch_grads toy_pc ∅ opt ls1 (model s) good_batch ns2 in
    count_events is_optimizer_call evs = 1%nat /\
    In (OptimizerCall (zip_with tensor_add g1 g2)) evs /\
    model s' = optimizer_apply (optimizer s) (model s) (zip_with tensor_add g1 g2) /\
    accumulate_grads s' = None /\ accumulate_cur_step s' = 0.
Proof.
  intros opt s ls1.
  apply (accumulated_gradients_are_summed (F := toy) toy_pc ∅ opt toy_ext 0
           good_batch good_batch s toy_world).
  - cbn. lia.
  - reflexivity.
  - reflexivity.
  - reflexivity.
  - intros [ns|]; reflexivity.
  - intros [ns|]; reflexivity.
  - intros ns1 ns2. reflexivity.
Defined.
